(** * BlockDoc: a shallow embedding of the document/block core

    The development follows the JavaScript sources of the repository:
    - [src/utils/sanitize.js]   (module [Sanitize]),
    - [core/block.js]           (module [Block]),
    - [core/document.js]        (module [Document]),
    - [renderers/markdown.js]   (module [Markdown]),
    - [renderers/html.js]       (module [Html]).

    JavaScript values are embedded as a small universe of JSON-like values;
    objects are finite maps from property names to values, arrays are lists.
    Code that throws returns in the [result] type; the methods of the
    document class, which mutate [this.article.blocks], are written in a
    state-and-exception monad over the document. *)

From stdpp Require Import gmap strings list fin_maps pretty.
From Stdlib Require Import Ascii ZArith Lia.

#[local] Set Warnings "-register-all,-clear-no-such-hyp".

Local Open Scope Z_scope.

(** ** Characters and strings

    A string is a sequence of code units; the 8-bit characters of [string]
    stand for the code units 0..255. *)

Definition dquote : ascii := "034"%char.
Definition squote : ascii := "039"%char.
Definition newline : ascii := "010"%char.
(** The control character U+0014. *)
Definition dc4 : ascii := "020"%char.
Definition q : string := String dquote "".
Definition nl : string := String newline "".

Fixpoint repeat_string (s : string) (n : nat) : string :=
  match n with
  | O => ""
  | S n' => s +:+ repeat_string s n'
  end.

(** [Array.prototype.join] on an array of strings. *)
Fixpoint join (sep : string) (l : list string) : string :=
  match l with
  | [] => ""
  | [x] => x
  | x :: rest => x +:+ sep +:+ join sep rest
  end.

(** [String.prototype.split] with a one-character separator. *)
Fixpoint split_on (c : ascii) (s : string) : list string :=
  match s with
  | EmptyString => [""]
  | String a r =>
      if decide (a = c) then "" :: split_on c r
      else match split_on c r with
           | [] => [String a ""]
           | w :: ws => String a w :: ws
           end
  end.

(** [String.prototype.startsWith]. *)
Fixpoint startsWith (p s : string) : bool :=
  match p, s with
  | EmptyString, _ => true
  | String a p', String b s' => bool_decide (a = b) && startsWith p' s'
  | String _ _, EmptyString => false
  end.

(** [String.prototype.includes] with a one-character needle. *)
Fixpoint includes_char (c : ascii) (s : string) : bool :=
  match s with
  | EmptyString => false
  | String a r => bool_decide (a = c) || includes_char c r
  end.

Definition nat_of_char (c : ascii) : nat := Ascii.nat_of_ascii c.

(** Case folding for the regular-expression flag [i] (without the [u] flag).
    The patterns of the sources contain ASCII letters only, and a code unit
    matches such a letter exactly when it is that letter in either case. *)
Definition to_lower (c : ascii) : ascii :=
  let n := nat_of_char c in
  if (65 <=? n)%nat && (n <=? 90)%nat then Ascii.ascii_of_nat (n + 32) else c.

(** ** Numbers

    A finite non-zero number is kept as the decimal numeral that
    [Number::toString] prints for it: the digits [ds] of its shortest decimal
    form (k digits, no leading or trailing zero) and the position [n] of the
    decimal point, so that its value is 0.c1...ck * 10^n. *)

Inductive digit := D0 | D1 | D2 | D3 | D4 | D5 | D6 | D7 | D8 | D9.

#[global] Instance digit_eq_dec : EqDecision digit.
Proof. solve_decision. Defined.

Inductive number :=
| NaN
| Infinity (neg : bool)
| Zero (neg : bool)
| Finite (neg : bool) (ds : list digit) (n : Z).

Definition digit_val (d : digit) : Z :=
  match d with
  | D0 => 0 | D1 => 1 | D2 => 2 | D3 => 3 | D4 => 4
  | D5 => 5 | D6 => 6 | D7 => 7 | D8 => 8 | D9 => 9
  end.

Definition digit_char (d : digit) : ascii :=
  match d with
  | D0 => "0" | D1 => "1" | D2 => "2" | D3 => "3" | D4 => "4"
  | D5 => "5" | D6 => "6" | D7 => "7" | D8 => "8" | D9 => "9"
  end%char.

Fixpoint digits_string (ds : list digit) : string :=
  match ds with
  | [] => ""
  | d :: r => String (digit_char d) (digits_string r)
  end.

(** The integer written by a digit sequence (most significant first). *)
Definition digits_val (ds : list digit) : Z :=
  fold_left (fun acc d => 10 * acc + digit_val d) ds 0.

(** [Number::toString] (radix 10), ECMA-262 6.1.6.1.20. *)
Definition finite_to_string (ds : list digit) (n : Z) : string :=
  let k := Z.of_nat (length ds) in
  if (k <=? n) && (n <=? 21) then
    digits_string ds +:+ repeat_string "0" (Z.to_nat (n - k))
  else if (0 <? n) && (n <=? 21) then
    digits_string (take (Z.to_nat n) ds) +:+ "." +:+
    digits_string (drop (Z.to_nat n) ds)
  else if (-6 <? n) && (n <=? 0) then
    "0." +:+ repeat_string "0" (Z.to_nat (- n)) +:+ digits_string ds
  else
    let e := n - 1 in
    let es := (if e <? 0 then "-" else "+") +:+ pretty (Z.abs e) in
    match ds with
    | [] => "e" +:+ es
    | [d] => digits_string [d] +:+ "e" +:+ es
    | d :: r => digits_string [d] +:+ "." +:+ digits_string r +:+ "e" +:+ es
    end.

Definition number_to_string (x : number) : string :=
  match x with
  | NaN => "NaN"
  | Infinity false => "Infinity"
  | Infinity true => "-Infinity"
  | Zero _ => "0"
  | Finite neg ds n => (if neg then "-" else "") +:+ finite_to_string ds n
  end.

(** [x < 0] for a number [x]. *)
Definition number_negative (x : number) : bool :=
  match x with
  | Infinity true => true
  | Finite true _ _ => true
  | _ => false
  end.

(** Truncation toward zero of a finite number: the integer part of
    0.c1...ck * 10^n. *)
Definition finite_trunc (ds : list digit) (n : Z) : Z :=
  let k := Z.of_nat (length ds) in
  if n <=? 0 then 0
  else if k <=? n then digits_val ds * 10 ^ (n - k)
  else digits_val (take (Z.to_nat n) ds).

(** [x >= m] for a number [x] and a non-negative integer [m] (an array
    length). A positive finite number is at least [m] exactly when its
    integer part is. *)
Definition number_ge_nat (x : number) (m : nat) : bool :=
  match x with
  | NaN => false
  | Infinity neg => negb neg
  | Zero _ => Z.of_nat m <=? 0
  | Finite true _ _ => false
  | Finite false ds n => Z.of_nat m <=? finite_trunc ds n
  end.

(** ** Values *)

Inductive value :=
| VUndefined
| VNull
| VBool (b : bool)
| VNum (x : number)
| VStr (s : string)
| VArr (l : list value)
| VObj (m : gmap string value).

Abbreviation obj := (gmap string value).

(** [ToBoolean]. *)
Definition truthy (v : value) : bool :=
  match v with
  | VUndefined | VNull => false
  | VBool b => b
  | VNum NaN | VNum (Zero _) => false
  | VNum _ => true
  | VStr s => negb (bool_decide (s = ""))
  | VArr _ | VObj _ => true
  end.

Definition number_eqb (x y : number) : bool :=
  match x, y with
  | NaN, _ | _, NaN => false
  | Infinity a, Infinity b => bool_decide (a = b)
  | Zero _, Zero _ => true
  | Finite a ds n, Finite b es m =>
      bool_decide (a = b) && bool_decide (ds = es) && bool_decide (n = m)
  | _, _ => false
  end.

(** [===]. Primitive values are compared by value. Arrays and objects are
    compared by identity; every array or object of this embedding is an
    allocation of its own, so two of them are never identical. *)
Definition strict_eq (v w : value) : bool :=
  match v, w with
  | VUndefined, VUndefined => true
  | VNull, VNull => true
  | VBool a, VBool b => bool_decide (a = b)
  | VNum x, VNum y => number_eqb x y
  | VStr s, VStr t => bool_decide (s = t)
  | _, _ => false
  end.

Definition isArray (v : value) : bool :=
  match v with VArr _ => true | _ => false end.

(** ** Errors

    The sources throw [new Error(message)]; the kinds below are told apart
    by their messages, which [message] reproduces. [TypeError] is the error
    the host raises on a property access on [undefined] or [null] and on a
    call of something that is not a function. *)

Inductive error :=
| TypeError
| MissingIdError
| InvalidTypeError (ty : value)
| MissingRequiredFieldError (ty : value) (prop : string)
| DuplicateIdError (id : value)
| BlockNotFoundError (id : value)
| InvalidPositionError (p : number)
| InvalidArticleStructureError
| MissingArticleError
| ExternalError.

Inductive result (A : Type) :=
| Ok (a : A)
| Err (e : error).
Arguments Ok {A} a.
Arguments Err {A} e.

Definition rbind {A B} (r : result A) (f : A -> result B) : result B :=
  match r with
  | Ok a => f a
  | Err e => Err e
  end.

Notation "x <-r e1 ;; e2" := (rbind e1 (fun x => e2))
  (at level 100, e1 at next level, right associativity).

(** Property read [v.k] for the property names the sources use (none of
    them is a built-in property of a string, number, boolean or array). *)
Definition member (v : value) (k : string) : result value :=
  match v with
  | VUndefined | VNull => Err TypeError
  | VObj m => Ok (default VUndefined (m !! k))
  | _ => Ok VUndefined
  end.

(** Property read on an object. *)
Definition get (m : obj) (k : string) : value := default VUndefined (m !! k).

(** [l.map(f)] for a callback that may throw. *)
Fixpoint map_result {A B} (f : A -> result B) (l : list A) : result (list B) :=
  match l with
  | [] => Ok []
  | x :: r =>
      y <-r f x;;
      ys <-r map_result f r;;
      Ok (y :: ys)
  end.

(** ** Conversion to a string

    [ToString], as template literals, [String(...)], the operator [+] on a
    string and [parseInt] apply it. An object is converted by calling its
    [toString] method. The method that every object inherits prints
    "[object Object]". A property of the object's own with that name is, in
    this universe of values, never a function: there is then no method to
    call (the inherited [valueOf] returns the object itself, which is no
    primitive value), and the conversion raises a TypeError. An array is
    converted by joining its elements with commas, an [undefined] or
    [null] element printed as the empty string. *)
Fixpoint to_string (v : value) : result string :=
  match v with
  | VUndefined => Ok "undefined"
  | VNull => Ok "null"
  | VBool true => Ok "true"
  | VBool false => Ok "false"
  | VNum x => Ok (number_to_string x)
  | VStr s => Ok s
  | VArr l =>
      strs <-r map_result (fun e => match e with
                                    | VUndefined | VNull => Ok ""
                                    | _ => to_string e
                                    end) l;;
      Ok (join "," strs)
  | VObj m =>
      if decide (is_Some (m !! "toString")) then Err TypeError
      else Ok "[object Object]"
  end.

(** The string that [Array.prototype.join] prints for an element. *)
Definition element_string (e : value) : result string :=
  match e with
  | VUndefined | VNull => Ok ""
  | _ => to_string e
  end.

(** [Array.prototype.join] on an array of values. *)
Definition array_join (sep : string) (l : list value) : result string :=
  strs <-r map_result element_string l;;
  Ok (join sep strs).

(** * The sanitizer (src/utils/sanitize.js) *)

Module Sanitize.

(** The regular expressions of the module are sequences of characters, some
    of them optional, anchored at the start of the input. *)
Inductive re_item :=
| Chr (c : ascii)
| OptChr (c : ascii).

Definition char_matches (ignore_case : bool) (c a : ascii) : bool :=
  if ignore_case then bool_decide (to_lower c = to_lower a)
  else bool_decide (c = a).

Fixpoint re_test (ignore_case : bool) (re : list re_item) (s : string) : bool :=
  match re with
  | [] => true
  | Chr c :: re' =>
      match s with
      | String a s' => char_matches ignore_case c a && re_test ignore_case re' s'
      | EmptyString => false
      end
  | OptChr c :: re' =>
      match s with
      | String a s' => char_matches ignore_case c a && re_test ignore_case re' s'
      | EmptyString => false
      end
      || re_test ignore_case re' s
  end.

(** [/^https?:\/\//i] *)
Definition http_scheme_re : list re_item :=
  [Chr "h"; Chr "t"; Chr "t"; Chr "p"; OptChr "s"; Chr ":"; Chr "/"; Chr "/"]%char.

(** The object [map] of [sanitizeHtml]. *)
Definition entity_map : list (ascii * string) :=
  [("&"%char, "&amp;"); ("<"%char, "&lt;"); (">"%char, "&gt;");
   (dquote, "&quot;"); (squote, "&#039;")].

(** The character class [[&<>\x22']]. *)
Definition special_chars : list ascii :=
  ["&"%char; "<"%char; ">"%char; dquote; squote].

Definition is_special (c : ascii) : bool := bool_decide (c ∈ special_chars).

Fixpoint lookup_entity (m : list (ascii * string)) (c : ascii) : string :=
  match m with
  | [] => "undefined"
  | (k, e) :: m' => if decide (k = c) then e else lookup_entity m' c
  end.

(** [s.replace(/[...]/g, function (m) { return map[m]; })]: one pass over
    the input, each character of the class replaced by its entry. *)
Fixpoint replace_special (s : string) : string :=
  match s with
  | EmptyString => ""
  | String c r =>
      (if is_special c then lookup_entity entity_map c else String c "")
      +:+ replace_special r
  end.

Definition sanitizeHtml (html : value) : result string :=
  if negb (truthy html) then Ok ""
  else s <-r to_string html;; Ok (replace_special s).

Definition sanitizeUrl (url : value) : result string :=
  if negb (truthy url) then Ok ""
  else
    match url with
    | VStr u =>
        if re_test true http_scheme_re u then Ok u
        else if startsWith "//" u then Ok ("https:" +:+ u)
        else if negb (includes_char ":" u) then Ok u
        else Ok ""
    | _ => Err TypeError
    end.

End Sanitize.

(** * JSON.stringify and JSON.parse

    The text that [JSON.stringify] produces is represented by the tree it
    denotes, which is what [JSON.parse] returns for it. [json_value] is
    SerializeJSONProperty read back: properties whose value is [undefined]
    are left out of objects, [undefined] elements of arrays and the numbers
    NaN and ±Infinity become [null], and -0 is printed as 0. *)

Module JSON.

Definition is_undefined (v : value) : bool :=
  match v with VUndefined => true | _ => false end.

Fixpoint json_value (v : value) : value :=
  match v with
  | VUndefined => VNull
  | VNum NaN | VNum (Infinity _) => VNull
  | VNum (Zero _) => VNum (Zero false)
  | VArr l => VArr (json_value <$> l)
  | VObj m =>
      VObj (omap (fun x => if is_undefined x then None
                           else Some (json_value x)) m)
  | _ => v
  end.

Record text := Text { tree : value }.

(** [JSON.stringify(v, null, 2)]; the result is [undefined] ([None]) when
    [v] is. The indentation does not change the tree. *)
Definition stringify (v : value) : option text :=
  if is_undefined v then None else Some (Text (json_value v)).

Definition parse (t : text) : value := tree t.

End JSON.

(** * Blocks (core/block.js) *)

Module Block.

Definition ALLOWED_TYPES : list string :=
  ["text"; "heading"; "image"; "code"; "list"; "quote"; "embed"; "divider"].

Definition TYPE_REQUIREMENTS : gmap string (list string) :=
  {[ "heading" := ["level"];
     "code" := ["language"];
     "image" := ["url"; "alt"];
     "list" := ["items"; "listType"] ]}.

(** [Array.prototype.includes] on an array of strings. *)
Definition includes (l : list string) (v : value) : bool :=
  match v with
  | VStr s => bool_decide (s ∈ l)
  | _ => false
  end.

(** An instance of the class, given by its own enumerable properties. *)
Record instance := Instance { own : obj }.

(** The names an instance inherits from [Block.prototype] and
    [Object.prototype]; [this[key]] is defined for them even when [key] is
    not an own property. *)
Definition inherited_names : list string :=
  ["constructor"; "update"; "toJSON"; "__proto__"; "hasOwnProperty";
   "isPrototypeOf"; "propertyIsEnumerable"; "toLocaleString"; "toString";
   "valueOf"; "__defineGetter__"; "__defineSetter__"; "__lookupGetter__";
   "__lookupSetter__"].

(** [this[key] === undefined] *)
Definition this_undefined (this : obj) (key : string) : bool :=
  match this !! key with
  | Some v => strict_eq v VUndefined
  | None => negb (bool_decide (key ∈ inherited_names))
  end.

Definition basic_names : list string := ["id"; "type"; "content"].

(** [TYPE_REQUIREMENTS[this.type] || []]; where the constructor reads it,
    [this.type] is one of ALLOWED_TYPES, a string. *)
Definition requiredProps (ty : value) : list string :=
  match ty with
  | VStr key => default [] (TYPE_REQUIREMENTS !! key)
  | _ => []
  end.

(** The loop over [requiredProps]. *)
Fixpoint check_required (data ty : value) (props : list string) (this : obj)
  : result obj :=
  match props with
  | [] => Ok this
  | prop :: rest =>
      v <-r member data prop;;
      if strict_eq v VUndefined then Err (MissingRequiredFieldError ty prop)
      else check_required data ty rest (<[prop := v]> this)
  end.

(** [Object.keys(data).forEach(key => ...)] of the constructor. *)
Definition copy_additional (data : value) (this : obj) : obj :=
  match data with
  | VObj m =>
      map_fold (fun key v this =>
                  if negb (bool_decide (key ∈ basic_names))
                     && this_undefined this key
                  then <[key := v]> this else this) this m
  | _ => this
  end.

(** [new Block(data)]. The message of the error for the type holds the
    type, converted to a string before the error is thrown. *)
Definition new (data : value) : result instance :=
  id <-r member data "id";;
  if negb (truthy id) then Err MissingIdError else
  ty <-r member data "type";;
  if negb (truthy ty) || negb (includes ALLOWED_TYPES ty)
  then (_ <-r to_string ty;; Err (InvalidTypeError ty)) else
  content <-r member data "content";;
  let this : obj :=
    <["content" := if truthy content then content else VStr ""]>
      (<["type" := ty]> (<["id" := id]> ∅)) in
  this <-r check_required data ty (requiredProps ty) this;;
  Ok (Instance (copy_additional data this)).

(** [update(updates)]: every key of [updates] but [id] and [type] is
    assigned. *)
Definition update (updates : obj) (b : instance) : instance :=
  let allowedUpdates := delete "type" (delete "id" updates) in
  Instance (map_fold (fun key v this => <[key := v]> this) (own b) allowedUpdates).

(** [toJSON()] *)
Definition toJSON (b : instance) : obj :=
  let result : obj :=
    <["content" := get (own b) "content"]>
      (<["type" := get (own b) "type"]> (<["id" := get (own b) "id"]> ∅)) in
  map_fold (fun key v result =>
              if negb (bool_decide (key ∈ basic_names))
              then <[key := v]> result else result) result (own b).

(** The static factories. *)
Definition text (id content : value) : result instance :=
  new (VObj {[ "id" := id; "type" := VStr "text"; "content" := content ]}).

Definition heading (id level content : value) : result instance :=
  new (VObj {[ "id" := id; "type" := VStr "heading"; "level" := level;
               "content" := content ]}).

Definition image (id url alt caption : value) : result instance :=
  let data : obj :=
    {[ "id" := id; "type" := VStr "image"; "content" := VStr "";
       "url" := url; "alt" := alt ]} in
  new (VObj (if truthy caption then <["caption" := caption]> data else data)).

Definition code (id language content : value) : result instance :=
  new (VObj {[ "id" := id; "type" := VStr "code"; "language" := language;
               "content" := content ]}).

Definition list (id items listType : value) : result instance :=
  let listType :=
    match listType with VUndefined => VStr "unordered" | _ => listType end in
  new (VObj {[ "id" := id; "type" := VStr "list"; "content" := VStr "";
               "items" := items; "listType" := listType ]}).

End Block.

(** * Arrays *)

(** [Array.prototype.findIndex]; [None] stands for -1. *)
Fixpoint findIndex {A} (p : A -> bool) (l : list A) : option nat :=
  match l with
  | [] => None
  | x :: r => if p x then Some 0%nat else S <$> findIndex p r
  end.

(** The start index of [splice]: ToIntegerOrInfinity of the argument (the
    number truncated toward zero, NaN and -0 read as 0), a negative
    position counted from the end, the result clamped to the bounds of the
    array. *)
Definition splice_start (len : nat) (start : number) : nat :=
  match start with
  | NaN | Zero _ => 0%nat
  | Infinity true => 0%nat
  | Infinity false => len
  | Finite true ds n =>
      if finite_trunc ds n =? 0 then 0%nat
      else Z.to_nat (Z.max (Z.of_nat len - finite_trunc ds n) 0)
  | Finite false ds n => Z.to_nat (Z.min (finite_trunc ds n) (Z.of_nat len))
  end.

(** [l.splice(start, deleteCount, ...items)] at a start index already
    clamped: the removed elements and the array afterwards. *)
Definition splice {A} (l : list A) (start deleteCount : nat) (items : list A)
  : list A * list A :=
  (take deleteCount (drop start l),
   take start l ++ items ++ drop (start + deleteCount) l).

(** * Documents (core/document.js) *)

Module Document.

Record Article := mkArticle {
  title : value;
  metadata : value;
  blocks : list obj
}.

Record BlockDocDocument := mkDocument { article : Article }.

(** The article as a value, for the renderers and for [toJSON]. *)
Definition article_value (a : Article) : value :=
  VObj (<["blocks" := VArr (VObj <$> blocks a)]>
          (<["metadata" := metadata a]> (<["title" := title a]> ∅))).

(** Methods read and write [this.article.blocks] and may throw: a
    computation takes the document and returns a result or an error
    together with the document afterwards. *)
Definition M (A : Type) : Type :=
  BlockDocDocument -> result A * BlockDocDocument.

Definition ret {A} (a : A) : M A := fun d => (Ok a, d).

Definition bind {A B} (m : M A) (f : A -> M B) : M B :=
  fun d => match m d with
           | (Ok a, d') => f a d'
           | (Err e, d') => (Err e, d')
           end.

Definition throw {A} (e : error) : M A := fun d => (Err e, d).

Definition lift {A} (r : result A) : M A := fun d => (r, d).

Definition get_blocks : M (list obj) := fun d => (Ok (blocks (article d)), d).

Definition set_blocks (bs : list obj) : M unit :=
  fun d => (Ok tt,
            mkDocument (mkArticle (title (article d)) (metadata (article d)) bs)).

Notation "x <- e1 ;; e2" := (bind e1 (fun x => e2))
  (at level 100, e1 at next level, right associativity).
Notation "e1 ;;; e2" := (bind e1 (fun _ => e2))
  (at level 100, right associativity).

(** [blocks.forEach(f)] *)
Fixpoint forEach {A} (f : A -> M unit) (l : list A) : M unit :=
  match l with
  | [] => ret tt
  | x :: r => f x ;;; forEach f r
  end.

Definition has_id (id : value) (block : obj) : bool :=
  strict_eq (get block "id") id.

(** [getBlock(id)]: the stored block or [null]. *)
Definition getBlock (id : value) : M value :=
  bs <- get_blocks;;
  ret (match find (has_id id) bs with
       | Some block => VObj block
       | None => VNull
       end).

(** [addBlock(blockData)]. The message of an error holds the id, converted
    to a string before the error is thrown. *)
Definition addBlock (blockData : value) : M Block.instance :=
  id <- lift (member blockData "id");;
  found <- getBlock id;;
  if truthy found
  then (_ <- lift (to_string id);; throw (DuplicateIdError id)) else
  block <- lift (Block.new blockData);;
  bs <- get_blocks;;
  set_blocks (bs ++ [Block.toJSON block]);;;
  ret block.

(** [insertBlock(blockData, position)] *)
Definition insertBlock (blockData : value) (position : number)
  : M Block.instance :=
  id <- lift (member blockData "id");;
  found <- getBlock id;;
  if truthy found
  then (_ <- lift (to_string id);; throw (DuplicateIdError id)) else
  block <- lift (Block.new blockData);;
  bs <- get_blocks;;
  set_blocks
    (splice bs (splice_start (length bs) position) 0 [Block.toJSON block]).2;;;
  ret block.

(** [updateBlock(id, updates)]; [{...currentBlock, ...updates}] is the union
    in which the properties of [updates] win. *)
Definition updateBlock (id : value) (updates : obj) : M obj :=
  bs <- get_blocks;;
  match findIndex (has_id id) bs with
  | None => _ <- lift (to_string id);; throw (BlockNotFoundError id)
  | Some index =>
      let currentBlock : obj := default ∅ (bs !! index) in
      let updatedBlock : obj := updates ∪ currentBlock in
      block <- lift (Block.new (VObj updatedBlock));;
      set_blocks (<[index := Block.toJSON block]> bs);;;
      bs' <- get_blocks;;
      ret (default ∅ (bs' !! index))
  end.

(** [removeBlock(id)] *)
Definition removeBlock (id : value) : M bool :=
  bs <- get_blocks;;
  match findIndex (has_id id) bs with
  | None => ret false
  | Some index =>
      set_blocks (splice bs index 1 []).2;;;
      ret true
  end.

(** [moveBlock(id, newPosition)] *)
Definition moveBlock (id : value) (newPosition : number) : M bool :=
  bs <- get_blocks;;
  match findIndex (has_id id) bs with
  | None => ret false
  | Some index =>
      if number_negative newPosition
         || number_ge_nat newPosition (length bs)
      then throw (InvalidPositionError newPosition)
      else
        let (removed, bs1) := splice bs index 1 [] in
        set_blocks bs1;;;
        let block : obj := default ∅ (head removed) in
        set_blocks
          (splice bs1 (splice_start (length bs1) newPosition) 0 [block]).2;;;
        ret true
  end.

(** A destructured parameter with a default value. *)
Definition with_default (v dflt : value) : value :=
  if JSON.is_undefined v then dflt else v.

(** [new BlockDocDocument({ title, metadata = {}, blocks = [] })] *)
Definition new (options : value) : result BlockDocDocument :=
  title <-r member options "title";;
  metadata <-r member options "metadata";;
  blocks <-r member options "blocks";;
  let metadata := with_default metadata (VObj ∅) in
  let blocks := with_default blocks (VArr []) in
  let this := mkDocument (mkArticle title metadata []) in
  if truthy blocks && isArray blocks then
    match blocks with
    | VArr l =>
        match forEach (fun block => addBlock block ;;; ret tt) l this with
        | (Ok _, this') => Ok this'
        | (Err e, _) => Err e
        end
    | _ => Ok this
    end
  else Ok this.

(** [toJSON()] *)
Definition toJSON (d : BlockDocDocument) : value :=
  VObj {[ "article" := article_value (article d) ]}.

(** [toString()] *)
Definition toString (d : BlockDocDocument) : option JSON.text :=
  JSON.stringify (toJSON d).

(** The argument of [fromJSON]: a string, which holds a JSON text, or a
    value. *)
Inductive json_argument :=
| JsonString (t : JSON.text)
| JsonObject (v : value).

(** [a || b] *)
Definition or_else (a b : value) : value := if truthy a then a else b.

(** [BlockDocDocument.fromJSON(json)] *)
Definition fromJSON (json : json_argument) : result BlockDocDocument :=
  let data := match json with
              | JsonString t => JSON.parse t
              | JsonObject v => v
              end in
  art <-r member data "article";;
  if negb (truthy art) then Err MissingArticleError else
  title <-r member art "title";;
  metadata <-r member art "metadata";;
  blocks <-r member art "blocks";;
  new (VObj (<["blocks" := or_else blocks (VArr [])]>
               (<["metadata" := or_else metadata (VObj ∅)]>
                  (<["title" := title]> ∅)))).

End Document.

(** * External collaborators of the renderers

    The Markdown-to-HTML converter ([marked]), the syntax highlighter
    ([highlight.js]) and the host's [Date] and [URL] classes are not part of
    the repository; the renderers are written over their interfaces. A call
    that throws returns [None]. *)

Record URL := mkURL {
  hostname : string;
  pathname : string;
  search : string
}.

Class Collaborators := {
  (** [marked.parse(src)] *)
  marked_parse : value -> option string;
  (** whether [hljs.getLanguage(language)] is truthy *)
  hljs_getLanguage : value -> option bool;
  (** [hljs.highlight(content, { language }).value] *)
  hljs_highlight : value -> value -> option string;
  (** [hljs.highlightAuto(content).value] *)
  hljs_highlightAuto : value -> option string;
  (** [new Date(d).toDateString()], for an argument [d] that has been
      converted to a primitive value *)
  date_toDateString : value -> string;
  (** [new URL(url)] *)
  URL_parse : value -> option URL;
  (** [new URLSearchParams(search).get(name)], [None] for [null] *)
  searchParams_get : string -> string -> option string
}.

(** The outcome of a call of a collaborator. *)
Definition external {A} (o : option A) : result A :=
  match o with
  | Some a => Ok a
  | None => Err ExternalError
  end.

(** [switch (v) { case c1: ... case cn: ... default: ... }] over string
    labels, every case ending in a return or a break: the first case whose
    label is strictly equal to [v]. *)
Definition switch {A} (v : value) (cases : list (string * A)) (dflt : A) : A :=
  match find (fun c => strict_eq v (VStr c.1)) cases with
  | Some c => c.2
  | None => dflt
  end.

(** The elements of an array. *)
Definition array_elements (v : value) : list value :=
  match v with VArr l => l | _ => [] end.

(** [l.map((item, index) => f item index)] for a callback that may throw,
    from the index [index] on. *)
Fixpoint map_index {A B} (f : A -> nat -> result B) (index : nat) (l : list A)
  : result (list B) :=
  match l with
  | [] => Ok []
  | x :: r =>
      y <-r f x index;;
      ys <-r map_index f (S index) r;;
      Ok (y :: ys)
  end.

(** [`${v || dflt}`] *)
Definition or_text (v : value) (dflt : string) : result string :=
  if truthy v then to_string v else Ok dflt.

(** A string as a value. *)
Definition string_value (r : result string) : result value :=
  s <-r r;; Ok (VStr s).

(** [Math.min(Math.max(parseInt(level) || 2, 1), 6)], shared by the two
    renderers. *)
Module Level.

(** StrWhiteSpaceChar, within the code units 0..255. *)
Definition is_whitespace (c : ascii) : bool :=
  let n := nat_of_char c in
  bool_decide (n ∈ [9; 10; 11; 12; 13; 32; 160]%nat).

Fixpoint trim_start (s : string) : string :=
  match s with
  | String c r => if is_whitespace c then trim_start r else s
  | EmptyString => ""
  end.

(** The value of a character as a digit of the given radix. *)
Definition digit_of_char (radix : Z) (c : ascii) : option Z :=
  let n := Z.of_nat (nat_of_char c) in
  let v := if (48 <=? n) && (n <=? 57) then n - 48
           else if (97 <=? n) && (n <=? 122) then n - 97 + 10
           else if (65 <=? n) && (n <=? 90) then n - 65 + 10
           else 36 in
  if v <? radix then Some v else None.

(** The longest prefix of digits, read as a number; [None] when there is
    no digit. *)
Fixpoint read_digits (radix : Z) (acc : option Z) (s : string) : option Z :=
  match s with
  | EmptyString => acc
  | String c r =>
      match digit_of_char radix c with
      | Some v => read_digits radix (Some (radix * default 0 acc + v)) r
      | None => acc
      end
  end.

(** [parseInt(string)] without a radix argument (ECMA-262 19.2.5); [None]
    is NaN. The result is the mathematical integer the digits denote. *)
Definition parseInt_string (s : string) : option Z :=
  let s := trim_start s in
  let '(sign, s) := match s with
                    | String "-"%char r => (-1, r)
                    | String "+"%char r => (1, r)
                    | _ => (1, s)
                    end in
  let '(radix, s) := match s with
                     | String "0"%char (String "x"%char r) => (16, r)
                     | String "0"%char (String "X"%char r) => (16, r)
                     | _ => (10, s)
                     end in
  (fun z => sign * z) <$> read_digits radix None s.

(** [parseInt(v)]: the argument is converted to a string first. *)
Definition parseInt (v : value) : result (option Z) :=
  s <-r to_string v;; Ok (parseInt_string s).

(** [x || 2] for a number [x] that is an integer or NaN. *)
Definition or_two (x : option Z) : Z :=
  match x with
  | Some z => if z =? 0 then 2 else z
  | None => 2
  end.

Definition validLevel (level : value) : result Z :=
  n <-r parseInt level;;
  Ok (Z.min (Z.max (or_two n) 1) 6).

End Level.

(** * The Markdown renderer (renderers/markdown.js) *)

Module Markdown.

(** The content is returned as it is, whatever it is. *)
Definition renderTextBlockToMarkdown (block : value) : result value :=
  member block "content".

Definition renderHeadingBlockToMarkdown (block : value) : result string :=
  level <-r member block "level";;
  content <-r member block "content";;
  validLevel <-r Level.validLevel level;;
  let hashtags := repeat_string "#" (Z.to_nat validLevel) in
  content <-r to_string content;;
  Ok (hashtags +:+ " " +:+ content).

Definition renderImageBlockToMarkdown (block : value) : result string :=
  url <-r member block "url";;
  alt <-r member block "alt";;
  caption <-r member block "caption";;
  alt <-r or_text alt "";;
  url <-r to_string url;;
  let markdown := "![" +:+ alt +:+ "](" +:+ url +:+ ")" in
  if truthy caption then
    caption <-r to_string caption;;
    Ok (markdown +:+ nl +:+ "*" +:+ caption +:+ "*")
  else Ok markdown.

Definition renderCodeBlockToMarkdown (block : value) : result string :=
  language <-r member block "language";;
  content <-r member block "content";;
  language <-r or_text language "";;
  content <-r to_string content;;
  Ok ("```" +:+ language +:+ nl +:+ content +:+ nl +:+ "```").

Definition renderListBlockToMarkdown (block : value) : result string :=
  items <-r member block "items";;
  listType <-r member block "listType";;
  match items with
  | VArr l =>
      lines <-r map_index
                  (fun item index =>
                     item <-r to_string item;;
                     Ok (if strict_eq listType (VStr "ordered")
                         then pretty (S index) +:+ ". " +:+ item
                         else "- " +:+ item)) 0%nat l;;
      Ok (join nl lines)
  | _ => Ok "[Invalid list items]"
  end.

(** The attribution is written after the characters ">", space, U+0014
    and space, as the source has them. *)
Definition renderQuoteBlockToMarkdown (block : value) : result string :=
  content <-r member block "content";;
  attribution <-r member block "attribution";;
  match content with
  | VStr c =>
      let markdown :=
        join nl (map (fun line => "> " +:+ line) (split_on newline c)) in
      if truthy attribution then
        attribution <-r to_string attribution;;
        Ok (markdown +:+ nl +:+ ">" +:+ nl +:+ "> " +:+ String dc4 " " +:+
            attribution)
      else Ok markdown
  | _ => Err TypeError
  end.

Definition renderEmbedBlockToMarkdown (block : value) : result string :=
  url <-r member block "url";;
  caption <-r member block "caption";;
  embedType <-r member block "embedType";;
  embedType <-r or_text embedType "Embedded content";;
  url <-r to_string url;;
  let markdown :=
    "[" +:+ embedType +:+ ": " +:+ url +:+ "](" +:+ url +:+ ")" in
  if truthy caption then
    caption <-r to_string caption;;
    Ok (markdown +:+ nl +:+ "*" +:+ caption +:+ "*")
  else Ok markdown.

(** The rendering of a block is a string, except that of a text block,
    which is the content of the block. *)
Definition renderBlockToMarkdown (block : value) : result value :=
  type <-r member block "type";;
  switch type
    [("text", renderTextBlockToMarkdown block);
     ("heading", string_value (renderHeadingBlockToMarkdown block));
     ("image", string_value (renderImageBlockToMarkdown block));
     ("code", string_value (renderCodeBlockToMarkdown block));
     ("list", string_value (renderListBlockToMarkdown block));
     ("quote", string_value (renderQuoteBlockToMarkdown block));
     ("embed", string_value (renderEmbedBlockToMarkdown block));
     ("divider", Ok (VStr "---"))]
    (type <-r to_string type;;
     Ok (VStr ("[Unknown block type: " +:+ type +:+ "]"))).

(** The lines pushed for [article.metadata]. [new Date(d)] converts an
    argument that is an object or an array to a primitive value first, which
    fails as the conversion to a string does. *)
Definition metadata_lines `{Collaborators} (metadata : value)
  : result (list string) :=
  if truthy metadata then
    author <-r member metadata "author";;
    authorLine <-r (if truthy author
                    then author <-r to_string author;;
                         Ok ["> Author: " +:+ author]
                    else Ok []);;
    publishedDate <-r member metadata "publishedDate";;
    publishedLine <-r (if truthy publishedDate
                       then _ <-r to_string publishedDate;;
                            Ok ["> Published: " +:+
                                date_toDateString publishedDate]
                       else Ok []);;
    tags <-r member metadata "tags";;
    tagsLine <-r match tags with
                 | VArr (t :: ts) =>
                     tags <-r array_join ", " (t :: ts);;
                     Ok ["> Tags: " +:+ tags]
                 | _ => Ok []
                 end;;
    Ok (authorLine ++ publishedLine ++ tagsLine ++ [""])
  else Ok [].

(** Each block followed by a blank line. *)
Fixpoint block_lines (blocks : list value) : result (list value) :=
  match blocks with
  | [] => Ok []
  | block :: rest =>
      line <-r renderBlockToMarkdown block;;
      lines <-r block_lines rest;;
      Ok (line :: VStr "" :: lines)
  end.

(** The lines are joined as [Array.prototype.join] joins the elements of an
    array: the content of a text block is converted to a string there. *)
Definition renderToMarkdown `{Collaborators} (article : value)
  : result string :=
  if negb (truthy article) then Err InvalidArticleStructureError else
  blocks <-r member article "blocks";;
  if negb (truthy blocks) || negb (isArray blocks)
  then Err InvalidArticleStructureError else
  title <-r member article "title";;
  title <-r to_string title;;
  metadata <-r member article "metadata";;
  meta <-r metadata_lines metadata;;
  body <-r block_lines (array_elements blocks);;
  array_join nl ([VStr ("# " +:+ title); VStr ""] ++ (VStr <$> meta) ++ body).

End Markdown.

(** * The HTML renderer (renderers/html.js) *)

Module Html.

Import Sanitize.

Section WithCollaborators.
Context `{Collaborators}.

Definition renderTextBlock (block : value) : result string :=
  content <-r member block "content";;
  external (marked_parse content).

Definition renderHeadingBlock (block : value) : result string :=
  level <-r member block "level";;
  content <-r member block "content";;
  validLevel <-r Level.validLevel level;;
  content <-r sanitizeHtml content;;
  Ok ("<h" +:+ pretty validLevel +:+ ">" +:+ content +:+
      "</h" +:+ pretty validLevel +:+ ">").

Definition renderImageBlock (block : value) : result string :=
  url <-r member block "url";;
  alt <-r member block "alt";;
  caption <-r member block "caption";;
  url <-r sanitizeHtml url;;
  alt <-r sanitizeHtml alt;;
  let html :=
    "<img src=" +:+ q +:+ url +:+ q +:+ " alt=" +:+ q +:+
    alt +:+ q +:+ " class=" +:+ q +:+ "blockdoc-image" +:+
    q +:+ " />" in
  if truthy caption then
    caption <-r sanitizeHtml caption;;
    let html :=
      html +:+
      "<figcaption class=" +:+ q +:+ "blockdoc-caption" +:+ q +:+ ">" +:+
      caption +:+ "</figcaption>" in
    Ok ("<figure class=" +:+ q +:+ "blockdoc-figure" +:+ q +:+ ">" +:+
        html +:+ "</figure>")
  else Ok html.

(** The calls of the highlighter are inside the [try]; the escaping of the
    content in the [catch] and the conversion of the language in the
    template are not. *)
Definition renderCodeBlock (block : value) : result string :=
  language <-r member block "language";;
  content <-r member block "content";;
  let highlighted :=
    known <-r (if truthy language then external (hljs_getLanguage language)
               else Ok false);;
    if known then external (hljs_highlight content language)
    else external (hljs_highlightAuto content) in
  highlightedCode <-r match highlighted with
                      | Ok code => Ok code
                      | Err _ => sanitizeHtml content
                      end;;
  languageClass <-r (if truthy language
                     then language <-r to_string language;;
                          Ok ("language-" +:+ language)
                     else Ok "");;
  Ok (nl +:+
      "    <pre class=" +:+ q +:+ "blockdoc-pre" +:+ q +:+ ">" +:+ nl +:+
      "      <code class=" +:+ q +:+ "blockdoc-code " +:+
      languageClass +:+
      q +:+ ">" +:+ highlightedCode +:+ "</code>" +:+ nl +:+
      "    </pre>" +:+ nl +:+
      "  ").

Definition renderListBlock (block : value) : result string :=
  items <-r member block "items";;
  listType <-r member block "listType";;
  match items with
  | VArr l =>
      let tag := if strict_eq listType (VStr "ordered") then "ol" else "ul" in
      lis <-r map_result
                (fun item => parsed <-r external (marked_parse item);;
                             Ok ("<li>" +:+ parsed +:+ "</li>")) l;;
      let itemsHtml := join "" lis in
      listType <-r to_string listType;;
      Ok ("<" +:+ tag +:+ " class=" +:+ q +:+
          "blockdoc-list blockdoc-list-" +:+ listType +:+ q +:+
          ">" +:+ itemsHtml +:+ "</" +:+ tag +:+ ">")
  | _ => Ok "<p>Invalid list items</p>"
  end.

Definition renderQuoteBlock (block : value) : result string :=
  content <-r member block "content";;
  attribution <-r member block "attribution";;
  parsed <-r external (marked_parse content);;
  let html :=
    "<blockquote class=" +:+ q +:+ "blockdoc-quote" +:+ q +:+ ">" +:+
    parsed +:+ "</blockquote>" in
  if truthy attribution then
    attribution <-r sanitizeHtml attribution;;
    Ok (html +:+
        "<cite class=" +:+ q +:+ "blockdoc-attribution" +:+ q +:+ ">" +:+
        attribution +:+ "</cite>")
  else Ok html.

(** [extractYouTubeId(url)]; [None] is [null]. *)
Definition extractYouTubeId (url : value) : option string :=
  match URL_parse url with
  | Some parsedUrl =>
      if bool_decide (hostname parsedUrl = "youtu.be") then
        Some (match pathname parsedUrl with
              | String _ rest => rest
              | EmptyString => ""
              end)
      else if bool_decide (hostname parsedUrl = "www.youtube.com")
              || bool_decide (hostname parsedUrl = "youtube.com") then
        searchParams_get (search parsedUrl) "v"
      else None
  | None => None
  end.

Definition renderEmbedBlock (block : value) : result string :=
  url <-r member block "url";;
  caption <-r member block "caption";;
  embedType <-r member block "embedType";;
  embedHtml <-r
    (if strict_eq embedType (VStr "youtube") then
       match extractYouTubeId url with
       | Some (String c r) =>
           let videoId := String c r in
           Ok (nl +:+
               "        <div class=" +:+ q +:+ "blockdoc-embed-container" +:+
               q +:+ ">" +:+ nl +:+
               "          <iframe " +:+ nl +:+
               "            width=" +:+ q +:+ "560" +:+ q +:+ " " +:+ nl +:+
               "            height=" +:+ q +:+ "315" +:+ q +:+ " " +:+ nl +:+
               "            src=" +:+ q +:+ "https://www.youtube.com/embed/" +:+
               videoId +:+ q +:+ " " +:+ nl +:+
               "            frameborder=" +:+ q +:+ "0" +:+ q +:+ " " +:+ nl +:+
               "            allow=" +:+ q +:+
               "accelerometer; autoplay; clipboard-write; encrypted-media; gyroscope; picture-in-picture" +:+
               q +:+ " " +:+ nl +:+
               "            allowfullscreen>" +:+ nl +:+
               "          </iframe>" +:+ nl +:+
               "        </div>" +:+ nl +:+
               "      ")
       | _ => Ok "<p>Invalid YouTube URL</p>"
       end
     else if strict_eq embedType (VStr "twitter") then
       url <-r sanitizeHtml url;;
       Ok (nl +:+
           "      <div class=" +:+ q +:+ "blockdoc-embed blockdoc-twitter" +:+
           q +:+ ">" +:+ nl +:+
           "        <blockquote class=" +:+ q +:+ "twitter-tweet" +:+ q +:+
           ">" +:+ nl +:+
           "          <a href=" +:+ q +:+ url +:+ q +:+ "></a>" +:+
           nl +:+
           "        </blockquote>" +:+ nl +:+
           "        <script async src=" +:+ q +:+
           "https://platform.twitter.com/widgets.js" +:+ q +:+ " charset=" +:+
           q +:+ "utf-8" +:+ q +:+ "></script>" +:+ nl +:+
           "      </div>" +:+ nl +:+
           "    ")
     else
       url <-r sanitizeHtml url;;
       Ok (nl +:+
           "      <div class=" +:+ q +:+ "blockdoc-embed" +:+ q +:+ ">" +:+
           nl +:+
           "        <iframe " +:+ nl +:+
           "          src=" +:+ q +:+ url +:+ q +:+ " " +:+ nl +:+
           "          frameborder=" +:+ q +:+ "0" +:+ q +:+ " " +:+ nl +:+
           "          width=" +:+ q +:+ "100%" +:+ q +:+ " " +:+ nl +:+
           "          height=" +:+ q +:+ "400" +:+ q +:+ nl +:+
           "          allowfullscreen>" +:+ nl +:+
           "        </iframe>" +:+ nl +:+
           "      </div>" +:+ nl +:+
           "    "));;
  if truthy caption then
    caption <-r sanitizeHtml caption;;
    let embedHtml :=
      embedHtml +:+
      "<figcaption class=" +:+ q +:+ "blockdoc-caption" +:+ q +:+ ">" +:+
      caption +:+ "</figcaption>" in
    Ok ("<figure class=" +:+ q +:+ "blockdoc-figure" +:+ q +:+ ">" +:+
        embedHtml +:+ "</figure>")
  else Ok embedHtml.

Definition renderDividerBlock : string :=
  "<hr class=" +:+ q +:+ "blockdoc-divider" +:+ q +:+ " />".

(** The wrapper holds the type and the id, converted to strings before the
    block is rendered. *)
Definition renderBlock (block : value) : result string :=
  id <-r member block "id";;
  type <-r member block "type";;
  typeText <-r to_string type;;
  idText <-r to_string id;;
  let openWrapper :=
    "<div class=" +:+ q +:+ "blockdoc-block blockdoc-" +:+
    typeText +:+ q +:+ " data-block-id=" +:+ q +:+ idText +:+
    q +:+ " data-block-type=" +:+ q +:+ typeText +:+ q +:+ ">" in
  let closeWrapper := "</div>" in
  content <-r switch type
                [("text", renderTextBlock block);
                 ("heading", renderHeadingBlock block);
                 ("image", renderImageBlock block);
                 ("code", renderCodeBlock block);
                 ("list", renderListBlock block);
                 ("quote", renderQuoteBlock block);
                 ("embed", renderEmbedBlock block);
                 ("divider", Ok renderDividerBlock)]
                (Ok ("<p>Unknown block type: " +:+ typeText +:+ "</p>"));;
  Ok (openWrapper +:+ content +:+ closeWrapper).

Definition renderToHTML (article : value) : result string :=
  if negb (truthy article) then Err InvalidArticleStructureError else
  blocks <-r member article "blocks";;
  if negb (truthy blocks) || negb (isArray blocks)
  then Err InvalidArticleStructureError else
  title <-r member article "title";;
  title <-r sanitizeHtml title;;
  body <-r map_result renderBlock (array_elements blocks);;
  Ok (join nl
        (["<article class=" +:+ q +:+ "blockdoc-article" +:+ q +:+ ">";
          "<h1 class=" +:+ q +:+ "blockdoc-title" +:+ q +:+ ">" +:+
          title +:+ "</h1>"]
         ++ body ++ ["</article>"])).

End WithCollaborators.

End Html.

(** The rendering methods of the document class delegate to the renderers
    with [this.article]. *)
Definition Document_renderToHTML `{Collaborators}
    (d : Document.BlockDocDocument) : result string :=
  Html.renderToHTML (Document.article_value (Document.article d)).

Definition Document_renderToMarkdown `{Collaborators}
    (d : Document.BlockDocDocument) : result string :=
  Markdown.renderToMarkdown (Document.article_value (Document.article d)).

(** * Error messages

    The message with which each kind of error is constructed in the
    sources, for an error that holds a value which converts to a string
    (an error of the sources is thrown only after its message has been
    built); the errors of the host and of the collaborators carry
    messages of their own, which are not modelled. *)

Definition text_of (v : value) : option string :=
  match to_string v with
  | Ok s => Some s
  | Err _ => None
  end.

Definition message (e : error) : option string :=
  match e with
  | MissingIdError => Some "Block ID is required"
  | InvalidTypeError ty =>
      (fun ty => "Invalid block type: " +:+ ty +:+
                 ". Allowed types are: " +:+ join ", " Block.ALLOWED_TYPES)
      <$> text_of ty
  | MissingRequiredFieldError ty prop =>
      (fun ty => "Block of type " +:+ q +:+ ty +:+ q +:+
                 " requires property " +:+ q +:+ prop +:+ q)
      <$> text_of ty
  | DuplicateIdError id =>
      (fun id => "Block with ID " +:+ q +:+ id +:+ q +:+ " already exists")
      <$> text_of id
  | BlockNotFoundError id =>
      (fun id => "Block with ID " +:+ q +:+ id +:+ q +:+ " not found")
      <$> text_of id
  | InvalidPositionError p =>
      Some ("Invalid position: " +:+ number_to_string p)
  | InvalidArticleStructureError => Some "Invalid article structure"
  | MissingArticleError =>
      Some "Invalid BlockDoc document: missing article property"
  | TypeError | ExternalError => None
  end.

(** * Notions used in the statements *)

(** [s] begins with [p]. *)
Definition begins_with (p s : string) : Prop := exists r, s = p +:+ r.

(** The capital form of a small letter of the basic Latin alphabet; any
    other character is its own capital form. *)
Definition capital (c : ascii) : ascii :=
  let n := nat_of_char c in
  if (97 <=? n)%nat && (n <=? 122)%nat then Ascii.ascii_of_nat (n - 32) else c.

(** [s] is [p] with some of its letters written as capitals ([p] in small
    letters). *)
Fixpoint same_letters (p s : string) : Prop :=
  match p, s with
  | EmptyString, EmptyString => True
  | String c p', String a s' => (a = c \/ a = capital c) /\ same_letters p' s'
  | _, _ => False
  end.

(** [s] begins with [p] up to the case of letters ([p] in small letters). *)
Definition begins_with_ci (p s : string) : Prop :=
  exists p' r, s = p' +:+ r /\ same_letters p p'.

(** The character [c] occurs in [s]. *)
Definition contains_char (c : ascii) (s : string) : Prop :=
  exists a b, s = a +:+ String c b.

(** No character of [s] is one of the five that [sanitizeHtml] escapes. *)
Definition plain_text (s : string) : Prop :=
  forall c, contains_char c s -> c ∉ Sanitize.special_chars.

(** The same, as a test. *)
Fixpoint all_plain (s : string) : bool :=
  match s with
  | EmptyString => true
  | String c r => negb (Sanitize.is_special c) && all_plain r
  end.

(** [ty] is one of the eight kinds of block. *)
Definition allowed_type (ty : value) : Prop :=
  exists t, ty = VStr t /\ t ∈ Block.ALLOWED_TYPES.

(** [prop] is the first of the fields [props] that is undefined in [data]. *)
Definition first_undefined (data : obj) (props : list string) (prop : string)
  : Prop :=
  exists before after,
    props = before ++ prop :: after /\
    get data prop = VUndefined /\
    forall p, p ∈ before -> get data p <> VUndefined.

(** Every field of [props] is defined in [data]. *)
Definition all_defined (data : obj) (props : list string) : Prop :=
  forall p, p ∈ props -> get data p <> VUndefined.

(** Concrete block data used in the examples. *)
Definition text_data (id content : string) : obj :=
  {[ "id" := VStr id; "type" := VStr "text"; "content" := VStr content ]}.

Definition code_data_empty_language : obj :=
  {[ "id" := VStr "c"; "type" := VStr "code"; "language" := VStr "" ]}.

Definition data_without_id : obj := {[ "type" := VStr "bogus" ]}.

Definition image_data_without_fields : obj :=
  {[ "id" := VStr "i"; "type" := VStr "image" ]}.

(** An object that does not convert to a string: its property [toString]
    is not a function. *)
Definition unprintable : value := VObj {[ "toString" := VStr "x" ]}.

Definition data_type_object : obj := {[ "id" := VStr "x"; "type" := unprintable ]}.

(** The property [k] of the plain object that a block constructed from the
    data [m] projects to: the three basic fields, the required fields of
    the type, and every other field of the data whose name is not already
    taken by an inherited property. *)
Definition constructed (m : obj) (k : string) : option value :=
  if decide (k = "id") then Some (get m "id")
  else if decide (k = "type") then Some (get m "type")
  else if decide (k = "content") then
    Some (if truthy (get m "content") then get m "content" else VStr "")
  else if decide (k ∈ Block.requiredProps (get m "type")) then Some (get m k)
  else match m !! k with
       | Some v => if decide (k ∈ Block.inherited_names) then None else Some v
       | None => None
       end.

(** No two stored blocks have the same id. *)
Fixpoint ids_distinct (bs : list obj) : Prop :=
  match bs with
  | [] => True
  | b :: rest =>
      Forall (fun b' => strict_eq (get b "id") (get b' "id") = false) rest /\
      ids_distinct rest
  end.

(** Some stored block has the id [id]. *)
Definition id_found (id : value) (d : Document.BlockDocDocument) : Prop :=
  exists b, b ∈ Document.blocks (Document.article d) /\
            strict_eq (get b "id") id = true.

(** Numerals and documents used in the examples. *)
Definition five : number := Finite false [D5] 1.

Definition doc_a : Document.BlockDocDocument :=
  Document.mkDocument
    (Document.mkArticle (VStr "T") (VObj ∅) [text_data "a" "one"]).

Definition doc_ab : Document.BlockDocDocument :=
  Document.mkDocument
    (Document.mkArticle (VStr "T") (VObj ∅)
       [text_data "a" "one"; text_data "b" "two"]).

Definition options_ab : obj :=
  {[ "title" := VStr "T";
     "blocks" := VArr [VObj (text_data "a" "one"); VObj (text_data "b" "two")] ]}.

Definition options_bad_blocks : obj :=
  {[ "title" := VStr "T"; "blocks" := VStr "not-an-array" ]}.

(** A position is out of bounds for an array of [len] elements when it is
    negative or at least [len], as [<] and [>=] compare a number with an
    integer. *)
Definition out_of_bounds (p : number) (len : nat) : Prop :=
  number_negative p = true \/ number_ge_nat p len = true.

(** The numeral of a non-zero number (no leading and no trailing zero). *)
Definition well_formed (x : number) : Prop :=
  match x with
  | Finite _ ds _ => ds <> [] /\ head ds <> Some D0 /\ last ds <> Some D0
  | _ => True
  end.

(** The value of a number that is an integer. *)
Definition integer_value (x : number) : option Z :=
  match x with
  | Zero _ => Some 0
  | Finite neg ds n =>
      if Z.of_nat (length ds) <=? n
      then Some ((if neg then -1 else 1)
                 * (digits_val ds * 10 ^ (n - Z.of_nat (length ds))))
      else None
  | _ => None
  end.

Definition options_a : obj :=
  {[ "title" := VStr "T"; "blocks" := VArr [VObj (text_data "a" "one")] ]}.

Definition change_id_to_b : obj := {[ "id" := VStr "b" ]}.

(** Truncation of a number toward zero ([0] for NaN and the infinities). *)
Definition truncate (x : number) : Z :=
  match x with
  | Finite neg ds n => (if neg then -1 else 1) * finite_trunc ds n
  | _ => 0
  end.


(** [min(max(z or 2, 1), 6)] *)
Definition clamp_level (z : Z) : Z :=
  Z.min (Z.max (if z =? 0 then 2 else z) 1) 6.





Inductive sign := NoSign | PlusSign | MinusSign.









(** The article argument is absent. *)
Definition absent (v : value) : Prop := v = VUndefined \/ v = VNull.

(** [article.blocks] is the sequence [l]. *)
Definition blocks_sequence (article : value) (l : list value) : Prop :=
  member article "blocks" = Ok (VArr l).

(** The type of the block is none of the eight kinds. *)
Definition unknown_type (block : obj) : Prop :=
  ~ allowed_type (get block "type").

(** The placeholders for a type that prints as [T]. *)
Definition md_placeholder (T : string) : string :=
  "[Unknown block type: " +:+ T +:+ "]".

Definition html_placeholder (T : string) : string :=
  "<p>Unknown block type: " +:+ T +:+ "</p>".

(** The value [v] converts to the string [s]. *)
Definition prints_as (v : value) (s : string) : Prop := to_string v = Ok s.

(** The value [v] converts to a string. *)
Definition printable (v : value) : Prop := exists s, to_string v = Ok s.

(** A stand-in for the collaborators: a converter that wraps a string in a
    paragraph and throws on anything else, a highlighter that knows no
    language, and a host that parses no URL. *)
Definition simple_collaborators : Collaborators := {|
  marked_parse v :=
    match v with
    | VStr s => Some ("<p>" +:+ s +:+ "</p>")
    | _ => None
    end;
  hljs_getLanguage _ := Some false;
  hljs_highlight content _ := text_of content;
  hljs_highlightAuto content := text_of content;
  date_toDateString _ := "Invalid Date";
  URL_parse _ := None;
  searchParams_get _ _ := None
|}.

Definition unknown_block : obj := {[ "id" := VStr "u"; "type" := VStr "bogus" ]}.

Definition quote_without_content : obj :=
  {[ "id" := VStr "q"; "type" := VStr "quote" ]}.

Definition article_unknown_and_text : value :=
  VObj {[ "title" := VStr "T";
          "blocks" := VArr [VObj unknown_block; VObj (text_data "a" "hi")] ]}.

Definition article_unknown_and_quote : value :=
  VObj {[ "title" := VStr "T";
          "blocks" := VArr [VObj unknown_block; VObj quote_without_content] ]}.

(** The fields of the metadata that the Markdown renderer prints convert
    to strings. *)
Definition metadata_printable (metadata : value) : Prop :=
  forall k v, k ∈ ["author"; "publishedDate"; "tags"] ->
              member metadata k = Ok v -> printable v.

(** The block renders to Markdown on its own, to a line that is joined to
    the output as the string [s]. *)
Definition md_renders (b : value) (s : string) : Prop :=
  exists line, Markdown.renderBlockToMarkdown b = Ok line /\
               element_string line = Ok s.

Definition unknown_unprintable_block : obj :=
  {[ "id" := VStr "u"; "type" := unprintable ]}.

Definition article_unknown_unprintable : value :=
  VObj {[ "title" := VStr "T";
          "blocks" := VArr [VObj unknown_unprintable_block] ]}.

Definition text_without_content : obj :=
  {[ "id" := VStr "t"; "type" := VStr "text" ]}.

Definition article_text_without_content : value :=
  VObj {[ "title" := VStr "T";
          "blocks" := VArr [VObj text_without_content] ]}.

(** The errors that the rendering of a block to HTML can raise: the
    host's TypeError and the error of a collaborator. *)
Definition html_error (e : error) : Prop := e = TypeError \/ e = ExternalError.

(** The documents that the class can hold: those that the constructor
    builds and the five mutating methods lead to, whether a method returns
    or raises. *)
Inductive reachable : Document.BlockDocDocument -> Prop :=
| reach_new options d :
    Document.new options = Ok d -> reachable d
| reach_addBlock d blockData r d' :
    reachable d -> Document.addBlock blockData d = (r, d') -> reachable d'
| reach_insertBlock d blockData position r d' :
    reachable d -> Document.insertBlock blockData position d = (r, d') ->
    reachable d'
| reach_updateBlock d id updates r d' :
    reachable d -> Document.updateBlock id updates d = (r, d') -> reachable d'
| reach_removeBlock d id r d' :
    reachable d -> Document.removeBlock id d = (r, d') -> reachable d'
| reach_moveBlock d id p r d' :
    reachable d -> Document.moveBlock id p d = (r, d') -> reachable d'.

(** The stored block [b] is the plain projection of a constructed block. *)
Definition block_projection (b : obj) : Prop :=
  exists data block, Block.new data = Ok block /\ Block.toJSON block = b.

(** Every value of the document survives JSON: no [undefined], NaN or
    infinity occurs in its title, metadata and blocks. *)
Definition json_representable (d : Document.BlockDocDocument) : Prop :=
  JSON.json_value (Document.toJSON d) = Document.toJSON d.

Definition options_nan : obj :=
  {[ "title" := VStr "T"; "metadata" := VObj {[ "score" := VNum NaN ]} ]}.

Definition doc_nan : Document.BlockDocDocument :=
  Document.mkDocument
    (Document.mkArticle (VStr "T") (VObj {[ "score" := VNum NaN ]}) []).

Definition doc_null : Document.BlockDocDocument :=
  Document.mkDocument
    (Document.mkArticle (VStr "T") (VObj {[ "score" := VNull ]}) []).

Definition doc_bb : Document.BlockDocDocument :=
  Document.mkDocument
    (Document.mkArticle (VStr "T") (VObj ∅)
       [text_data "b" "one"; text_data "b" "two"]).

(** ** Notions used in the further properties *)

(** The characters with which markup and attribute values begin and end. *)
Definition markup_chars : list ascii := ["<"%char; ">"%char; dquote; squote].

(** A heading whose data carry a field of their own and one named like a
    method of every object. *)
Definition heading_data_with_fields : obj :=
  {[ "id" := VStr "h"; "type" := VStr "heading"; "level" := VNum five;
     "anchor" := VStr "top"; "toString" := VStr "shadow" ]}.

(** Updates that name the id, the type and two other fields. *)
Definition updates_with_id : obj :=
  {[ "id" := VStr "z"; "type" := VStr "code"; "content" := VStr "new";
     "note" := VStr "n" ]}.

Definition instance_a : Block.instance := Block.Instance (text_data "a" "one").

(** [b] is the first of the blocks [bs] with the id [id], at index [i]. *)
Definition first_with_id (id : value) (bs : list obj) (i : nat) (b : obj)
  : Prop :=
  bs !! i = Some b /\ strict_eq (get b "id") id = true /\
  forall j b', (j < i)%nat -> bs !! j = Some b' ->
               strict_eq (get b' "id") id = false.

(** The document [d] with the blocks [bs]. *)
Definition with_blocks (d : Document.BlockDocDocument) (bs : list obj)
  : Document.BlockDocDocument :=
  Document.mkDocument
    (Document.mkArticle (Document.title (Document.article d))
       (Document.metadata (Document.article d)) bs).

(** The index at which [splice] inserts for an integer position [z] and an
    array of [len] elements: a negative position counts from the end, and
    the result is clamped to the bounds of the array. *)
Definition insertion_index (len : nat) (z : Z) : nat :=
  Z.to_nat (if z <? 0 then Z.max (Z.of_nat len + z) 0
            else Z.min z (Z.of_nat len)).

(** The documents that the constructor builds and that [addBlock],
    [insertBlock], [removeBlock] and [moveBlock] lead to, whether a method
    returns or raises. *)
Inductive built : Document.BlockDocDocument -> Prop :=
| built_new options d :
    Document.new options = Ok d -> built d
| built_addBlock d blockData r d' :
    built d -> Document.addBlock blockData d = (r, d') -> built d'
| built_insertBlock d blockData position r d' :
    built d -> Document.insertBlock blockData position d = (r, d') ->
    built d'
| built_removeBlock d id r d' :
    built d -> Document.removeBlock id d = (r, d') -> built d'
| built_moveBlock d id p r d' :
    built d -> Document.moveBlock id p d = (r, d') -> built d'.

(** The errors that the construction of a document from data can raise:
    those of the block constructor, the duplicate id, and the host's
    TypeError, on data that are [null] or [undefined] and on a type that
    does not convert to a string for the message of the error. *)
Definition construction_error (e : error) : Prop :=
  match e with
  | TypeError | MissingIdError | InvalidTypeError _
  | MissingRequiredFieldError _ _ | DuplicateIdError _ => True
  | _ => False
  end.

Definition minus_one : number := Finite true [D1] 1.

Definition doc_abc : Document.BlockDocDocument :=
  Document.mkDocument
    (Document.mkArticle (VStr "T") (VObj ∅)
       [text_data "a" "one"; text_data "b" "two"; text_data "c" "three"]).

Definition doc_acb : Document.BlockDocDocument :=
  Document.mkDocument
    (Document.mkArticle (VStr "T") (VObj ∅)
       [text_data "a" "one"; text_data "c" "three"; text_data "b" "two"]).

(** [b] is the plain object of the block constructed from [data]. *)
Definition stored_as (data : value) (b : obj) : Prop :=
  exists block, Block.new data = Ok block /\ Block.toJSON block = b.

(** Every id of the blocks [bs] is identical to itself: a string, a
    number or a boolean, not an array or an object. *)
Definition primitive_ids (bs : list obj) : Prop :=
  Forall (fun b => strict_eq (get b "id") (get b "id") = true) bs.

Definition updates_content : obj := {[ "content" := VStr "changed" ]}.

(** The content of the block is not a string. *)
Definition content_not_string (block : obj) : Prop :=
  ~ exists c, get block "content" = VStr c.

(** The host names under which [extractYouTubeId] finds a video id. *)
Definition youtube_hosts : list string :=
  ["youtu.be"; "www.youtube.com"; "youtube.com"].

(** Collaborators whose highlighter throws on every call. *)
Definition failing_highlighter : Collaborators := {|
  marked_parse v := text_of v;
  hljs_getLanguage _ := Some true;
  hljs_highlight _ _ := None;
  hljs_highlightAuto _ := None;
  date_toDateString _ := "Invalid Date";
  URL_parse _ := None;
  searchParams_get _ _ := None
|}.

Definition code_data_markup : obj :=
  {[ "id" := VStr "c"; "type" := VStr "code"; "language" := VStr "html";
     "content" := VStr "<b>" ]}.

Definition quote_data (content : value) : obj :=
  {[ "id" := VStr "q"; "type" := VStr "quote"; "content" := content ]}.

Definition list_data (items listType : value) : obj :=
  {[ "id" := VStr "l"; "type" := VStr "list"; "items" := items;
     "listType" := listType ]}.

Definition embed_data_youtube : obj :=
  {[ "id" := VStr "e"; "type" := VStr "embed"; "embedType" := VStr "youtube";
     "url" := VStr "not a url" ]}.

Definition doc_quote_number : Document.BlockDocDocument :=
  Document.mkDocument
    (Document.mkArticle (VStr "T") (VObj ∅) [quote_data (VNum five)]).

Definition one : number := Finite false [D1] 1.
Definition two : number := Finite false [D2] 1.
(** The values that the Markdown renderer of a block converts to
    strings: those of the fields that its type prints, the items of a
    list, and the type itself when it is none of the eight kinds. *)
Definition md_converted (block : obj) : list value :=
  match get block "type" with
  | VStr t =>
      if bool_decide (t = "text") || bool_decide (t = "divider") then []
      else if bool_decide (t = "heading")
      then [get block "level"; get block "content"]
      else if bool_decide (t = "image")
      then [get block "alt"; get block "url"; get block "caption"]
      else if bool_decide (t = "code")
      then [get block "language"; get block "content"]
      else if bool_decide (t = "list")
      then array_elements (get block "items")
      else if bool_decide (t = "quote") then [get block "attribution"]
      else if bool_decide (t = "embed")
      then [get block "embedType"; get block "url"; get block "caption"]
      else [VStr t]
  | ty => [ty]
  end.

(** The class of the code element for a language: empty for a falsy
    language, and the string form of the language after "language-"
    otherwise. *)
Definition language_class (language : value) (cls : string) : Prop :=
  if truthy language
  then exists L, prints_as language L /\ cls = "language-" +:+ L
  else cls = "".

Definition quote_data_attributed : obj :=
  {[ "id" := VStr "q"; "type" := VStr "quote";
     "content" := VStr ("one" +:+ nl +:+ "two");
     "attribution" := VStr "Ann" ]}.

Definition list_data_ab : obj :=
  {[ "id" := VStr "l"; "type" := VStr "list";
     "items" := VArr [VStr "a"; VStr "b"]; "listType" := VStr "ordered" ]}.

(** The fields of a block that the HTML renderer converts to strings. *)
Definition html_fields : list string :=
  ["type"; "id"; "level"; "content"; "url"; "alt"; "caption"; "language";
   "listType"; "attribution"].
(** * Properties of the values *)

(** Induction on a value, with the elements of an array. *)
Lemma value_array_ind (P : value -> Prop) :
  P VUndefined -> P VNull -> (forall b, P (VBool b)) ->
  (forall x, P (VNum x)) -> (forall s, P (VStr s)) ->
  (forall l, Forall P l -> P (VArr l)) -> (forall m, P (VObj m)) ->
  forall v, P v.
Proof.
  intros Hu Hn Hb Hx Hs Ha Ho.
  refine (fix IH (v : value) : P v :=
            match v with
            | VUndefined => Hu
            | VNull => Hn
            | VBool b => Hb b
            | VNum x => Hx x
            | VStr s => Hs s
            | VArr l =>
                Ha l ((fix elements (l : list value) : Forall P l :=
                         match l with
                         | [] => @List.Forall_nil _ P
                         | e :: r =>
                             @List.Forall_cons _ P e r (IH e) (elements r)
                         end) l)
            | VObj m => Ho m
            end).
Qed.

Lemma rbind_error {A B} (r : result A) (f : A -> result B) e (P : error -> Prop) :
  (forall e, r = Err e -> P e) -> (forall a e, f a = Err e -> P e) ->
  rbind r f = Err e -> P e.
Proof. destruct r as [a | e']; simpl; eauto. intros ? _ [= <-]. auto. Qed.

Lemma rbind_Ok {A B} (r : result A) (f : A -> result B) b :
  rbind r f = Ok b <-> exists a, r = Ok a /\ f a = Ok b.
Proof.
  destruct r as [a | e]; cbn [rbind].
  - split; [by exists a | by intros (? & [= <-] & ?)].
  - split; [done | by intros (? & ? & _)].
Qed.

Lemma map_result_outs {A B} (f : A -> result B) l outs :
  Forall2 (fun b s => f b = Ok s) l outs -> map_result f l = Ok outs.
Proof.
  induction 1 as [| b s l outs Hb _ IH]; [done |].
  cbn [map_result]. rewrite Hb, IH. done.
Qed.

Lemma map_result_Ok {A B} (f : A -> result B) l outs :
  map_result f l = Ok outs -> Forall2 (fun b s => f b = Ok s) l outs.
Proof.
  revert outs. induction l as [|x l IH]; intros outs; cbn [map_result].
  - intros [= <-]. constructor.
  - destruct (f x) as [y |] eqn:Hx; cbn [rbind]; [| done].
    destruct (map_result f l) as [ys |]; cbn [rbind]; [| done].
    intros [= <-]. constructor; [done | by apply IH].
Qed.

Lemma map_result_error {A B} (f : A -> result B) l e (P : error -> Prop) :
  (forall x e, f x = Err e -> P e) -> map_result f l = Err e -> P e.
Proof.
  intros Hf. induction l as [|x l IH]; [done |]. cbn [map_result].
  destruct (f x) as [y | e'] eqn:Hx; cbn [rbind].
  - destruct (map_result f l); cbn [rbind]; [done |].
    intros [= <-]. by apply IH.
  - intros [= <-]. by apply Hf in Hx.
Qed.

Lemma map_result_Err {A B} (f : A -> result B) l e :
  map_result f l = Err e -> exists x, x ∈ l /\ f x = Err e.
Proof.
  induction l as [|x l IH]; [done |]. cbn [map_result].
  destruct (f x) as [y | e'] eqn:Hx; cbn [rbind].
  - destruct (map_result f l); cbn [rbind]; [done |].
    intros [= <-]. destruct IH as (x' & Hin & Hx'); [done |].
    exists x'. split; [by right | done].
  - intros [= <-]. exists x. split; [by left | done].
Qed.

Lemma map_result_fails {A B} (f : A -> result B) l x e :
  x ∈ l -> f x = Err e -> exists e', map_result f l = Err e'.
Proof.
  induction l as [|y l IH]; [by intros ?%elem_of_nil |].
  intros Hin Hx. cbn [map_result].
  destruct (f y) as [z | e'] eqn:Hy; cbn [rbind]; [| by eexists].
  apply elem_of_cons in Hin as [-> | Hin]; [congruence |].
  destruct (IH Hin Hx) as [e' ->]. by eexists.
Qed.

Lemma map_result_total {A B} (f : A -> result B) l :
  (forall x, x ∈ l -> exists y, f x = Ok y) ->
  exists outs, map_result f l = Ok outs.
Proof.
  intros Hall.
  destruct (map_result f l) as [outs | e] eqn:Hm; [by eexists |].
  apply map_result_Err in Hm as (x & Hin & Hx).
  destruct (Hall x Hin) as [y Hy]. congruence.
Qed.

(** ** Conversion to a string *)

Lemma to_string_array l : to_string (VArr l) = array_join "," l.
Proof. done. Qed.

Lemma element_string_error e0 e :
  (forall e, to_string e0 = Err e -> e = TypeError) ->
  element_string e0 = Err e -> e = TypeError.
Proof. intros H. destruct e0; cbn [element_string]; try done; apply H. Qed.

(** The only error of a conversion is the TypeError. *)
Lemma to_string_error v e : to_string v = Err e -> e = TypeError.
Proof.
  revert e. induction v as [| | b | x | s | l IH | m] using value_array_ind;
    intros e; try done.
  - by destruct b.
  - rewrite to_string_array. unfold array_join.
    apply (rbind_error _ _ _ (fun e => e = TypeError)); [| done]. intros e'.
    intros (x & Hin & Hx)%map_result_Err.
    rewrite Forall_forall in IH.
    eapply element_string_error; [| exact Hx]. by apply IH.
  - cbn [to_string]. by destruct (decide _); [intros [= <-] |].
Qed.

Lemma array_join_error sep l e : array_join sep l = Err e -> e = TypeError.
Proof.
  unfold array_join. apply (rbind_error _ _ _ (fun e => e = TypeError)); [| done]. intros e'.
  intros (x & Hin & Hx)%map_result_Err.
  eapply element_string_error; [| exact Hx]. apply to_string_error.
Qed.

Lemma printable_dec v : printable v \/ to_string v = Err TypeError.
Proof.
  unfold printable. destruct (to_string v) as [s | e] eqn:Hv; [left; by eexists |].
  right. by rewrite (to_string_error _ _ Hv).
Qed.

Lemma not_printable v : ~ printable v <-> to_string v = Err TypeError.
Proof.
  split.
  - intros Hn. by destruct (printable_dec v).
  - intros Hv [s Hs]. congruence.
Qed.

(** A value that is identical to another one is a primitive value, and
    converts to a string. *)
Lemma strict_eq_printable v w : strict_eq v w = true -> printable w.
Proof.
  unfold printable.
  destruct v, w; try done; cbn [to_string]; try by eexists.
  destruct b0; by eexists.
Qed.

Lemma sanitizeHtml_error v e : Sanitize.sanitizeHtml v = Err e -> e = TypeError.
Proof.
  unfold Sanitize.sanitizeHtml. destruct (negb (truthy v)); [done |].
  apply (rbind_error _ _ _ (fun e => e = TypeError)); [| done]. apply to_string_error.
Qed.

Lemma sanitizeHtml_printable v :
  printable v -> exists s, Sanitize.sanitizeHtml v = Ok s.
Proof.
  intros [s Hs]. unfold Sanitize.sanitizeHtml.
  destruct (negb (truthy v)); [by eexists |]. rewrite Hs. by eexists.
Qed.

(** * Properties of the string functions *)

Lemma startsWith_begins p s : startsWith p s = true <-> begins_with p s.
Proof.
  revert s. induction p as [|a p IH]; intros s; simpl.
  - split; [intros _; by exists s | done].
  - destruct s as [|b s].
    + split; [done | intros [r Hr]; discriminate].
    + rewrite andb_true_iff, bool_decide_eq_true, IH. split.
      * intros [-> [r ->]]. by exists r.
      * intros [r Hr]. simpl in Hr. injection Hr as -> ->. split; [done | by exists r].
Qed.

Lemma includes_char_contains c s :
  includes_char c s = true <-> contains_char c s.
Proof.
  induction s as [|a s IH]; simpl.
  - split; [done | intros (x & y & Hxy); by destruct x].
  - rewrite orb_true_iff, bool_decide_eq_true, IH. split.
    + intros [-> | (x & y & ->)].
      * by exists "", s.
      * by exists (String a x), y.
    + intros (x & y & Hxy). destruct x as [|a' x]; simpl in Hxy.
      * injection Hxy as -> ->. by left.
      * injection Hxy as -> ->. right. by exists x, y.
Qed.

Lemma pattern_char_matches c a :
  c ∈ ["h"; "t"; "p"; "s"; ":"; "/"]%char ->
  to_lower c = to_lower a <-> a = c \/ a = capital c.
Proof.
  rewrite !elem_of_cons, elem_of_nil.
  intros [-> | [-> | [-> | [-> | [-> | [-> | []]]]]]];
    destruct a as [[] [] [] [] [] [] [] []]; vm_compute;
    (split;
     [intros H; first [left; reflexivity | right; reflexivity | discriminate H]
     | intros [H | H]; first [reflexivity | discriminate H]]).
Qed.

Lemma same_letters_cons c p s :
  same_letters (String c p) s <->
  exists a s', s = String a s' /\ (a = c \/ a = capital c) /\ same_letters p s'.
Proof.
  destruct s as [|a s']; cbn [same_letters].
  - split; [done | by intros (? & ? & ? & _)].
  - split; [intros [? ?]; by exists a, s' |].
    by intros (? & ? & [= <- <-] & ? & ?).
Qed.

Lemma same_letters_nil s : same_letters "" s <-> s = "".
Proof. by destruct s. Qed.

Lemma re_test_pattern c re s :
  c ∈ ["h"; "t"; "p"; "s"; ":"; "/"]%char ->
  Sanitize.re_test true (Sanitize.Chr c :: re) s = true <->
  exists a s', s = String a s' /\ (a = c \/ a = capital c) /\
               Sanitize.re_test true re s' = true.
Proof.
  intros Hc. simpl. destruct s as [|a s'].
  - split; [done | by intros (? & ? & ? & _)].
  - unfold Sanitize.char_matches.
    rewrite andb_true_iff, bool_decide_eq_true, (pattern_char_matches c a Hc).
    split.
    + intros [? ?]. by exists a, s'.
    + intros (? & ? & [= <- <-] & ? & ?). done.
Qed.

Lemma re_test_opt c re s :
  Sanitize.re_test true (Sanitize.OptChr c :: re) s = true <->
  Sanitize.re_test true (Sanitize.Chr c :: re) s = true \/
  Sanitize.re_test true re s = true.
Proof. simpl. by rewrite orb_true_iff. Qed.

Lemma re_test_nil s : Sanitize.re_test true [] s = true.
Proof. done. Qed.

Ltac pattern_char :=
  repeat first [apply list_elem_of_here | apply list_elem_of_further].

Lemma http_scheme_re_begins s :
  Sanitize.re_test true Sanitize.http_scheme_re s = true <->
  begins_with_ci "http://" s \/ begins_with_ci "https://" s.
Proof.
  unfold Sanitize.http_scheme_re, begins_with_ci. split.
  - intros H.
    apply re_test_pattern in H as (c0 & s0 & -> & H0 & H); [| pattern_char].
    apply re_test_pattern in H as (c1 & s1 & -> & H1 & H); [| pattern_char].
    apply re_test_pattern in H as (c2 & s2 & -> & H2 & H); [| pattern_char].
    apply re_test_pattern in H as (c3 & s3 & -> & H3 & H); [| pattern_char].
    apply re_test_opt in H as [H | H].
    + apply re_test_pattern in H as (c4 & s4 & -> & H4 & H); [| pattern_char].
      apply re_test_pattern in H as (c5 & s5 & -> & H5 & H); [| pattern_char].
      apply re_test_pattern in H as (c6 & s6 & -> & H6 & H); [| pattern_char].
      apply re_test_pattern in H as (c7 & s7 & -> & H7 & H); [| pattern_char].
      right. exists (String c0 (String c1 (String c2 (String c3
               (String c4 (String c5 (String c6 (String c7 "")))))))), s7.
      split; [done |]. cbn [same_letters]. tauto.
    + apply re_test_pattern in H as (c4 & s4 & -> & H4 & H); [| pattern_char].
      apply re_test_pattern in H as (c5 & s5 & -> & H5 & H); [| pattern_char].
      apply re_test_pattern in H as (c6 & s6 & -> & H6 & H); [| pattern_char].
      left. exists (String c0 (String c1 (String c2 (String c3
               (String c4 (String c5 (String c6 ""))))))), s6.
      split; [done |]. cbn [same_letters]. tauto.
  - intros [(p & r & -> & Hp) | (p & r & -> & Hp)];
      repeat (apply same_letters_cons in Hp as (? & ? & -> & ? & Hp));
      apply same_letters_nil in Hp as ->; simpl String.append.
    + do 4 (apply re_test_pattern; [pattern_char |];
            eexists _, _; split; [done |]; split; [done |]).
      apply re_test_opt. right.
      do 3 (apply re_test_pattern; [pattern_char |];
            eexists _, _; split; [done |]; split; [done |]).
      done.
    + do 4 (apply re_test_pattern; [pattern_char |];
            eexists _, _; split; [done |]; split; [done |]).
      apply re_test_opt. left.
      do 4 (apply re_test_pattern; [pattern_char |];
            eexists _, _; split; [done |]; split; [done |]).
      done.
Qed.

(** * The sanitizer *)

Lemma sanitizeHtml_string s :
  Sanitize.sanitizeHtml (VStr s) = Ok (Sanitize.replace_special s).
Proof.
  unfold Sanitize.sanitizeHtml. simpl. case_bool_decide; by subst.
Qed.

Lemma all_plain_plain_text s : all_plain s = true <-> plain_text s.
Proof.
  unfold plain_text. induction s as [|a s IH]; simpl.
  - split; [| done]. intros _ c (x & y & Hxy). by destruct x.
  - rewrite andb_true_iff, negb_true_iff, IH. unfold Sanitize.is_special.
    rewrite bool_decide_eq_false. split.
    + intros [Ha Hs] c (x & y & Hxy). destruct x as [|a' x]; simpl in Hxy.
      * by injection Hxy as -> ->.
      * injection Hxy as -> ->. apply Hs. by exists x, y.
    + intros Hall. split.
      * apply Hall. by exists "", s.
      * intros c (x & y & ->). apply Hall. by exists (String a x), y.
Qed.

Lemma string_length_app (s t : string) :
  String.length (s +:+ t) = (String.length s + String.length t)%nat.
Proof. induction s as [|a s IH]; simpl; [done | by rewrite IH]. Qed.

Lemma special_entity c :
  Sanitize.is_special c = true ->
  exists e, Sanitize.lookup_entity Sanitize.entity_map c = String "&" e /\
            (3 <= String.length e)%nat.
Proof.
  unfold Sanitize.is_special, Sanitize.special_chars.
  rewrite bool_decide_eq_true, !elem_of_cons, elem_of_nil.
  intros [-> | [-> | [-> | [-> | [-> | []]]]]]; vm_compute;
    (eexists; split; [reflexivity | simpl; lia]).
Qed.

Lemma replace_special_cons a s :
  Sanitize.replace_special (String a s) =
  (if Sanitize.is_special a
   then Sanitize.lookup_entity Sanitize.entity_map a else String a "")
  +:+ Sanitize.replace_special s.
Proof. done. Qed.

Lemma replace_special_length s :
  (String.length s <= String.length (Sanitize.replace_special s))%nat.
Proof.
  induction s as [|a s IH]; [done |].
  rewrite replace_special_cons, string_length_app.
  destruct (Sanitize.is_special a) eqn:Ha.
  - apply special_entity in Ha as (e & -> & He). simpl. lia.
  - simpl. lia.
Qed.

Lemma replace_special_plain s :
  all_plain s = true -> Sanitize.replace_special s = s.
Proof.
  induction s as [|a s IH]; [done |]. rewrite replace_special_cons. simpl.
  rewrite andb_true_iff, negb_true_iff. intros [-> Hs]. simpl. by rewrite IH.
Qed.

Lemma replace_special_longer s :
  all_plain s = false ->
  (String.length s < String.length (Sanitize.replace_special s))%nat.
Proof.
  induction s as [|a s IH]; [done |].
  rewrite replace_special_cons, string_length_app.
  pose proof (replace_special_length s).
  destruct (Sanitize.is_special a) eqn:Ha.
  - intros _. apply special_entity in Ha as (e & -> & He). simpl. lia.
  - simpl. rewrite Ha. simpl. intros Hs. specialize (IH Hs). lia.
Qed.

Lemma all_plain_app s t :
  all_plain (s +:+ t) = all_plain s && all_plain t.
Proof.
  induction s as [|a s IH]; simpl; [done |]. by rewrite IH, andb_assoc.
Qed.

(** Escaping a text that is not plain leaves an ampersand in the output. *)
Lemma replace_special_not_plain s :
  all_plain s = false -> all_plain (Sanitize.replace_special s) = false.
Proof.
  induction s as [|a s IH]; [done |].
  rewrite replace_special_cons, all_plain_app.
  destruct (Sanitize.is_special a) eqn:Ha.
  - intros _. by apply special_entity in Ha as (e & -> & _).
  - simpl. rewrite Ha. simpl. intros Hs. by rewrite IH.
Qed.

Lemma sanitizeUrl_string u :
  u <> "" ->
  Sanitize.sanitizeUrl (VStr u) =
  if Sanitize.re_test true Sanitize.http_scheme_re u then Ok u
  else if startsWith "//" u then Ok ("https:" +:+ u)
  else if negb (includes_char ":" u) then Ok u
  else Ok "".
Proof.
  intros Hu. unfold Sanitize.sanitizeUrl, truthy.
  by rewrite bool_decide_eq_false_2.
Qed.

(** C2, as amended. [sanitizeUrl] returns the empty string for a falsy
    argument; for a non-empty string [u] it returns [u] when [u] begins
    with http:// or https:// in any case of the letters, https: followed
    by [u] when [u] begins with //, [u] when (not beginning with //) it
    contains no colon, and the empty string in every other case; for any
    other argument (a number other than 0 and NaN, true, an array, an
    object) it raises a TypeError. The cases are those of the claim, read
    in the order in which it lists them. *)
Theorem sanitizeUrl_cases (url : value) :
  (truthy url = false -> Sanitize.sanitizeUrl url = Ok "") /\
  (forall u, url = VStr u -> u <> "" ->
     (begins_with_ci "http://" u \/ begins_with_ci "https://" u ->
      Sanitize.sanitizeUrl url = Ok u) /\
     (begins_with "//" u ->
      Sanitize.sanitizeUrl url = Ok ("https:" +:+ u)) /\
     (~ begins_with "//" u -> ~ contains_char ":" u ->
      Sanitize.sanitizeUrl url = Ok u) /\
     (~ (begins_with_ci "http://" u \/ begins_with_ci "https://" u) ->
      ~ begins_with "//" u -> contains_char ":" u ->
      Sanitize.sanitizeUrl url = Ok "")) /\
  (truthy url = true -> (forall u, url <> VStr u) ->
   Sanitize.sanitizeUrl url = Err TypeError).
Proof.
  split; [| split].
  - intros Hf. unfold Sanitize.sanitizeUrl. by rewrite Hf.
  - intros u -> Hu. rewrite (sanitizeUrl_string u Hu).
    repeat split.
    + intros Hh. apply http_scheme_re_begins in Hh. by rewrite Hh.
    + intros Hb.
      assert (Sanitize.re_test true Sanitize.http_scheme_re u = false) as ->
        by (by destruct Hb as [r ->]).
      apply startsWith_begins in Hb. by rewrite Hb.
    + intros Hb Hc.
      destruct (Sanitize.re_test true Sanitize.http_scheme_re u); [done |].
      rewrite <- startsWith_begins in Hb. apply not_true_is_false in Hb.
      rewrite Hb. rewrite <- includes_char_contains in Hc.
      apply not_true_is_false in Hc. by rewrite Hc.
    + intros Hh Hb Hc.
      rewrite <- http_scheme_re_begins in Hh. apply not_true_is_false in Hh.
      rewrite <- startsWith_begins in Hb. apply not_true_is_false in Hb.
      apply includes_char_contains in Hc. by rewrite Hh, Hb, Hc.
  - intros Ht Hn. unfold Sanitize.sanitizeUrl. rewrite Ht. cbn [negb].
    destruct url; try done. by destruct (Hn s).
Qed.

(** C9, as amended. [sanitizeHtml] makes one pass over its argument; its
    output is not scanned again, but a second application escapes the
    ampersand of every entity the first one wrote. Applying it twice gives
    the same as applying it once exactly for the strings that contain none
    of the five escaped characters, and on those it is the identity. *)
Theorem sanitizeHtml_twice_iff_plain (s : string) :
  exists once twice,
    Sanitize.sanitizeHtml (VStr s) = Ok once /\
    Sanitize.sanitizeHtml (VStr once) = Ok twice /\
    (twice = once <-> plain_text s) /\
    (plain_text s -> once = s).
Proof.
  exists (Sanitize.replace_special s),
    (Sanitize.replace_special (Sanitize.replace_special s)).
  rewrite !sanitizeHtml_string, <- all_plain_plain_text.
  split; [done |]. split; [done |]. split; [split |].
  - intros Heq. destruct (all_plain s) eqn:Hs; [done |].
    apply replace_special_not_plain, replace_special_longer in Hs.
    rewrite Heq in Hs. lia.
  - intros Hs. by rewrite !(replace_special_plain s Hs).
  - apply replace_special_plain.
Qed.

(** C9 fails as stated: the entity that [sanitizeHtml] writes for an
    ampersand is encoded again by a second application. *)
Lemma sanitizeHtml_double_encodes :
  Sanitize.sanitizeHtml (VStr "&") = Ok "&amp;" /\
  Sanitize.sanitizeHtml (VStr "&amp;") = Ok "&amp;amp;" /\
  ~ (forall s once : string,
       Sanitize.sanitizeHtml (VStr s) = Ok once ->
       Sanitize.sanitizeHtml (VStr once) = Ok once).
Proof.
  split; [done |]. split; [done |].
  intros H. specialize (H "&" "&amp;" eq_refl). discriminate H.
Qed.

(** The examples of the specification and of the tests. *)
Example sanitizeUrl_examples :
  Sanitize.sanitizeUrl (VStr "javascript:alert(1)") = Ok "" /\
  Sanitize.sanitizeUrl (VStr "//example.com/x") = Ok "https://example.com/x" /\
  Sanitize.sanitizeUrl (VStr "/a/b") = Ok "/a/b" /\
  Sanitize.sanitizeUrl (VStr "HTTPS://Example.com") = Ok "HTTPS://Example.com" /\
  Sanitize.sanitizeUrl VNull = Ok "" /\
  Sanitize.sanitizeUrl VUndefined = Ok "".
Proof. repeat split; by vm_compute. Qed.

(** A URL in capital letters is returned as it is, and a protocol-relative
    one with the scheme added. *)
Lemma sanitizeUrl_cases_witness :
  Sanitize.sanitizeUrl (VStr "HTTPS://Example.com") = Ok "HTTPS://Example.com" /\
  Sanitize.sanitizeUrl (VStr "hTtP://example.com") = Ok "hTtP://example.com" /\
  Sanitize.sanitizeUrl (VStr "//example.com/x") = Ok "https://example.com/x".
Proof.
  split; [| split].
  - refine (proj1 (proj1 (proj2 (sanitizeUrl_cases (VStr "HTTPS://Example.com")))
                     "HTTPS://Example.com" eq_refl _) _).
    + discriminate.
    + right. exists "HTTPS://", "Example.com". split; [reflexivity |].
      cbn [same_letters]. repeat split; (by left) || (by right).
  - refine (proj1 (proj1 (proj2 (sanitizeUrl_cases (VStr "hTtP://example.com")))
                     "hTtP://example.com" eq_refl _) _).
    + discriminate.
    + left. exists "hTtP://", "example.com". split; [reflexivity |].
      cbn [same_letters]. repeat split; (by left) || (by right).
  - refine (proj1 (proj2 (proj1 (proj2 (sanitizeUrl_cases
                                          (VStr "//example.com/x")))
                            "//example.com/x" eq_refl _)) _).
    + discriminate.
    + by exists "example.com/x".
Defined.

(** C2 fails as stated for an argument that is neither falsy nor a string:
    nothing is returned, [url.match] is not a function. *)
Lemma sanitizeUrl_raises_on_a_number :
  truthy (VNum five) = true /\
  Sanitize.sanitizeUrl (VNum five) = Err TypeError /\
  ~ (forall url, exists r, Sanitize.sanitizeUrl url = Ok r).
Proof.
  split; [done |]. split; [done |].
  intros H. destruct (H (VNum five)) as [r Hr]. discriminate Hr.
Qed.

Lemma sanitizeHtml_twice_iff_plain_witness :
  exists once,
    Sanitize.sanitizeHtml (VStr "Hello world!") = Ok once /\
    once = "Hello world!".
Proof.
  destruct (sanitizeHtml_twice_iff_plain "Hello world!")
    as (once & twice & Honce & _ & _ & Hplain).
  exists once. split; [exact Honce |].
  apply Hplain, all_plain_plain_text. reflexivity.
Defined.

(** * Blocks *)

Lemma strict_eq_undefined v :
  strict_eq v VUndefined = true <-> v = VUndefined.
Proof. destruct v; simpl; split; congruence. Qed.

Lemma includes_allowed ty :
  Block.includes Block.ALLOWED_TYPES ty = true <-> allowed_type ty.
Proof.
  unfold allowed_type. destruct ty; simpl;
    try (split; [done | intros (? & ? & _); done]).
  rewrite bool_decide_eq_true. split.
  - intros Hs. by exists s.
  - by intros (t & [= ->] & Ht).
Qed.

Lemma allowed_type_truthy ty : allowed_type ty -> truthy ty = true.
Proof.
  intros (t & -> & Ht). simpl. apply negb_true_iff, bool_decide_eq_false.
  intros ->. unfold Block.ALLOWED_TYPES in Ht.
  rewrite !elem_of_cons, elem_of_nil in Ht. intuition discriminate.
Qed.

(** The table of required fields, by type. *)
Lemma requiredProps_allowed t :
  t ∈ Block.ALLOWED_TYPES ->
  Block.requiredProps (VStr t) =
    if decide (t = "heading") then ["level"]
    else if decide (t = "code") then ["language"]
    else if decide (t = "image") then ["url"; "alt"]
    else if decide (t = "list") then ["items"; "listType"]
    else [].
Proof.
  unfold Block.ALLOWED_TYPES. rewrite !elem_of_cons, elem_of_nil.
  intros [-> | [-> | [-> | [-> | [-> | [-> | [-> | [-> | []]]]]]]]];
    by vm_compute.
Qed.

Lemma requiredProps_cases ty :
  Block.requiredProps ty ∈
    [[]; ["level"]; ["language"]; ["url"; "alt"]; ["items"; "listType"]].
Proof.
  unfold Block.requiredProps, Block.TYPE_REQUIREMENTS.
  destruct ty as [| | | | k | |]; try set_solver.
  destruct (decide (k = "heading")) as [-> | H1];
    [rewrite lookup_insert_eq; set_solver | rewrite lookup_insert_ne by done].
  destruct (decide (k = "code")) as [-> | H2];
    [rewrite lookup_insert_eq; set_solver | rewrite lookup_insert_ne by done].
  destruct (decide (k = "image")) as [-> | H3];
    [rewrite lookup_insert_eq; set_solver | rewrite lookup_insert_ne by done].
  destruct (decide (k = "list")) as [-> | H4];
    [rewrite lookup_singleton_eq; set_solver
    | rewrite lookup_singleton_ne by done; set_solver].
Qed.

Lemma requiredProps_not_basic ty p :
  p ∈ Block.requiredProps ty -> p ∉ Block.basic_names.
Proof.
  pose proof (requiredProps_cases ty) as H.
  rewrite !elem_of_cons, elem_of_nil in H.
  unfold Block.basic_names.
  destruct H as [-> | [-> | [-> | [-> | [-> | []]]]]];
    rewrite ?elem_of_cons, ?elem_of_nil; set_solver.
Qed.

Lemma requiredProps_not_inherited ty p :
  p ∈ Block.requiredProps ty -> p ∉ Block.inherited_names.
Proof.
  pose proof (requiredProps_cases ty) as H.
  rewrite !elem_of_cons, elem_of_nil in H.
  unfold Block.inherited_names.
  destruct H as [-> | [-> | [-> | [-> | [-> | []]]]]];
    rewrite ?elem_of_cons, ?elem_of_nil; set_solver.
Qed.

(** The loop over the required fields stops at the first one that is
    undefined and otherwise assigns them all. *)
Lemma check_required_Err (data : obj) ty props this e :
  Block.check_required (VObj data) ty props this = Err e <->
  exists prop, e = MissingRequiredFieldError ty prop /\
               first_undefined data props prop.
Proof.
  revert this. induction props as [|p props IH]; intros this; simpl.
  - split; [done |]. intros (prop & _ & before & after & Hnil & _).
    by destruct before.
  - fold (get data p). destruct (strict_eq (get data p) VUndefined) eqn:Hp.
    + apply strict_eq_undefined in Hp. split.
      * intros [= <-]. exists p. split; [done |].
        exists [], props. repeat split; [done |]. intros ? ?%elem_of_nil. done.
      * intros (prop & -> & before & after & Hsplit & Hu & Hbefore).
        destruct before as [|p' before]; simpl in Hsplit.
        -- by injection Hsplit as <- <-.
        -- injection Hsplit as <- _. exfalso. apply (Hbefore p); [left | done].
    + assert (get data p <> VUndefined) as Hp'.
      { intros Heq. rewrite Heq in Hp. done. }
      rewrite IH. split.
      * intros (prop & -> & before & after & -> & Hu & Hbefore).
        exists prop. split; [done |]. exists (p :: before), after.
        repeat split; [done |]. intros p' [-> | ?]%elem_of_cons; auto.
      * intros (prop & -> & before & after & Hsplit & Hu & Hbefore).
        exists prop. split; [done |].
        destruct before as [|p' before]; simpl in Hsplit.
        -- injection Hsplit as <- _. done.
        -- injection Hsplit as <- ->. exists before, after.
           repeat split; [done |]. intros p' ?. apply Hbefore. by right.
Qed.

Lemma check_required_Ok (data : obj) ty props this this' :
  Block.check_required (VObj data) ty props this = Ok this' ->
  all_defined data props /\
  forall k, this' !! k =
            if decide (k ∈ props) then Some (get data k) else this !! k.
Proof.
  revert this. induction props as [|p props IH]; intros this Hc; simpl in Hc.
  - injection Hc as <-. split; [by intros ? ?%elem_of_nil |].
    intros k. by rewrite decide_False by apply not_elem_of_nil.
  - fold (get data p) in Hc.
    destruct (strict_eq (get data p) VUndefined) eqn:Hp; [done |].
    apply IH in Hc as [Hall Hk]. split.
    + intros p' [-> | ?]%elem_of_cons; [| by apply Hall].
      intros Heq. by rewrite Heq in Hp.
    + intros k. rewrite Hk. destruct (decide (k ∈ props)) as [Hin | Hin].
      * rewrite decide_True; [done | by right].
      * destruct (decide (k = p)) as [-> | Hne].
        -- rewrite decide_True by left. by rewrite lookup_insert_eq.
        -- rewrite decide_False by (rewrite elem_of_cons; naive_solver).
           by rewrite lookup_insert_ne.
Qed.

Lemma check_required_total (data : obj) ty props this :
  all_defined data props ->
  exists this', Block.check_required (VObj data) ty props this = Ok this'.
Proof.
  intros Hall.
  destruct (Block.check_required (VObj data) ty props this) as [this' | e] eqn:Hc;
    [by exists this' |].
  apply check_required_Err in Hc as (prop & _ & before & after & -> & Hu & _).
  exfalso. apply (Hall prop); [| done].
  rewrite elem_of_app, elem_of_cons. auto.
Qed.

(** The object under construction after the three basic assignments. *)
Lemma Block_new_object (m : obj) :
  Block.new (VObj m) =
  if negb (truthy (get m "id")) then Err MissingIdError
  else if negb (Block.includes Block.ALLOWED_TYPES (get m "type"))
  then (_ <-r to_string (get m "type");;
        Err (InvalidTypeError (get m "type")))
  else
    this <-r Block.check_required (VObj m) (get m "type")
               (Block.requiredProps (get m "type"))
               (<["content" := if truthy (get m "content")
                               then get m "content" else VStr ""]>
                  (<["type" := get m "type"]> (<["id" := get m "id"]> ∅)));;
    Ok (Block.Instance (Block.copy_additional (VObj m) this)).
Proof.
  unfold Block.new. simpl. fold (get m "id") (get m "type") (get m "content").
  destruct (truthy (get m "id")); simpl; [| done].
  destruct (Block.includes Block.ALLOWED_TYPES (get m "type")) eqn:Hty; simpl.
  - apply includes_allowed, allowed_type_truthy in Hty. by rewrite Hty.
  - by rewrite orb_true_r.
Qed.

(** Data that is not an object has no id. *)
Lemma Block_new_not_object data b :
  Block.new data = Ok b -> exists m, data = VObj m.
Proof. destruct data; try done. by exists m. Qed.

Lemma first_undefined_unique data props p1 p2 :
  first_undefined data props p1 -> first_undefined data props p2 -> p1 = p2.
Proof.
  intros (b1 & a1 & H1 & Hu1 & Hb1) (b2 & a2 & H2 & Hu2 & Hb2).
  rewrite H1 in H2. clear H1.
  revert b2 H2 Hb2. induction b1 as [|x b1 IH]; intros b2 H2 Hb2.
  - destruct b2 as [|y b2]; simpl in H2; [by injection H2 |].
    injection H2 as -> _. exfalso. apply (Hb2 y); [left | done].
  - destruct b2 as [|y b2]; simpl in H2.
    + injection H2 as <- _. exfalso. apply (Hb1 x); [left | done].
    + injection H2 as _ H2. apply (IH (fun p Hp => Hb1 p (list_elem_of_further _ _ _ Hp)) b2 H2).
      intros p Hp. apply Hb2. by right.
Qed.

Lemma first_undefined_not_all_defined data props p :
  first_undefined data props p -> all_defined data props -> False.
Proof.
  intros (before & after & -> & Hu & _) Hall. apply (Hall p); [| done].
  rewrite elem_of_app, elem_of_cons. auto.
Qed.

(** The outcomes of the constructor on data with an id. *)
Lemma Block_new_outcome (data : obj) :
  truthy (get data "id") = true ->
  (~ allowed_type (get data "type") /\
   (printable (get data "type") /\
    Block.new (VObj data) = Err (InvalidTypeError (get data "type")) \/
    ~ printable (get data "type") /\
    Block.new (VObj data) = Err TypeError)) \/
  (allowed_type (get data "type") /\
   exists prop,
     first_undefined data (Block.requiredProps (get data "type")) prop /\
     Block.new (VObj data) =
       Err (MissingRequiredFieldError (get data "type") prop)) \/
  (allowed_type (get data "type") /\
   all_defined data (Block.requiredProps (get data "type")) /\
   exists b, Block.new (VObj data) = Ok b).
Proof.
  intros Hid. rewrite Block_new_object, Hid. simpl negb. cbv iota.
  destruct (Block.includes Block.ALLOWED_TYPES (get data "type")) eqn:Hty;
    simpl negb; cbv iota.
  - apply includes_allowed in Hty. right.
    match goal with
    | |- context [Block.check_required ?d ?t ?ps ?th] =>
        destruct (Block.check_required d t ps th) as [this' | e] eqn:Hc
    end; simpl.
    + apply check_required_Ok in Hc as [Hall _]. right. eauto.
    + apply check_required_Err in Hc as (prop & -> & Hfirst). left. eauto.
  - left. split; [rewrite <- includes_allowed; by rewrite Hty |].
    destruct (printable_dec (get data "type")) as [[T HT] | HT].
    + left. split; [by exists T |]. by rewrite HT.
    + right. split; [by apply not_printable |]. by rewrite HT.
Qed.

(** C8, as amended. For data with an id, a type that is absent or not one
    of the eight kinds makes the construction raise InvalidTypeError, with
    a message that holds the type and enumerates the eight kinds, when the
    type converts to a string, and the TypeError of that conversion when
    it does not; for an allowed type the construction raises
    MissingRequiredFieldError naming a field exactly when that field is
    the first required field of the type, in the order of the table, that
    is undefined in the data; and it succeeds exactly when the type is
    allowed and no required field is undefined. *)
Theorem Block_new_errors (data : obj) :
  truthy (get data "id") = true ->
  (forall ty, Block.new (VObj data) = Err (InvalidTypeError ty) <->
              ty = get data "type" /\ ~ allowed_type (get data "type") /\
              printable (get data "type")) /\
  (Block.new (VObj data) = Err TypeError <->
   ~ allowed_type (get data "type") /\ ~ printable (get data "type")) /\
  (forall ty prop,
     Block.new (VObj data) = Err (MissingRequiredFieldError ty prop) <->
     ty = get data "type" /\ allowed_type (get data "type") /\
     first_undefined data (Block.requiredProps (get data "type")) prop) /\
  ((exists b, Block.new (VObj data) = Ok b) <->
   allowed_type (get data "type") /\
   all_defined data (Block.requiredProps (get data "type"))) /\
  (forall T, prints_as (get data "type") T ->
     message (InvalidTypeError (get data "type")) =
       Some ("Invalid block type: " +:+ T +:+
             ". Allowed types are: " +:+
             "text, heading, image, code, list, quote, embed, divider")).
Proof.
  intros Hid.
  assert (forall T, prints_as (get data "type") T ->
     message (InvalidTypeError (get data "type")) =
       Some ("Invalid block type: " +:+ T +:+
             ". Allowed types are: " +:+
             "text, heading, image, code, list, quote, embed, divider"))
    as Hmsg.
  { intros T HT. unfold prints_as in HT. cbn [message]. unfold text_of.
    by rewrite HT. }
  destruct (Block_new_outcome data Hid)
    as [[Hna [[Hp ->] | [Hp ->]]]
       | [(Ha & prop & Hfirst & ->) | (Ha & Hall & b & ->)]].
  - split; [| split; [| split; [| split]]]; [| | | | done].
    + intros ty. split; [by intros [= <-] | by intros [-> _]].
    + split; [done | by intros [_ ?]].
    + intros ty prop. split; [done | by intros (_ & ? & _)].
    + split; [by intros [? ?] | by intros [? _]].
  - split; [| split; [| split; [| split]]]; [| | | | done].
    + intros ty. split; [done | by intros (_ & _ & ?)].
    + done.
    + intros ty prop. split; [done | by intros (_ & ? & _)].
    + split; [by intros [? ?] | by intros [? _]].
  - split; [| split; [| split; [| split]]]; [| | | | done].
    + intros ty. split; [done | by intros (_ & ? & _)].
    + split; [done | by intros [? _]].
    + intros ty prop'. split.
      * by intros [= <- <-].
      * intros (-> & _ & Hfirst').
        by rewrite (first_undefined_unique _ _ _ _ Hfirst Hfirst').
    + split; [by intros [? ?] |].
      intros [_ Hall]. destruct (first_undefined_not_all_defined _ _ _ Hfirst Hall).
  - split; [| split; [| split; [| split]]]; [| | | | done].
    + intros ty. split; [done | by intros (_ & ? & _)].
    + split; [done | by intros [? _]].
    + intros ty prop. split; [done |].
      intros (_ & _ & Hfirst).
      destruct (first_undefined_not_all_defined _ _ _ Hfirst Hall).
    + split; [done | eauto].
Qed.

(** A code block whose language is the empty string is accepted. *)
Lemma Block_new_errors_witness :
  truthy (get code_data_empty_language "id") = true /\
  exists b, Block.new (VObj code_data_empty_language) = Ok b.
Proof.
  split; [reflexivity |].
  apply (Block_new_errors code_data_empty_language); [reflexivity |]. split.
  - exists "code". split; [reflexivity |]. unfold Block.ALLOWED_TYPES.
    rewrite !elem_of_cons. auto.
  - intros p Hp.
    change (Block.requiredProps (get code_data_empty_language "type"))
      with ["language"] in Hp.
    apply list_elem_of_singleton in Hp as ->. discriminate.
Defined.

(** C8 fails as stated: the id is checked before the type, so data without
    an id and with an unknown type raises MissingIdError and not
    InvalidTypeError; an image without url and alt raises the error that
    names url, not one that names alt, although alt is undefined; and a
    type that is an object with a property [toString] of its own raises a
    TypeError while the message is built. *)
Lemma Block_new_checks_id_first :
  ~ allowed_type (get data_without_id "type") /\
  Block.new (VObj data_without_id) = Err MissingIdError /\
  get image_data_without_fields "alt" = VUndefined /\
  Block.new (VObj image_data_without_fields)
    = Err (MissingRequiredFieldError (VStr "image") "url") /\
  ~ allowed_type (get data_type_object "type") /\
  Block.new (VObj data_type_object) = Err TypeError /\
  ~ (forall data : obj,
       (exists ty, Block.new (VObj data) = Err (InvalidTypeError ty)) <->
       ~ allowed_type (get data "type")).
Proof.
  assert (~ allowed_type (get data_without_id "type")) as Hna.
  { rewrite <- includes_allowed. by vm_compute. }
  split; [done |]. split; [by vm_compute |]. split; [by vm_compute |].
  split; [by vm_compute |].
  split; [rewrite <- includes_allowed; by vm_compute |].
  split; [by vm_compute |].
  intros H. apply (H data_without_id) in Hna as [ty Hty].
  vm_compute in Hty. discriminate.
Qed.

(** ** The plain projection of a constructed block *)

Lemma copy_additional_lookup (m this : obj) k :
  Block.copy_additional (VObj m) this !! k =
  match m !! k with
  | Some v =>
      if negb (bool_decide (k ∈ Block.basic_names))
         && Block.this_undefined this k
      then Some v else this !! k
  | None => this !! k
  end.
Proof.
  unfold Block.copy_additional. revert k.
  apply (map_fold_weak_ind (fun (r : obj) (m' : obj) => forall k,
    r !! k = match m' !! k with
             | Some v =>
                 if negb (bool_decide (k ∈ Block.basic_names))
                    && Block.this_undefined this k
                 then Some v else this !! k
             | None => this !! k
             end)).
  - intros k. by rewrite lookup_empty.
  - intros i x m' r Hi IH k.
    assert (Block.this_undefined r i = Block.this_undefined this i) as Hu.
    { unfold Block.this_undefined. by rewrite IH, Hi. }
    rewrite Hu. destruct (decide (k = i)) as [-> | Hne].
    + rewrite lookup_insert_eq.
      destruct (negb (bool_decide (i ∈ Block.basic_names))
                && Block.this_undefined this i).
      * by rewrite lookup_insert_eq.
      * by rewrite IH, Hi.
    + rewrite (lookup_insert_ne m') by done.
      destruct (negb (bool_decide (i ∈ Block.basic_names))
                && Block.this_undefined this i).
      * rewrite lookup_insert_ne by done. apply IH.
      * apply IH.
Qed.

Lemma toJSON_lookup b k :
  Block.toJSON b !! k =
  if decide (k ∈ Block.basic_names) then Some (get (Block.own b) k)
  else Block.own b !! k.
Proof.
  unfold Block.toJSON.
  set (r0 := <["content" := get (Block.own b) "content"]>
               (<["type" := get (Block.own b) "type"]>
                  (<["id" := get (Block.own b) "id"]> (∅ : obj)))).
  assert (forall k, r0 !! k = if decide (k ∈ Block.basic_names)
                              then Some (get (Block.own b) k) else None) as Hr0.
  { intros j. unfold r0, Block.basic_names.
    destruct (decide (j = "content")) as [-> | ?];
      [by rewrite lookup_insert_eq | rewrite lookup_insert_ne by done].
    destruct (decide (j = "type")) as [-> | ?];
      [by rewrite lookup_insert_eq | rewrite lookup_insert_ne by done].
    destruct (decide (j = "id")) as [-> | ?];
      [by rewrite lookup_insert_eq | rewrite lookup_insert_ne by done].
    rewrite lookup_empty, decide_False; [done |].
    rewrite !elem_of_cons, elem_of_nil. naive_solver. }
  revert k.
  cut (forall k, map_fold (fun key v (result : obj) =>
                     if negb (bool_decide (key ∈ Block.basic_names))
                     then <[key := v]> result else result) r0 (Block.own b) !! k
                 = if decide (k ∈ Block.basic_names) then r0 !! k
                   else match Block.own b !! k with
                        | Some v => Some v
                        | None => r0 !! k
                        end).
  { intros Hcut k. rewrite Hcut, Hr0.
    destruct (decide (k ∈ Block.basic_names)); [done |].
    by destruct (Block.own b !! k). }
  apply (map_fold_weak_ind (fun (r : obj) (m' : obj) => forall k,
    r !! k = if decide (k ∈ Block.basic_names) then r0 !! k
             else match m' !! k with
                  | Some v => Some v
                  | None => r0 !! k
                  end)).
  - intros k. rewrite lookup_empty. by destruct (decide _).
  - intros i x m' r Hi IH k.
    destruct (decide (i ∈ Block.basic_names)) as [Hb | Hb].
    + rewrite bool_decide_eq_true_2 by done. simpl. rewrite IH.
      destruct (decide (k ∈ Block.basic_names)) as [Hk | Hk]; [done |].
      rewrite lookup_insert_ne; [done | by intros ->].
    + rewrite bool_decide_eq_false_2 by done. simpl.
      destruct (decide (k = i)) as [-> | Hne].
      * rewrite !lookup_insert_eq. by rewrite decide_False.
      * rewrite !lookup_insert_ne by done. apply IH.
Qed.

Lemma get_lookup_defined (m : obj) k :
  get m k <> VUndefined -> m !! k = Some (get m k).
Proof. unfold get. by destruct (m !! k). Qed.

(** What [new Block(data).toJSON()] holds. *)
Lemma Block_new_Ok (m : obj) b :
  Block.new (VObj m) = Ok b ->
  truthy (get m "id") = true /\
  allowed_type (get m "type") /\
  all_defined m (Block.requiredProps (get m "type")) /\
  (forall k, Block.own b !! k = constructed m k) /\
  (forall k, Block.toJSON b !! k = constructed m k).
Proof.
  rewrite Block_new_object.
  destruct (truthy (get m "id")) eqn:Hid; [| done]. simpl negb. cbv iota.
  destruct (Block.includes Block.ALLOWED_TYPES (get m "type")) eqn:Hty;
    [| simpl; by destruct (to_string (get m "type"))].
  simpl negb. cbv iota.
  apply includes_allowed in Hty.
  match goal with
  | |- context [Block.check_required ?d ?t ?ps ?th] =>
      destruct (Block.check_required d t ps th) as [this' | e] eqn:Hc
  end; [| done].
  simpl. intros [= <-]. apply check_required_Ok in Hc as [Hall Hthis].
  assert (forall k, Block.own (Block.Instance (Block.copy_additional (VObj m) this')) !! k
                    = constructed m k) as Hown.
  { intros k. cbn [Block.own]. rewrite copy_additional_lookup. unfold constructed.
    unfold Block.this_undefined. rewrite !Hthis.
    destruct (decide (k ∈ Block.requiredProps (get m "type"))) as [Hreq | Hreq].
    - pose proof (requiredProps_not_basic _ _ Hreq) as Hnb.
      unfold Block.basic_names in Hnb.
      rewrite !elem_of_cons, elem_of_nil in Hnb.
      rewrite !decide_False by naive_solver.
      rewrite (get_lookup_defined m k (Hall k Hreq)).
      destruct (strict_eq (get m k) VUndefined) eqn:Hs.
      + apply strict_eq_undefined in Hs. by destruct (Hall k Hreq).
      + by rewrite andb_false_r.
    - destruct (decide (k = "id")) as [-> | Hn1].
      { rewrite bool_decide_eq_true_2 by (unfold Block.basic_names; set_solver).
        simpl. rewrite lookup_insert_ne, lookup_insert_ne, lookup_insert_eq by done.
        by destruct (m !! "id"). }
      destruct (decide (k = "type")) as [-> | Hn2].
      { rewrite bool_decide_eq_true_2 by (unfold Block.basic_names; set_solver).
        simpl. rewrite lookup_insert_ne, lookup_insert_eq by done.
        by destruct (m !! "type"). }
      destruct (decide (k = "content")) as [-> | Hn3].
      { rewrite bool_decide_eq_true_2 by (unfold Block.basic_names; set_solver).
        simpl. rewrite lookup_insert_eq. by destruct (m !! "content"). }
      rewrite !lookup_insert_ne, lookup_empty by done.
      rewrite bool_decide_eq_false_2
        by (unfold Block.basic_names; rewrite !elem_of_cons, elem_of_nil;
            naive_solver).
      simpl. destruct (m !! k); [| done].
      by destruct (decide (k ∈ Block.inherited_names));
        [rewrite bool_decide_eq_true_2 | rewrite bool_decide_eq_false_2]. }
  repeat split; try done.
  intros k. rewrite toJSON_lookup.
  destruct (decide (k ∈ Block.basic_names)) as [Hb | Hb]; [| apply Hown].
  unfold get. rewrite Hown. unfold constructed, Block.basic_names in *.
  rewrite !elem_of_cons, elem_of_nil in Hb.
  destruct Hb as [-> | [-> | [-> | []]]]; done.
Qed.

(** * Documents *)

Lemma constructed_idempotent (m m' : obj) :
  (forall k, m' !! k = constructed m k) ->
  forall k, constructed m' k = constructed m k.
Proof.
  intros H.
  assert (forall k, get m' k = default VUndefined (constructed m k)) as Hget
    by (intros k; unfold get; by rewrite H).
  assert (get m' "id" = get m "id") as Hid by by rewrite Hget.
  assert (get m' "type" = get m "type") as Hty by by rewrite Hget.
  assert (get m' "content" =
          if truthy (get m "content") then get m "content" else VStr "")
    as Hc by by rewrite Hget.
  intros k. unfold constructed at 1. rewrite Hid, Hty, Hc.
  destruct (decide (k = "id")) as [-> | Hn1]; [done |].
  destruct (decide (k = "type")) as [-> | Hn2]; [done |].
  destruct (decide (k = "content")) as [-> | Hn3].
  { change (constructed m "content")
      with (Some (if truthy (get m "content") then get m "content"
                  else VStr "")).
    destruct (truthy (get m "content")) eqn:Ht; [by rewrite Ht | done]. }
  rewrite Hget, H. unfold constructed.
  rewrite (decide_False (P := k = "id")) by done.
  rewrite (decide_False (P := k = "type")) by done.
  rewrite (decide_False (P := k = "content")) by done.
  destruct (decide (k ∈ Block.requiredProps (get m "type"))); [done |].
  destruct (m !! k); [| done].
  by destruct (decide (k ∈ Block.inherited_names)).
Qed.

(** Constructing a block from the projection of a block gives the same
    projection again. *)
Lemma block_toJSON_fixpoint (m : obj) b :
  Block.new (VObj m) = Ok b ->
  exists b', Block.new (VObj (Block.toJSON b)) = Ok b' /\
             Block.toJSON b' = Block.toJSON b.
Proof.
  intros Hb. apply Block_new_Ok in Hb as (Hid & Hty & Hall & _ & HJ).
  assert (forall k, get (Block.toJSON b) k = default VUndefined (constructed m k))
    as Hget by (intros k; unfold get; by rewrite HJ).
  assert (get (Block.toJSON b) "id" = get m "id") as Hid' by by rewrite Hget.
  assert (get (Block.toJSON b) "type" = get m "type") as Hty' by by rewrite Hget.
  assert (all_defined (Block.toJSON b) (Block.requiredProps (get m "type")))
    as Hall'.
  { intros p Hp. rewrite Hget. unfold constructed.
    pose proof (requiredProps_not_basic _ _ Hp) as Hnb.
    unfold Block.basic_names in Hnb. rewrite !elem_of_cons, elem_of_nil in Hnb.
    rewrite !decide_False by naive_solver. rewrite decide_True by done.
    simpl. by apply Hall. }
  destruct (Block_new_outcome (Block.toJSON b))
    as [[Hna _] | [(_ & p & Hp & _) | (_ & _ & b' & Hb')]].
  - by rewrite Hid'.
  - by rewrite Hty' in Hna.
  - rewrite Hty' in Hp.
    destruct (first_undefined_not_all_defined _ _ _ Hp Hall').
  - exists b'. split; [done |].
    apply Block_new_Ok in Hb' as (_ & _ & _ & _ & HJ').
    apply map_eq. intros k. rewrite HJ', HJ.
    by apply constructed_idempotent.
Qed.

Lemma block_toJSON_id (m : obj) b :
  Block.new (VObj m) = Ok b -> get (Block.toJSON b) "id" = get m "id".
Proof.
  intros Hb. apply Block_new_Ok in Hb as (_ & _ & _ & _ & HJ).
  unfold get at 1. by rewrite HJ.
Qed.

(** ** The methods, unfolded *)

Lemma find_has_id_None id (bs : list obj) :
  find (Document.has_id id) bs = None <->
  Forall (fun b => strict_eq (get b "id") id = false) bs.
Proof.
  induction bs as [|b bs IH]; simpl; [by split |].
  unfold Document.has_id at 1.
  destruct (strict_eq (get b "id") id) eqn:Hb.
  - split; [done |]. intros H. apply Forall_cons in H as [H _]. congruence.
  - rewrite IH. split; [by constructor | by intros [_ ?]%Forall_cons].
Qed.

(** An id that is found is a primitive value, so that the message of
    DuplicateIdError is built without an error. *)
Lemma find_has_id_printable id (bs : list obj) b :
  find (Document.has_id id) bs = Some b -> printable id.
Proof.
  intros H. apply find_some in H as [_ H].
  by apply strict_eq_printable in H.
Qed.

Lemma addBlock_unfold blockData d :
  Document.addBlock blockData d =
  match member blockData "id" with
  | Err e => (Err e, d)
  | Ok id =>
      match find (Document.has_id id) (Document.blocks (Document.article d)) with
      | Some _ => (Err (DuplicateIdError id), d)
      | None =>
          match Block.new blockData with
          | Err e => (Err e, d)
          | Ok block =>
              (Ok block,
               Document.mkDocument
                 (Document.mkArticle
                    (Document.title (Document.article d))
                    (Document.metadata (Document.article d))
                    (Document.blocks (Document.article d)
                     ++ [Block.toJSON block])))
          end
      end
  end.
Proof.
  cbv [Document.addBlock Document.bind Document.lift Document.getBlock
       Document.get_blocks Document.ret Document.throw Document.set_blocks].
  destruct (member blockData "id") as [id | e]; [| done].
  destruct (find (Document.has_id id) _) eqn:Hf; cbn [truthy].
  { apply find_has_id_printable in Hf as [s ->]. done. }
  by destruct (Block.new blockData).
Qed.

(** C5. When the id of the block data is the id of a stored block,
    [addBlock] raises DuplicateIdError and the document is as before; and
    whenever [addBlock] raises, whatever the error, the document is as
    before: nothing has been appended. *)
Theorem addBlock_failure_leaves_document (d : Document.BlockDocDocument)
    (blockData : value) :
  (forall id block,
     member blockData "id" = Ok id ->
     block ∈ Document.blocks (Document.article d) ->
     strict_eq (get block "id") id = true ->
     Document.addBlock blockData d = (Err (DuplicateIdError id), d)) /\
  (forall e d', Document.addBlock blockData d = (Err e, d') -> d' = d).
Proof.
  rewrite addBlock_unfold. split.
  - intros id block -> Hin Hid.
    destruct (find (Document.has_id id) _) eqn:Hf; [done |].
    apply find_has_id_None in Hf. rewrite Forall_forall in Hf.
    specialize (Hf block Hin). congruence.
  - intros e d'. destruct (member blockData "id") as [id | e']; [| congruence].
    destruct (find (Document.has_id id) _); [congruence |].
    destruct (Block.new blockData); congruence.
Qed.

(** C10. When the [blocks] option is present and is not an array, the
    constructor raises nothing and the document has no blocks. *)
Theorem new_ignores_blocks_that_are_no_array (options : obj) (v : value) :
  options !! "blocks" = Some v ->
  isArray v = false ->
  Document.new (VObj options) =
  Ok (Document.mkDocument
        (Document.mkArticle (get options "title")
           (Document.with_default (get options "metadata") (VObj ∅)) [])).
Proof.
  intros Hv Harr. unfold Document.new. cbn [member rbind]. rewrite Hv.
  fold (get options "title") (get options "metadata").
  destruct v; try discriminate Harr; simpl; by rewrite ?andb_false_r.
Qed.

Lemma new_ignores_blocks_that_are_no_array_witness :
  Document.new (VObj options_bad_blocks) =
  Ok (Document.mkDocument (Document.mkArticle (VStr "T") (VObj ∅) [])).
Proof.
  exact (new_ignores_blocks_that_are_no_array options_bad_blocks
           (VStr "not-an-array") eq_refl eq_refl).
Defined.

(** ** Arrays *)

Lemma findIndex_None {A} (p : A -> bool) (l : list A) :
  findIndex p l = None <-> Forall (fun x => p x = false) l.
Proof.
  induction l as [|x l IH]; simpl; [by split |].
  destruct (p x) eqn:Hx.
  - split; [done |]. intros H. apply Forall_cons in H as [H _]. congruence.
  - destruct (findIndex p l); simpl.
    + split; [done |]. intros [_ H]%Forall_cons. by apply IH in H.
    + split; [| done]. intros _. constructor; [done | by apply IH].
Qed.

Lemma findIndex_Some {A} (p : A -> bool) (l : list A) i :
  findIndex p l = Some i -> exists x, l !! i = Some x /\ p x = true.
Proof.
  revert i. induction l as [|x l IH]; intros i; simpl; [done |].
  destruct (p x) eqn:Hx.
  - intros [= <-]. by exists x.
  - destruct (findIndex p l) as [j |]; simpl; [| done].
    intros [= <-]. by apply IH.
Qed.

Lemma id_found_findIndex id d :
  id_found id d <->
  exists i, findIndex (Document.has_id id)
              (Document.blocks (Document.article d)) = Some i.
Proof.
  unfold id_found. split.
  - intros (b & Hin & Hb).
    destruct (findIndex _ _) as [i |] eqn:Hf; [by exists i |].
    apply findIndex_None in Hf. rewrite Forall_forall in Hf.
    specialize (Hf b Hin). unfold Document.has_id in Hf. congruence.
  - intros [i Hi]. apply findIndex_Some in Hi as (b & Hb & Hid).
    exists b. split; [by eapply list_elem_of_lookup_2 | done].
Qed.

Lemma splice_remove_one {A} (l : list A) i :
  splice l i 1 [] = (take 1 (drop i l), delete i l).
Proof.
  unfold splice. simpl. by rewrite delete_take_drop, Nat.add_1_r.
Qed.

Lemma splice_insert_one {A} (l : list A) j x :
  (splice l j 0 [x]).2 = take j l ++ x :: drop j l.
Proof. unfold splice. simpl. by rewrite Nat.add_0_r. Qed.

Lemma finite_trunc_nonneg_aux ds acc :
  0 <= acc -> 0 <= fold_left (fun acc d => 10 * acc + digit_val d) ds acc.
Proof.
  revert acc. induction ds as [|d ds IH]; intros acc Hacc; simpl; [done |].
  apply IH. destruct d; simpl; lia.
Qed.

Lemma digits_val_nonneg ds : 0 <= digits_val ds.
Proof. by apply finite_trunc_nonneg_aux. Qed.

Lemma finite_trunc_nonneg ds n : 0 <= finite_trunc ds n.
Proof.
  unfold finite_trunc. destruct (n <=? 0); [done |].
  destruct (_ <=? n).
  - pose proof (digits_val_nonneg ds).
    apply Z.mul_nonneg_nonneg; [done |]. apply Z.pow_nonneg. lia.
  - apply digits_val_nonneg.
Qed.

Lemma splice_start_le len p : (splice_start len p <= len)%nat.
Proof.
  destruct p as [| [] | | [] ds n]; simpl; try lia.
  pose proof (finite_trunc_nonneg ds n).
  destruct (finite_trunc ds n =? 0); lia.
Qed.

(** ** moveBlock *)

Lemma moveBlock_unfold id p d :
  Document.moveBlock id p d =
  let bs := Document.blocks (Document.article d) in
  match findIndex (Document.has_id id) bs with
  | None => (Ok false, d)
  | Some index =>
      if number_negative p || number_ge_nat p (length bs)
      then (Err (InvalidPositionError p), d)
      else
        let bs1 := delete index bs in
        let block : obj := default ∅ (bs !! index) in
        let j := splice_start (length bs1) p in
        (Ok true,
         Document.mkDocument
           (Document.mkArticle
              (Document.title (Document.article d))
              (Document.metadata (Document.article d))
              (take j bs1 ++ block :: drop j bs1)))
  end.
Proof.
  cbv [Document.moveBlock Document.bind Document.get_blocks Document.ret
       Document.throw Document.set_blocks]. cbv zeta.
  destruct (findIndex _ _) as [index |]; [| done].
  destruct (number_negative p || number_ge_nat p _); [done |].
  rewrite splice_remove_one. cbn [Document.article Document.title
    Document.metadata Document.blocks]. rewrite splice_insert_one.
  do 4 f_equal. rewrite head_lookup, lookup_take by lia.
  rewrite decide_True by lia. rewrite lookup_drop. by rewrite Nat.add_0_r.
Qed.

(** C6, as amended. For an id that is found and a position that is
    negative or not below the number of blocks, [moveBlock] raises
    InvalidPositionError and the document is as before; for an id that is
    not found it returns false, whatever the position, and the document is
    as before; and after a move that succeeds the moved block is the first
    one with that id, and the blocks other than the moved one are in the
    order they had. *)
Theorem moveBlock_cases (d : Document.BlockDocDocument) (id : value)
    (p : number) :
  (id_found id d ->
   out_of_bounds p (length (Document.blocks (Document.article d))) ->
   Document.moveBlock id p d = (Err (InvalidPositionError p), d)) /\
  (~ id_found id d -> Document.moveBlock id p d = (Ok false, d)) /\
  (forall d', Document.moveBlock id p d = (Ok true, d') ->
     exists i j b,
       Document.blocks (Document.article d) !! i = Some b /\
       strict_eq (get b "id") id = true /\
       Document.blocks (Document.article d') !! j = Some b /\
       delete j (Document.blocks (Document.article d'))
       = delete i (Document.blocks (Document.article d)) /\
       Document.title (Document.article d')
       = Document.title (Document.article d) /\
       Document.metadata (Document.article d')
       = Document.metadata (Document.article d)).
Proof.
  rewrite moveBlock_unfold. cbv zeta. split; [| split].
  - intros [i Hi]%id_found_findIndex Hout. rewrite Hi.
    destruct Hout as [-> | ->]; [done | by rewrite orb_true_r].
  - intros Hnf.
    destruct (findIndex _ _) as [i |] eqn:Hi; [| done].
    destruct Hnf. apply id_found_findIndex. by exists i.
  - intros d'. destruct (findIndex _ _) as [i |] eqn:Hi; [| done].
    destruct (number_negative p || number_ge_nat p _); [done |].
    intros [= <-]. apply findIndex_Some in Hi as (b & Hb & Hid).
    rewrite Hb. simpl.
    set (bs1 := delete i (Document.blocks (Document.article d))).
    pose proof (splice_start_le (length bs1) p) as Hj.
    exists i, (splice_start (length bs1) p), b.
    assert (length (take (splice_start (length bs1) p) bs1)
            = splice_start (length bs1) p) as Hlen
      by by apply length_take_le.
    repeat split; try done.
    + by apply list_lookup_middle.
    + rewrite <- Hlen at 1. rewrite delete_middle. apply take_drop.
Qed.

(** The example documents are documents that the constructor builds. *)
Lemma doc_a_constructed : Document.new (VObj options_a) = Ok doc_a.
Proof. by vm_compute. Qed.

Lemma doc_ab_constructed : Document.new (VObj options_ab) = Ok doc_ab.
Proof. by vm_compute. Qed.

(** C6 fails as stated: with an id that no block has, a position out of
    bounds does not raise; [moveBlock] returns false. *)
Lemma moveBlock_unknown_id_returns_false :
  out_of_bounds five (length (Document.blocks (Document.article doc_a))) /\
  Document.moveBlock (VStr "zzz") five doc_a = (Ok false, doc_a) /\
  ~ (forall d id p,
       out_of_bounds p (length (Document.blocks (Document.article d))) ->
       exists d', Document.moveBlock id p d = (Err (InvalidPositionError p), d')).
Proof.
  assert (out_of_bounds five
            (length (Document.blocks (Document.article doc_a)))) as Hout
    by (right; by vm_compute).
  split; [done |]. split; [by vm_compute |].
  intros H. destruct (H doc_a (VStr "zzz") five Hout) as [d' Hd'].
  vm_compute in Hd'. discriminate.
Qed.

Lemma fold_digits_ge ds acc :
  0 <= acc -> acc <= fold_left (fun acc d => 10 * acc + digit_val d) ds acc.
Proof.
  revert acc. induction ds as [|d ds IH]; intros acc Hacc; simpl; [done |].
  etrans; [| apply IH]; destruct d; simpl; lia.
Qed.

Lemma digits_val_pos ds :
  ds <> [] -> head ds <> Some D0 -> 0 < digits_val ds.
Proof.
  destruct ds as [|d ds]; [done |]. intros _ Hd. unfold digits_val. simpl.
  eapply Z.lt_le_trans; [| apply fold_digits_ge]; destruct d; simpl; try lia;
    done.
Qed.

(** For an integer position, out of bounds is outside [0, len - 1]. *)
Lemma out_of_bounds_integer p z len :
  well_formed p -> integer_value p = Some z ->
  out_of_bounds p len <-> z < 0 \/ Z.of_nat len <= z.
Proof.
  unfold out_of_bounds.
  destruct p as [| neg | neg | neg ds n]; simpl; try done.
  - intros _ [= <-]. rewrite Z.leb_le. split; [intros [? | ?]; [done | by right] |].
    intros [? | ?]; [lia | by right].
  - intros (Hne & Hhd & _). destruct (_ <=? n) eqn:Hk; [| done].
    apply Z.leb_le in Hk. intros [= <-].
    pose proof (digits_val_pos ds Hne Hhd) as Hpos.
    assert (0 < length ds)%nat by (destruct ds; [done | simpl; lia]).
    assert (0 < digits_val ds * 10 ^ (n - Z.of_nat (length ds))) as HV.
    { apply Z.mul_pos_pos; [done |]. apply Z.pow_pos_nonneg; lia. }
    destruct neg.
    + split; [intros _; left; lia | by left].
    + unfold finite_trunc. rewrite (proj2 (Z.leb_gt n 0)) by lia.
      rewrite (proj2 (Z.leb_le _ n)) by done. rewrite Z.leb_le.
      split; [intros [? | ?]; [done | right; lia] |].
      intros [? | ?]; [lia | right; lia].
Qed.

(** A move within bounds, for the record. *)
Lemma moveBlock_cases_witness :
  id_found (VStr "b") doc_ab /\
  out_of_bounds five (length (Document.blocks (Document.article doc_ab))) /\
  Document.moveBlock (VStr "b") five doc_ab
  = (Err (InvalidPositionError five), doc_ab).
Proof.
  assert (id_found (VStr "b") doc_ab) as Hf.
  { exists (text_data "b" "two"). split; [| by vm_compute].
    unfold doc_ab. simpl. set_solver. }
  assert (out_of_bounds five
            (length (Document.blocks (Document.article doc_ab)))) as Hout
    by (right; by vm_compute).
  split; [done |]. split; [done |].
  exact (proj1 (moveBlock_cases doc_ab (VStr "b") five) Hf Hout).
Defined.

(** ** Distinct ids *)

Lemma number_eqb_sym x y : number_eqb x y = number_eqb y x.
Proof.
  destruct x as [| a | a | a ds n], y as [| b | b | b es m]; simpl; try done.
  - apply bool_decide_ext. naive_solver.
  - f_equal; [f_equal |]; apply bool_decide_ext; naive_solver.
Qed.

Lemma strict_eq_sym v w : strict_eq v w = strict_eq w v.
Proof.
  destruct v, w; simpl; try done;
    try (apply bool_decide_ext; naive_solver).
  apply number_eqb_sym.
Qed.

Lemma ids_distinct_Permutation bs bs' :
  bs ≡ₚ bs' -> ids_distinct bs -> ids_distinct bs'.
Proof.
  induction 1 as [| b l l' Hp IH | b c l | l l' l'' _ IH1 _ IH2]; simpl.
  - done.
  - intros [Hb Hl]. split; [by rewrite <- Hp | by apply IH].
  - intros [[Hcb Hc]%Forall_cons [Hb Hl]]. repeat split; try done.
    constructor; [by rewrite strict_eq_sym | done].
  - auto.
Qed.

Lemma ids_distinct_cons b bs :
  ids_distinct (b :: bs) <->
  Forall (fun b' => strict_eq (get b' "id") (get b "id") = false) bs /\
  ids_distinct bs.
Proof.
  simpl. split; intros [Hb Hbs]; (split; [| done]);
    eapply Forall_impl; try apply Hb; simpl; intros b';
    by rewrite strict_eq_sym.
Qed.

Lemma ids_distinct_delete bs i : ids_distinct bs -> ids_distinct (delete i bs).
Proof.
  destruct (bs !! i) as [b |] eqn:Hb.
  - intros H. apply (ids_distinct_Permutation _ _ (delete_Permutation _ _ _ Hb)) in H.
    by destruct H.
  - apply lookup_ge_None in Hb.
    by rewrite delete_take_drop, take_ge, drop_ge, app_nil_r by lia.
Qed.

Lemma ids_distinct_insert_at bs j b :
  ids_distinct bs ->
  Forall (fun b' => strict_eq (get b' "id") (get b "id") = false) bs ->
  ids_distinct (take j bs ++ b :: drop j bs).
Proof.
  intros Hbs Hb.
  apply (ids_distinct_Permutation (b :: bs)).
  - rewrite <- Permutation_middle. by rewrite take_drop.
  - by apply ids_distinct_cons.
Qed.

Lemma insertBlock_unfold blockData position d :
  Document.insertBlock blockData position d =
  match member blockData "id" with
  | Err e => (Err e, d)
  | Ok id =>
      match find (Document.has_id id) (Document.blocks (Document.article d)) with
      | Some _ => (Err (DuplicateIdError id), d)
      | None =>
          match Block.new blockData with
          | Err e => (Err e, d)
          | Ok block =>
              let bs := Document.blocks (Document.article d) in
              let j := splice_start (length bs) position in
              (Ok block,
               Document.mkDocument
                 (Document.mkArticle
                    (Document.title (Document.article d))
                    (Document.metadata (Document.article d))
                    (take j bs ++ Block.toJSON block :: drop j bs)))
          end
      end
  end.
Proof.
  cbv [Document.insertBlock Document.bind Document.lift Document.getBlock
       Document.get_blocks Document.ret Document.throw Document.set_blocks].
  destruct (member blockData "id") as [id | e]; [| done].
  destruct (find (Document.has_id id) _) eqn:Hf; cbn [truthy].
  { apply find_has_id_printable in Hf as [s ->]. done. }
  destruct (Block.new blockData); [| done].
  cbv zeta. cbn [Document.article Document.title Document.metadata
    Document.blocks]. by rewrite splice_insert_one.
Qed.

Lemma removeBlock_unfold id d :
  Document.removeBlock id d =
  match findIndex (Document.has_id id) (Document.blocks (Document.article d)) with
  | None => (Ok false, d)
  | Some index =>
      (Ok true,
       Document.mkDocument
         (Document.mkArticle
            (Document.title (Document.article d))
            (Document.metadata (Document.article d))
            (delete index (Document.blocks (Document.article d)))))
  end.
Proof.
  cbv [Document.removeBlock Document.bind Document.get_blocks Document.ret
       Document.set_blocks].
  destruct (findIndex _ _); [| done]. by rewrite splice_remove_one.
Qed.

Lemma updateBlock_unfold id updates d :
  Document.updateBlock id updates d =
  let bs := Document.blocks (Document.article d) in
  match findIndex (Document.has_id id) bs with
  | None =>
      match to_string id with
      | Ok _ => (Err (BlockNotFoundError id), d)
      | Err e => (Err e, d)
      end
  | Some index =>
      match Block.new (VObj (updates ∪ default ∅ (bs !! index))) with
      | Err e => (Err e, d)
      | Ok block =>
          let bs' := <[index := Block.toJSON block]> bs in
          (Ok (default ∅ (bs' !! index)),
           Document.mkDocument
             (Document.mkArticle
                (Document.title (Document.article d))
                (Document.metadata (Document.article d)) bs'))
      end
  end.
Proof.
  cbv [Document.updateBlock Document.bind Document.lift Document.get_blocks
       Document.ret Document.throw Document.set_blocks]. cbv zeta.
  destruct (findIndex _ _); [| by destruct (to_string id)].
  by destruct (Block.new _).
Qed.

Lemma member_Ok_new blockData id b :
  member blockData "id" = Ok id -> Block.new blockData = Ok b ->
  get (Block.toJSON b) "id" = id.
Proof.
  intros Hm Hb. destruct (Block_new_not_object _ _ Hb) as [m ->].
  simpl in Hm. injection Hm as <-. by apply block_toJSON_id.
Qed.

(** The four mutating operations other than [updateBlock] keep the ids of
    the stored blocks distinct, whether they return or raise. *)
Lemma addBlock_ids_distinct blockData d r d' :
  ids_distinct (Document.blocks (Document.article d)) ->
  Document.addBlock blockData d = (r, d') ->
  ids_distinct (Document.blocks (Document.article d')).
Proof.
  intros Hd. rewrite addBlock_unfold.
  destruct (member blockData "id") as [id | e] eqn:Hm; [| by intros [= _ <-]].
  destruct (find (Document.has_id id) _) eqn:Hf; [by intros [= _ <-] |].
  destruct (Block.new blockData) as [b | e] eqn:Hb; [| by intros [= _ <-]].
  intros [= _ <-]. simpl. apply find_has_id_None in Hf.
  rewrite <- (member_Ok_new _ _ _ Hm Hb) in Hf.
  pose proof (ids_distinct_insert_at _
    (length (Document.blocks (Document.article d))) _ Hd Hf) as H.
  by rewrite take_ge, drop_ge in H by lia.
Qed.

Lemma insertBlock_ids_distinct blockData position d r d' :
  ids_distinct (Document.blocks (Document.article d)) ->
  Document.insertBlock blockData position d = (r, d') ->
  ids_distinct (Document.blocks (Document.article d')).
Proof.
  intros Hd. rewrite insertBlock_unfold.
  destruct (member blockData "id") as [id | e] eqn:Hm; [| by intros [= _ <-]].
  destruct (find (Document.has_id id) _) eqn:Hf; [by intros [= _ <-] |].
  destruct (Block.new blockData) as [b | e] eqn:Hb; [| by intros [= _ <-]].
  cbv zeta. intros [= _ <-]. simpl. apply find_has_id_None in Hf.
  rewrite <- (member_Ok_new _ _ _ Hm Hb) in Hf.
  by apply ids_distinct_insert_at.
Qed.

Lemma removeBlock_ids_distinct id d r d' :
  ids_distinct (Document.blocks (Document.article d)) ->
  Document.removeBlock id d = (r, d') ->
  ids_distinct (Document.blocks (Document.article d')).
Proof.
  intros Hd. rewrite removeBlock_unfold.
  destruct (findIndex _ _); intros [= _ <-]; [| done].
  by apply ids_distinct_delete.
Qed.

Lemma moveBlock_ids_distinct id p d r d' :
  ids_distinct (Document.blocks (Document.article d)) ->
  Document.moveBlock id p d = (r, d') ->
  ids_distinct (Document.blocks (Document.article d')).
Proof.
  intros Hd. rewrite moveBlock_unfold. cbv zeta.
  destruct (findIndex _ _) as [i |] eqn:Hi; [| by intros [= _ <-]].
  destruct (number_negative p || number_ge_nat p _); [by intros [= _ <-] |].
  intros [= _ <-]. simpl.
  apply findIndex_Some in Hi as (b & Hb & _). rewrite Hb. simpl.
  apply (ids_distinct_Permutation _ _ (delete_Permutation _ _ _ Hb)) in Hd.
  apply ids_distinct_cons in Hd as [Hb' Hrest].
  by apply ids_distinct_insert_at.
Qed.

(** C1 does not hold of [updateBlock]: the updates are merged over the
    stored block, id included, and the merged id is not looked up among
    the other blocks. Renaming block a to b in a document with blocks a
    and b stores two blocks with the id b. *)
Theorem updateBlock_duplicates_id :
  ids_distinct (Document.blocks (Document.article doc_ab)) /\
  exists r d',
    Document.updateBlock (VStr "a") change_id_to_b doc_ab = (Ok r, d') /\
    (fun b => get b "id") <$> Document.blocks (Document.article d')
    = [VStr "b"; VStr "b"] /\
    ~ ids_distinct (Document.blocks (Document.article d')).
Proof.
  split.
  - simpl. repeat constructor.
  - eexists _, _. split; [by vm_compute |]. split; [by vm_compute |].
    simpl. intros [H _]. apply Forall_cons in H as [H _].
    vm_compute in H. discriminate.
Qed.

Lemma addBlock_failure_leaves_document_witness :
  Document.addBlock (VObj (text_data "a" "again")) doc_a
  = (Err (DuplicateIdError (VStr "a")), doc_a).
Proof.
  apply (proj1 (addBlock_failure_leaves_document doc_a
                  (VObj (text_data "a" "again")))
           (VStr "a") (text_data "a" "one")).
  - reflexivity.
  - unfold doc_a. simpl. apply list_elem_of_singleton. reflexivity.
  - reflexivity.
Defined.

(** * Heading levels *)


Lemma string_app_cons c (s r : string) :
  String c s +:+ r = String c (s +:+ r).
Proof. done. Qed.



























Lemma integer_value_truncate x z :
  well_formed x -> integer_value x = Some z -> truncate x = z.
Proof.
  destruct x as [| | | neg ds n]; simpl; try done; [by intros _ [= <-] |].
  intros (Hne & _ & _). destruct (_ <=? n) eqn:Hk; [| done].
  apply Z.leb_le in Hk. intros [= <-]. unfold finite_trunc.
  assert (0 < length ds)%nat by (destruct ds; [done | simpl; lia]).
  rewrite (proj2 (Z.leb_gt n 0)) by lia.
  by rewrite (proj2 (Z.leb_le _ n)) by done.
Qed.

(** ** The level *)

Lemma validLevel_parseInt level n :
  Level.parseInt level = Ok n ->
  Level.validLevel level = Ok (clamp_level (default 0 n)).
Proof.
  unfold Level.validLevel, Level.or_two, clamp_level. intros ->.
  by destruct n.
Qed.

Lemma validLevel_text level L :
  prints_as level L ->
  Level.validLevel level
  = Ok (clamp_level (default 0 (Level.parseInt_string L))).
Proof.
  intros HL. apply validLevel_parseInt. unfold Level.parseInt.
  unfold prints_as in HL. by rewrite HL.
Qed.





Lemma sanitizeHtml_not_printable v :
  ~ printable v -> Sanitize.sanitizeHtml v = Err TypeError.
Proof.
  intros H. apply not_printable in H. unfold Sanitize.sanitizeHtml.
  destruct v as [| | [] | | | |]; try done;
    change (to_string ?v) with (to_string v) in H;
    unfold truthy; cbn [negb]; by rewrite H.
Qed.



(** * The renderers *)

(** ** The errors that a renderer raises *)

Lemma member_error v k e : member v k = Err e -> e = TypeError.
Proof. destruct v; simpl; congruence. Qed.

Lemma or_text_error v d e : or_text v d = Err e -> e = TypeError.
Proof.
  unfold or_text. destruct (truthy v); [apply to_string_error | done].
Qed.

Lemma validLevel_error v e : Level.validLevel v = Err e -> e = TypeError.
Proof.
  unfold Level.validLevel, Level.parseInt.
  destruct (to_string v) as [s | e'] eqn:Hv; [done |].
  cbn [rbind]. intros [= <-]. by apply to_string_error in Hv.
Qed.

Lemma external_error {A} (o : option A) e :
  external o = Err e -> e = ExternalError.
Proof. destruct o; simpl; congruence. Qed.

Lemma map_index_error {A B} (f : A -> nat -> result B) index l e
    (P : error -> Prop) :
  (forall x i e, f x i = Err e -> P e) -> map_index f index l = Err e -> P e.
Proof.
  intros Hf. revert index. induction l as [|x l IH]; intros index; [done |].
  cbn [map_index].
  destruct (f x index) as [y | e'] eqn:Hx; cbn [rbind].
  - destruct (map_index f (S index) l) eqn:Hl; cbn [rbind]; [done |].
    intros [= <-]. by apply (IH (S index)).
  - intros [= <-]. by apply Hf in Hx.
Qed.

(** The errors of an expression are among those that [P] holds of, when
    those of its steps are: [leaf] settles the steps. *)
Ltac raises P leaf :=
  cbv beta zeta;
  lazymatch goal with
  | |- rbind _ _ = Err _ -> _ =>
      apply (rbind_error _ _ _ P); raises P leaf
  | |- string_value _ = Err _ -> _ =>
      unfold string_value; raises P leaf
  | |- map_result _ _ = Err _ -> _ =>
      apply (map_result_error _ _ _ P); raises P leaf
  | |- map_index _ _ _ = Err _ -> _ =>
      apply (map_index_error _ _ _ _ P); raises P leaf
  | |- Ok _ = Err _ -> _ => discriminate
  | |- (if ?c then _ else _) = Err _ -> _ => destruct c; raises P leaf
  | |- match ?x with _ => _ end = Err _ -> _ => destruct x; raises P leaf
  | |- _ = Err _ -> _ => solve [leaf]
  | |- forall _, _ => intro; raises P leaf
  end.

Ltac type_error_step :=
  first [ apply to_string_error | apply member_error | apply or_text_error
        | apply validLevel_error | apply array_join_error
        | apply sanitizeHtml_error | congruence ].

Ltac html_error_step :=
  let Hx := fresh "Hx" in
  intros Hx;
  first [ apply external_error in Hx; by right
        | left; revert Hx; type_error_step ].

Lemma switch_cases {A} (v : value) (cases : list (string * A)) dflt :
  switch v cases dflt = dflt \/ switch v cases dflt ∈ cases.*2.
Proof.
  unfold switch. destruct (find _ cases) as [c |] eqn:Hf; [| by left].
  right. apply find_some in Hf as [Hin _].
  apply list_elem_of_fmap. exists c. split; [done | by apply list_elem_of_In].
Qed.

(** A block renderer raises nothing but the host's TypeError (Markdown) or
    that and the error of a collaborator (HTML). *)
Lemma renderBlockToMarkdown_error block e :
  Markdown.renderBlockToMarkdown block = Err e -> e = TypeError.
Proof.
  unfold Markdown.renderBlockToMarkdown.
  apply (rbind_error _ _ _ (fun e => e = TypeError));
    [intros e'; apply member_error |].
  clear e. intros ty e.
  match goal with
  | |- switch ?v ?cs ?d = _ -> _ =>
      destruct (switch_cases v cs d) as [-> | Hin];
        [| revert Hin; generalize (switch v cs d); intros r Hin]
  end.
  { raises (fun e => e = TypeError) type_error_step. }
  cbn [fmap list_fmap snd] in Hin. rewrite !elem_of_cons, elem_of_nil in Hin.
  unfold Markdown.renderTextBlockToMarkdown,
    Markdown.renderHeadingBlockToMarkdown,
    Markdown.renderImageBlockToMarkdown,
    Markdown.renderCodeBlockToMarkdown,
    Markdown.renderListBlockToMarkdown,
    Markdown.renderQuoteBlockToMarkdown,
    Markdown.renderEmbedBlockToMarkdown in Hin.
  repeat (destruct Hin as [-> | Hin]; [| try done]);
    raises (fun e => e = TypeError) type_error_step.
Qed.

Lemma block_lines_error l e :
  Markdown.block_lines l = Err e -> e = TypeError.
Proof.
  induction l as [|b l IH]; [done |]. cbn [Markdown.block_lines].
  destruct (Markdown.renderBlockToMarkdown b) as [line | e'] eqn:Hline;
    cbn [rbind].
  - destruct (Markdown.block_lines l); cbn [rbind]; [done |].
    intros [= <-]. by apply IH.
  - intros [= <-]. by apply renderBlockToMarkdown_error in Hline.
Qed.

Lemma metadata_lines_error `{Collaborators} metadata e :
  Markdown.metadata_lines metadata = Err e -> e = TypeError.
Proof.
  unfold Markdown.metadata_lines.
  raises (fun e => e = TypeError) type_error_step.
Qed.

Lemma renderBlock_error `{Collaborators} block e :
  Html.renderBlock block = Err e -> html_error e.
Proof.
  unfold Html.renderBlock.
  apply (rbind_error _ _ _ html_error);
    [intros e' ?%member_error; by left |]. clear e. intros id e.
  apply (rbind_error _ _ _ html_error);
    [intros e' ?%member_error; by left |]. clear e. intros ty e.
  apply (rbind_error _ _ _ html_error);
    [intros e' ?%to_string_error; by left |]. clear e. intros typeText e.
  apply (rbind_error _ _ _ html_error);
    [intros e' ?%to_string_error; by left |]. clear e. intros idText e.
  cbv zeta.
  apply (rbind_error _ _ _ html_error); [| done]. clear e. intros e.
  match goal with
  | |- switch ?v ?cs ?d = _ -> _ =>
      destruct (switch_cases v cs d) as [-> | Hin];
        [| revert Hin; generalize (switch v cs d); intros r Hin]
  end.
  { done. }
  cbn [fmap list_fmap snd] in Hin. rewrite !elem_of_cons, elem_of_nil in Hin.
  unfold Html.renderTextBlock, Html.renderHeadingBlock, Html.renderImageBlock,
    Html.renderCodeBlock, Html.renderListBlock, Html.renderQuoteBlock,
    Html.renderEmbedBlock in Hin.
  repeat (destruct Hin as [-> | Hin]; [| try done]);
    raises html_error html_error_step.
Qed.

(** ** Blocks of an unknown type *)

Lemma switch_unknown {A} (ty : value) (cases : list (string * A)) dflt :
  ~ allowed_type ty -> cases.*1 = Block.ALLOWED_TYPES ->
  switch ty cases dflt = dflt.
Proof.
  intros Hna Hlabels. unfold switch.
  destruct (find _ cases) as [c |] eqn:Hf; [| done].
  apply find_some in Hf as [Hin Heq]. destruct Hna.
  destruct ty; try done. simpl in Heq. apply bool_decide_eq_true in Heq.
  exists s. split; [done |]. rewrite Heq, <- Hlabels.
  apply list_elem_of_fmap. exists c. split; [done |].
  by apply list_elem_of_In.
Qed.

Lemma renderBlockToMarkdown_unknown (block : obj) :
  unknown_type block ->
  Markdown.renderBlockToMarkdown (VObj block)
  = (type <-r to_string (get block "type");; Ok (VStr (md_placeholder type))).
Proof.
  intros Hu. unfold Markdown.renderBlockToMarkdown. cbn [member rbind].
  fold (get block "type"). by rewrite switch_unknown.
Qed.

Lemma renderBlock_unknown `{Collaborators} (block : obj) :
  unknown_type block ->
  (forall T I, prints_as (get block "type") T -> prints_as (get block "id") I ->
     exists openWrapper,
       Html.renderBlock (VObj block)
       = Ok (openWrapper +:+ html_placeholder T +:+ "</div>")) /\
  (~ printable (get block "type") \/ ~ printable (get block "id") ->
   Html.renderBlock (VObj block) = Err TypeError).
Proof.
  intros Hu. unfold Html.renderBlock. cbn [member rbind].
  fold (get block "type") (get block "id"). split.
  - intros T I HT HI. unfold prints_as in HT, HI. rewrite HT, HI.
    cbn [rbind]. rewrite switch_unknown by done. cbn [rbind]. by eexists.
  - destruct (printable_dec (get block "type")) as [[T HT] | HT].
    + intros [Hn | Hn]; [destruct Hn; by exists T |].
      apply not_printable in Hn. by rewrite HT, Hn.
    + intros _. by rewrite HT.
Qed.

(** ** The document renderers *)

Lemma blocks_sequence_dec article :
  (exists l, blocks_sequence article l) \/ ~ (exists l, blocks_sequence article l).
Proof.
  unfold blocks_sequence.
  destruct (member article "blocks") as [[] |];
    (left; by eexists) || (right; intros [? ?]; congruence).
Qed.

Lemma blocks_sequence_object article l :
  blocks_sequence article l ->
  exists m, article = VObj m /\ get m "blocks" = VArr l.
Proof.
  unfold blocks_sequence. destruct article; simpl; try done.
  intros [= Hb]. by exists m.
Qed.

Lemma renderToMarkdown_refused `{Collaborators} article :
  ~ (exists l, blocks_sequence article l) ->
  Markdown.renderToMarkdown article = Err InvalidArticleStructureError.
Proof.
  unfold blocks_sequence, Markdown.renderToMarkdown. intros Hn.
  destruct (truthy article) eqn:Ht; cbn [negb]; [| done].
  destruct article; try done; cbn [member rbind] in *;
    try by rewrite ?orb_true_r.
  fold (get m "blocks") in *. destruct (get m "blocks"); cbn [isArray negb];
    rewrite ?orb_true_r; try done.
  destruct Hn. by eexists.
Qed.

Lemma renderToHTML_refused `{Collaborators} article :
  ~ (exists l, blocks_sequence article l) ->
  Html.renderToHTML article = Err InvalidArticleStructureError.
Proof.
  unfold blocks_sequence, Html.renderToHTML. intros Hn.
  destruct (truthy article) eqn:Ht; cbn [negb]; [| done].
  destruct article; try done; cbn [member rbind] in *;
    try by rewrite ?orb_true_r.
  fold (get m "blocks") in *. destruct (get m "blocks"); cbn [isArray negb];
    rewrite ?orb_true_r; try done.
  destruct Hn. by eexists.
Qed.

Lemma renderToMarkdown_accepted `{Collaborators} (m : obj) l :
  get m "blocks" = VArr l ->
  Markdown.renderToMarkdown (VObj m) =
  (title <-r to_string (get m "title");;
   meta <-r Markdown.metadata_lines (get m "metadata");;
   body <-r Markdown.block_lines l;;
   array_join nl ([VStr ("# " +:+ title); VStr ""] ++ (VStr <$> meta) ++ body)).
Proof.
  intros Hb. unfold Markdown.renderToMarkdown. cbn [truthy negb member rbind].
  fold (get m "blocks") (get m "title") (get m "metadata"). by rewrite Hb.
Qed.

Lemma renderToHTML_accepted `{Collaborators} (m : obj) l :
  get m "blocks" = VArr l ->
  exists front : string -> list string,
    Html.renderToHTML (VObj m) =
    (title <-r Sanitize.sanitizeHtml (get m "title");;
     body <-r map_result Html.renderBlock l;;
     Ok (join nl (front title ++ body ++ ["</article>"]))).
Proof.
  intros Hb. unfold Html.renderToHTML. cbn [truthy negb member rbind].
  fold (get m "blocks") (get m "title"). rewrite Hb.
  cbn [truthy isArray negb orb array_elements].
  by exists (fun title =>
    ["<article class=" +:+ q +:+ "blockdoc-article" +:+ q +:+ ">";
     "<h1 class=" +:+ q +:+ "blockdoc-title" +:+ q +:+ ">" +:+
     title +:+ "</h1>"]).
Qed.

(** The errors of the document renderers. *)
Lemma renderToMarkdown_error `{Collaborators} (m : obj) l e :
  get m "blocks" = VArr l ->
  Markdown.renderToMarkdown (VObj m) = Err e -> e = TypeError.
Proof.
  intros Hb. rewrite (renderToMarkdown_accepted m l Hb).
  apply (rbind_error _ _ _ (fun e => e = TypeError));
    [intros e'; apply to_string_error |]. clear e. intros title e.
  apply (rbind_error _ _ _ (fun e => e = TypeError));
    [intros e'; apply metadata_lines_error |]. clear e. intros meta e.
  apply (rbind_error _ _ _ (fun e => e = TypeError));
    [intros e'; apply block_lines_error |]. clear e. intros body e.
  apply array_join_error.
Qed.

Lemma renderToHTML_error `{Collaborators} (m : obj) l e :
  get m "blocks" = VArr l ->
  Html.renderToHTML (VObj m) = Err e -> html_error e.
Proof.
  intros Hb. destruct (renderToHTML_accepted m l Hb) as [front ->].
  apply (rbind_error _ _ _ html_error);
    [intros e' ?%sanitizeHtml_error; by left |]. clear e. intros title e.
  apply (rbind_error _ _ _ html_error); [| done]. intros e'.
  apply map_result_error. intros x e2. apply renderBlock_error.
Qed.

Lemma block_lines_fails l b e :
  b ∈ l -> Markdown.renderBlockToMarkdown b = Err e ->
  exists e', Markdown.block_lines l = Err e'.
Proof.
  induction l as [|y l IH]; [by intros ?%elem_of_nil |].
  intros Hin Hx. cbn [Markdown.block_lines].
  destruct (Markdown.renderBlockToMarkdown y) as [z | e'] eqn:Hy;
    cbn [rbind]; [| by eexists].
  apply elem_of_cons in Hin as [-> | Hin]; [congruence |].
  destruct (IH Hin Hx) as [e' ->]. by eexists.
Qed.

(** A block that raises makes the rendering of the document raise. *)
Lemma renderToMarkdown_block_fails `{Collaborators} article l b e :
  blocks_sequence article l -> b ∈ l ->
  Markdown.renderBlockToMarkdown b = Err e ->
  Markdown.renderToMarkdown article = Err TypeError.
Proof.
  intros Hl Hin Hb. apply blocks_sequence_object in Hl as (m & -> & Hm).
  destruct (Markdown.renderToMarkdown (VObj m)) as [out | e'] eqn:Hr.
  - exfalso. rewrite (renderToMarkdown_accepted m l Hm) in Hr.
    apply rbind_Ok in Hr as (title & _ & Hr).
    apply rbind_Ok in Hr as (meta & _ & Hr).
    apply rbind_Ok in Hr as (body & Hbody & _).
    destruct (block_lines_fails l b e Hin Hb). congruence.
  - f_equal. by apply (renderToMarkdown_error m l).
Qed.

Lemma renderToHTML_block_fails `{Collaborators} article l b e :
  blocks_sequence article l -> b ∈ l ->
  Html.renderBlock b = Err e ->
  exists e', Html.renderToHTML article = Err e' /\ html_error e'.
Proof.
  intros Hl Hin Hb. apply blocks_sequence_object in Hl as (m & -> & Hm).
  destruct (Html.renderToHTML (VObj m)) as [out | e'] eqn:Hr.
  - exfalso. destruct (renderToHTML_accepted m l Hm) as [front Hfront].
    rewrite Hfront in Hr.
    apply rbind_Ok in Hr as (title & _ & Hr).
    apply rbind_Ok in Hr as (body & Hbody & _).
    destruct (map_result_fails Html.renderBlock l b e Hin Hb). congruence.
  - exists e'. split; [done |]. by apply (renderToHTML_error m l).
Qed.

(** The lines of the blocks, as they are joined. *)
Lemma block_lines_outs (l : list value) outs :
  Forall2 md_renders l outs ->
  exists body,
    Markdown.block_lines l = Ok body /\
    map_result element_string body
    = Ok (concat ((fun s => [s; ""]) <$> outs)).
Proof.
  induction 1 as [| b s l outs (line & Hb & Hs) _ (body & Hbody & Hjoin)].
  - by exists [].
  - exists (line :: VStr "" :: body). cbn [Markdown.block_lines].
    rewrite Hb, Hbody. split; [done |].
    cbn [map_result]. rewrite Hs. cbn [rbind element_string to_string].
    by rewrite Hjoin.
Qed.

Lemma map_result_app {A B} (f : A -> result B) l1 l2 o1 o2 :
  map_result f l1 = Ok o1 -> map_result f l2 = Ok o2 ->
  map_result f (l1 ++ l2) = Ok (o1 ++ o2).
Proof.
  intros H1%map_result_Ok H2%map_result_Ok. apply map_result_outs.
  by apply Forall2_app.
Qed.

Lemma map_result_strings (ss : list string) :
  map_result element_string (VStr <$> ss) = Ok ss.
Proof.
  induction ss as [|s ss IH]; [done |]. cbn [fmap list_fmap map_result].
  cbn [element_string to_string rbind].
  change (list_fmap string value VStr ss) with (VStr <$> ss).
  by rewrite IH.
Qed.

Lemma array_join_printable sep l :
  printable (VArr l) -> exists s, array_join sep l = Ok s.
Proof.
  intros [s Hs]. rewrite to_string_array in Hs. unfold array_join in *.
  apply rbind_Ok in Hs as (strs & -> & _). by eexists.
Qed.

Lemma metadata_lines_printable `{Collaborators} metadata :
  metadata_printable metadata ->
  exists meta, Markdown.metadata_lines metadata = Ok meta.
Proof.
  intros Hp. unfold Markdown.metadata_lines.
  destruct (truthy metadata) eqn:Ht; [| by eexists].
  assert (forall k, exists v, member metadata k = Ok v) as Hm.
  { intros k. destruct metadata; try done; by eexists. }
  destruct (Hm "author") as [author Ha], (Hm "publishedDate") as [date Hd],
    (Hm "tags") as [tags Htags].
  rewrite Ha, Hd, Htags. cbn [rbind].
  destruct (Hp "author" author) as [a Hpa];
    [repeat first [apply list_elem_of_here | apply list_elem_of_further]
    | done |].
  destruct (Hp "publishedDate" date) as [d Hpd];
    [repeat first [apply list_elem_of_here | apply list_elem_of_further]
    | done |].
  assert (printable tags) as Hpt.
  { apply (Hp "tags");
      [repeat first [apply list_elem_of_here | apply list_elem_of_further]
      | done]. }
  rewrite Hpa, Hpd.
  destruct (truthy author), (truthy date); cbn [rbind];
    destruct tags as [| | | | | [|t ts] |]; try (by eexists);
    destruct (array_join_printable ", " (t :: ts) Hpt) as [s ->];
    by eexists.
Qed.

Lemma renders_all {A} (f : value -> result A) (l : list value) :
  (forall b, b ∈ l -> exists s, f b = Ok s) ->
  exists outs, Forall2 (fun b s => f b = Ok s) l outs.
Proof.
  induction l as [|b l IH]; intros Hall; [by exists [] |].
  destruct (Hall b) as [s Hs]; [left |].
  destruct IH as [outs Houts]; [intros b' Hb'; apply Hall; by right |].
  exists (s :: outs). by constructor.
Qed.

Lemma md_renders_all (l : list value) :
  (forall b, b ∈ l -> exists s, md_renders b s) ->
  exists outs, Forall2 md_renders l outs.
Proof.
  induction l as [|b l IH]; intros Hall; [by exists [] |].
  destruct (Hall b) as [s Hs]; [left |].
  destruct IH as [outs Houts]; [intros b' Hb'; apply Hall; by right |].
  exists (s :: outs). by constructor.
Qed.

Lemma absent_no_blocks article :
  absent article -> ~ (exists l, blocks_sequence article l).
Proof. by intros [-> | ->] [l Hl]. Qed.

Lemma md_renders_unknown (m : obj) T :
  unknown_type m -> prints_as (get m "type") T ->
  md_renders (VObj m) (md_placeholder T).
Proof.
  intros Hu HT. exists (VStr (md_placeholder T)). split; [| done].
  rewrite renderBlockToMarkdown_unknown by done.
  unfold prints_as in HT. by rewrite HT.
Qed.

Lemma allowed_or_unknown (m : obj) :
  allowed_type (get m "type") \/ unknown_type m.
Proof.
  unfold unknown_type.
  destruct (Block.includes Block.ALLOWED_TYPES (get m "type")) eqn:Hty.
  - left. by apply includes_allowed.
  - right. rewrite <- includes_allowed. by rewrite Hty.
Qed.

(** C7, as amended. Each renderer raises InvalidArticleStructureError
    exactly when the article is absent or its blocks are not a sequence.
    In an article whose blocks are a sequence, a block object of an
    unknown type renders on its own as the placeholder that names the
    string form T of the type, in Markdown when the type converts to a
    string and in HTML, inside the wrapper of the block, when the type
    and the id do; when the type does not convert, the block and the
    document raise TypeError in Markdown and the block raises TypeError
    in HTML, where the document raises that or the error of a
    collaborator; so it is in HTML when the id does not convert.
    Rendering the document to Markdown succeeds when the title and the
    printed fields of the metadata convert to strings, every block is an
    object, every block of a known type renders on its own to a line
    that converts to a string and the type of every other block
    converts; rendering it to HTML succeeds when the title converts,
    every block is an object, every block of a known type renders on its
    own and the type and id of every other block convert. The output
    then consists of the renderings of the blocks in order, each block
    rendered as on its own, and that of a block of an unknown type is
    the placeholder. *)
Theorem rendering_unknown_types `{Collaborators} (article : value) :
  (Markdown.renderToMarkdown article = Err InvalidArticleStructureError <->
   absent article \/ ~ (exists l, blocks_sequence article l)) /\
  (Html.renderToHTML article = Err InvalidArticleStructureError <->
   absent article \/ ~ (exists l, blocks_sequence article l)) /\
  (forall l m,
     blocks_sequence article l -> VObj m ∈ l -> unknown_type m ->
     (forall T, prints_as (get m "type") T ->
        Markdown.renderBlockToMarkdown (VObj m) = Ok (VStr (md_placeholder T)) /\
        forall I, prints_as (get m "id") I ->
          exists openWrapper,
            Html.renderBlock (VObj m)
            = Ok (openWrapper +:+ html_placeholder T +:+ "</div>")) /\
     (~ printable (get m "type") ->
        Markdown.renderBlockToMarkdown (VObj m) = Err TypeError /\
        Markdown.renderToMarkdown article = Err TypeError) /\
     (~ printable (get m "type") \/ ~ printable (get m "id") ->
        Html.renderBlock (VObj m) = Err TypeError /\
        exists e, Html.renderToHTML article = Err e /\ html_error e)) /\
  (forall l,
     blocks_sequence article l ->
     (forall t, member article "title" = Ok t -> printable t) ->
     (forall md, member article "metadata" = Ok md -> metadata_printable md) ->
     (forall b, b ∈ l ->
        exists m, b = VObj m /\
          (allowed_type (get m "type") -> exists s, md_renders b s) /\
          (unknown_type m -> printable (get m "type"))) ->
     exists md_front md_outs,
       Markdown.renderToMarkdown article
       = Ok (join nl (md_front ++ concat ((fun s => [s; ""]) <$> md_outs))) /\
       Forall2 md_renders l md_outs /\
       forall i m T, l !! i = Some (VObj m) -> unknown_type m ->
         prints_as (get m "type") T ->
         md_outs !! i = Some (md_placeholder T)) /\
  (forall l,
     blocks_sequence article l ->
     (forall t, member article "title" = Ok t -> printable t) ->
     (forall b, b ∈ l ->
        exists m, b = VObj m /\
          (allowed_type (get m "type") -> exists s, Html.renderBlock b = Ok s) /\
          (unknown_type m ->
           printable (get m "type") /\ printable (get m "id"))) ->
     exists html_front html_outs,
       Html.renderToHTML article
       = Ok (join nl (html_front ++ html_outs ++ ["</article>"])) /\
       Forall2 (fun b s => Html.renderBlock b = Ok s) l html_outs /\
       forall i m T, l !! i = Some (VObj m) -> unknown_type m ->
         prints_as (get m "type") T ->
         exists openWrapper,
           html_outs !! i
           = Some (openWrapper +:+ html_placeholder T +:+ "</div>")).
Proof.
  split; [| split; [| split; [| split]]].
  - split.
    + intros Hr. destruct (blocks_sequence_dec article) as [[l Hl] | Hn];
        [| by right].
      apply blocks_sequence_object in Hl as (m & -> & Hb).
      by apply (renderToMarkdown_error m l) in Hr.
    + intros [Ha%absent_no_blocks | Hn]; by apply renderToMarkdown_refused.
  - split.
    + intros Hr. destruct (blocks_sequence_dec article) as [[l Hl] | Hn];
        [| by right].
      apply blocks_sequence_object in Hl as (m & -> & Hb).
      apply (renderToHTML_error m l) in Hr; [| done]. by destruct Hr.
    + intros [Ha%absent_no_blocks | Hn]; by apply renderToHTML_refused.
  - intros l m Hl Hin Hu. destruct (renderBlock_unknown m Hu) as [Hok Herr].
    split; [| split].
    + intros T HT. split; [| intros I HI; exact (Hok T I HT HI)].
      rewrite renderBlockToMarkdown_unknown by done.
      unfold prints_as in HT. by rewrite HT.
    + intros Hn.
      assert (Markdown.renderBlockToMarkdown (VObj m) = Err TypeError) as Hb.
      { rewrite renderBlockToMarkdown_unknown by done.
        apply not_printable in Hn. by rewrite Hn. }
      split; [done |]. by apply (renderToMarkdown_block_fails article l _ _ Hl Hin Hb).
    + intros Hn. specialize (Herr Hn). split; [done |].
      by apply (renderToHTML_block_fails article l _ _ Hl Hin Herr).
  - intros l Hl Htitle Hmeta Hblocks.
    apply blocks_sequence_object in Hl as (m & -> & Hb).
    destruct (Htitle (get m "title")) as [title Ht]; [done |].
    destruct (metadata_lines_printable (get m "metadata")) as [meta Hm];
      [by apply Hmeta |].
    destruct (md_renders_all l) as [md_outs Hmd].
    { intros b Hin. destruct (Hblocks b Hin) as (mb & -> & Hknown & Hunk).
      destruct (allowed_or_unknown mb) as [Ha | Hu]; [by apply Hknown |].
      destruct (Hunk Hu) as [T HT]. exists (md_placeholder T).
      by apply md_renders_unknown. }
    destruct (block_lines_outs l md_outs Hmd) as (body & Hbody & Hjoin).
    exists (["# " +:+ title; ""] ++ meta), md_outs.
    split; [| split; [done |]].
    + rewrite (renderToMarkdown_accepted m l Hb), Ht, Hm, Hbody.
      cbn [rbind]. unfold array_join. rewrite app_assoc.
      rewrite (map_result_app element_string
                 ([VStr ("# " +:+ title); VStr ""] ++ (VStr <$> meta)) body
                 (["# " +:+ title; ""] ++ meta)
                 (concat ((fun s => [s; ""]) <$> md_outs))).
      * done.
      * by apply (map_result_strings (["# " +:+ title; ""] ++ meta)).
      * done.
    + intros i mb T Hi Hu HT.
      destruct (Forall2_lookup_l _ _ _ _ _ Hmd Hi) as (s & -> & Hs).
      destruct Hs as (line & Hline & Hs).
      rewrite renderBlockToMarkdown_unknown in Hline by done.
      unfold prints_as in HT. rewrite HT in Hline. cbn [rbind] in Hline.
      injection Hline as <-. cbn [element_string to_string] in Hs.
      congruence.
  - intros l Hl Htitle Hblocks.
    apply blocks_sequence_object in Hl as (m & -> & Hb).
    destruct (sanitizeHtml_printable (get m "title")) as [title Ht];
      [by apply Htitle |].
    destruct (renders_all Html.renderBlock l) as [html_outs Hhtml].
    { intros b Hin. destruct (Hblocks b Hin) as (mb & -> & Hknown & Hunk).
      destruct (allowed_or_unknown mb) as [Ha | Hu]; [by apply Hknown |].
      destruct (Hunk Hu) as [[T HT] [I HI]].
      destruct (proj1 (renderBlock_unknown mb Hu) T I HT HI) as [w Hw].
      by eexists. }
    destruct (renderToHTML_accepted m l Hb) as [front Hfront].
    exists (front title), html_outs.
    split; [| split; [done |]].
    + by rewrite Hfront, Ht, (map_result_outs _ l html_outs Hhtml).
    + intros i mb T Hi Hu HT.
      destruct (Forall2_lookup_l _ _ _ _ _ Hhtml Hi) as (s & -> & Hs).
      destruct (printable_dec (get mb "id")) as [[I HI] | HI].
      * destruct (proj1 (renderBlock_unknown mb Hu) T I HT HI) as [w Hw].
        exists w. congruence.
      * rewrite (proj2 (renderBlock_unknown mb Hu)) in Hs; [done |].
        right. by apply not_printable.
Qed.

(** An article with a block of an unknown type and a text block, rendered
    with the stand-in collaborators. *)
Lemma rendering_unknown_types_witness :
  blocks_sequence article_unknown_and_text
    [VObj unknown_block; VObj (text_data "a" "hi")] /\
  (exists md_front md_outs,
    @Markdown.renderToMarkdown simple_collaborators article_unknown_and_text
    = Ok (join nl (md_front ++ concat ((fun s => [s; ""]) <$> md_outs))) /\
    Forall2 md_renders
      [VObj unknown_block; VObj (text_data "a" "hi")] md_outs /\
    forall i m T,
      [VObj unknown_block; VObj (text_data "a" "hi")] !! i = Some (VObj m) ->
      unknown_type m -> prints_as (get m "type") T ->
      md_outs !! i = Some (md_placeholder T)) /\
  (exists html_front html_outs,
    @Html.renderToHTML simple_collaborators article_unknown_and_text
    = Ok (join nl (html_front ++ html_outs ++ ["</article>"])) /\
    Forall2 (fun b s => @Html.renderBlock simple_collaborators b = Ok s)
      [VObj unknown_block; VObj (text_data "a" "hi")] html_outs /\
    forall i m T,
      [VObj unknown_block; VObj (text_data "a" "hi")] !! i = Some (VObj m) ->
      unknown_type m -> prints_as (get m "type") T ->
      exists openWrapper,
        html_outs !! i = Some (openWrapper +:+ html_placeholder T +:+ "</div>")).
Proof.
  split; [reflexivity |].
  destruct (@rendering_unknown_types simple_collaborators
              article_unknown_and_text) as (_ & _ & _ & Hmd & Hhtml).
  split.
  - apply Hmd; [reflexivity | | |].
    + intros t [= <-]. by eexists.
    + intros md [= <-] k v _ Hm. discriminate Hm.
    + intros b Hin. apply elem_of_cons in Hin as [-> | Hin].
      * exists unknown_block. split; [reflexivity |].
        split; [| intros _; by eexists]. intros _.
        eexists. eexists. split; reflexivity.
      * apply list_elem_of_singleton in Hin as ->.
        exists (text_data "a" "hi"). split; [reflexivity |].
        split; [| intros _; by eexists]. intros _.
        eexists. eexists. split; reflexivity.
  - apply Hhtml; [reflexivity | |].
    + intros t [= <-]. by eexists.
    + intros b Hin. apply elem_of_cons in Hin as [-> | Hin].
      * exists unknown_block. split; [reflexivity |].
        split; [intros _; eexists; reflexivity |].
        intros _. split; by eexists.
      * apply list_elem_of_singleton in Hin as ->.
        exists (text_data "a" "hi"). split; [reflexivity |].
        split; [intros _; eexists; reflexivity |].
        intros _. split; by eexists.
Defined.

Example renderToMarkdown_unknown_and_text :
  @Markdown.renderToMarkdown simple_collaborators article_unknown_and_text
  = Ok ("# T" +:+ nl +:+ nl +:+ "[Unknown block type: bogus]" +:+ nl +:+ nl
        +:+ "hi" +:+ nl).
Proof. by vm_compute. Qed.

(** A text block without content is an empty line of the Markdown. *)
Example renderToMarkdown_text_without_content :
  Markdown.renderBlockToMarkdown (VObj text_without_content) = Ok VUndefined /\
  @Markdown.renderToMarkdown simple_collaborators article_text_without_content
  = Ok ("# T" +:+ nl +:+ nl +:+ nl).
Proof. split; by vm_compute. Qed.

(** C7 fails as stated: an article whose blocks are a sequence and that
    holds a block of an unknown type is not rendered when another block
    raises; a quote block without content makes the Markdown renderer
    raise the TypeError of [content.split], and the HTML renderer the
    error of the converter. Nor is it rendered when the unknown type is
    an object that does not convert to a string: both renderers raise
    the TypeError of the conversion. *)
Lemma rendering_fails_on_another_block :
  blocks_sequence article_unknown_and_quote
    [VObj unknown_block; VObj quote_without_content] /\
  unknown_type unknown_block /\
  (forall C : Collaborators,
     @Markdown.renderToMarkdown C article_unknown_and_quote = Err TypeError) /\
  @Html.renderToHTML simple_collaborators article_unknown_and_quote
  = Err ExternalError /\
  blocks_sequence article_unknown_unprintable
    [VObj unknown_unprintable_block] /\
  unknown_type unknown_unprintable_block /\
  (forall C : Collaborators,
     @Markdown.renderToMarkdown C article_unknown_unprintable = Err TypeError /\
     @Html.renderToHTML C article_unknown_unprintable = Err TypeError).
Proof.
  split; [reflexivity |]. split.
  { unfold unknown_type. rewrite <- includes_allowed. by vm_compute. }
  split; [intros C; by vm_compute |]. split; [by vm_compute |].
  split; [reflexivity |]. split.
  { unfold unknown_type. rewrite <- includes_allowed. by vm_compute. }
  intros C. split; by vm_compute.
Qed.

(** * Serialization *)

Lemma block_projection_fixpoint b :
  block_projection b ->
  exists block, Block.new (VObj b) = Ok block /\ Block.toJSON block = b.
Proof.
  intros (data & blk & Hnew & <-).
  destruct (Block_new_not_object _ _ Hnew) as [m ->].
  by apply (block_toJSON_fixpoint m).
Qed.

Lemma ids_distinct_app_cons acc b bs :
  ids_distinct (acc ++ b :: bs) ->
  Forall (fun x => strict_eq (get x "id") (get b "id") = false) acc.
Proof.
  intros Hd.
  apply (ids_distinct_Permutation _ (b :: acc ++ bs)) in Hd;
    [| by rewrite Permutation_middle].
  apply ids_distinct_cons in Hd as [Hd _].
  by apply Forall_app in Hd as [Hd _].
Qed.

(** Loading stored blocks one at a time through [addBlock] stores them
    again as they are. *)
Lemma forEach_addBlock_stored t m bs acc :
  ids_distinct (acc ++ bs) -> Forall block_projection bs ->
  Document.forEach
    (fun block => Document.bind (Document.addBlock block)
                    (fun _ => Document.ret tt))
    (VObj <$> bs) (Document.mkDocument (Document.mkArticle t m acc))
  = (Ok tt, Document.mkDocument (Document.mkArticle t m (acc ++ bs))).
Proof.
  revert acc. induction bs as [|b bs IH]; intros acc Hd Hp.
  - by rewrite app_nil_r.
  - apply Forall_cons in Hp as [Hb Hp].
    cbn [fmap list_fmap Document.forEach].
    unfold Document.bind at 1. unfold Document.bind at 1.
    rewrite addBlock_unfold. cbn [member].
    fold (get b "id").
    cbn [Document.article Document.blocks Document.title Document.metadata].
    assert (find (Document.has_id (get b "id")) acc = None) as ->.
    { apply find_has_id_None. by apply (ids_distinct_app_cons acc b bs). }
    destruct (block_projection_fixpoint b Hb) as (blk & -> & ->).
    unfold Document.ret at 1.
    rewrite (IH (acc ++ [b])); [| by rewrite <- app_assoc | done].
    by rewrite <- app_assoc.
Qed.

(** ** What is reachable *)

Lemma forEach_addBlock_projections l d r d' :
  Forall block_projection (Document.blocks (Document.article d)) ->
  Document.forEach
    (fun block => Document.bind (Document.addBlock block)
                    (fun _ => Document.ret tt)) l d = (r, d') ->
  Forall block_projection (Document.blocks (Document.article d')).
Proof.
  revert d. induction l as [|x l IH]; intros d Hd.
  - by intros [= _ <-].
  - cbn [Document.forEach]. unfold Document.bind at 1.
    unfold Document.bind at 1. rewrite addBlock_unfold.
    destruct (member x "id") as [id | e]; [| by intros [= _ <-]].
    destruct (find _ _); [by intros [= _ <-] |].
    destruct (Block.new x) as [blk | e] eqn:Hx; [| by intros [= _ <-]].
    unfold Document.ret at 1. apply IH. simpl.
    apply Forall_app. split; [done |]. constructor; [| done].
    by exists x, blk.
Qed.

Lemma reachable_projections d :
  reachable d -> Forall block_projection (Document.blocks (Document.article d)).
Proof.
  induction 1 as [options d Hnew | d x r d' _ IH Hop | d x p r d' _ IH Hop
                  | d id u r d' _ IH Hop | d id r d' _ IH Hop
                  | d id p r d' _ IH Hop].
  - unfold Document.new in Hnew.
    destruct (member options "title") as [t |]; [| done].
    destruct (member options "metadata") as [m |]; [| done].
    destruct (member options "blocks") as [bs |]; [| done].
    cbn [rbind] in Hnew.
    destruct (truthy _ && isArray _); [| by injection Hnew as <-].
    destruct (Document.with_default bs (VArr [])) as [| | | | | l |];
      try by injection Hnew as <-.
    destruct (Document.forEach _ l _) as [[u | e] d0] eqn:Hfe; [| done].
    injection Hnew as <-.
    eapply forEach_addBlock_projections; [| exact Hfe]. constructor.
  - rewrite addBlock_unfold in Hop.
    destruct (member x "id") as [id | e]; [| by injection Hop as _ <-].
    destruct (find _ _); [by injection Hop as _ <- |].
    destruct (Block.new x) as [blk | e] eqn:Hx; [| by injection Hop as _ <-].
    injection Hop as _ <-. simpl. apply Forall_app. split; [done |].
    constructor; [| done]. by exists x, blk.
  - rewrite insertBlock_unfold in Hop.
    destruct (member x "id") as [id | e]; [| by injection Hop as _ <-].
    destruct (find _ _); [by injection Hop as _ <- |].
    destruct (Block.new x) as [blk | e] eqn:Hx; [| by injection Hop as _ <-].
    cbv zeta in Hop. injection Hop as _ <-. simpl.
    apply Forall_app. split; [by apply Forall_take |].
    constructor; [by exists x, blk | by apply Forall_drop].
  - rewrite updateBlock_unfold in Hop. cbv zeta in Hop.
    destruct (findIndex _ _) as [i |];
      [| destruct (to_string id); by injection Hop as _ <-].
    destruct (Block.new _) as [blk | e] eqn:Hx; [| by injection Hop as _ <-].
    injection Hop as _ <-. simpl. apply Forall_insert; [done |].
    by eexists _, blk.
  - rewrite removeBlock_unfold in Hop.
    destruct (findIndex _ _) as [i |]; injection Hop as _ <-; [| done].
    simpl. by apply Forall_delete.
  - rewrite moveBlock_unfold in Hop. cbv zeta in Hop.
    destruct (findIndex _ _) as [i |] eqn:Hi; [| by injection Hop as _ <-].
    destruct (number_negative p || _); [by injection Hop as _ <- |].
    injection Hop as _ <-. simpl.
    apply findIndex_Some in Hi as (b & Hb & _). rewrite Hb. simpl.
    apply Forall_app. split; [by apply Forall_take, Forall_delete |].
    constructor; [| by apply Forall_drop, Forall_delete].
    by eapply Forall_lookup_1.
Qed.

Lemma toString_text d :
  json_representable d ->
  Document.toString d = Some (JSON.Text (Document.toJSON d)).
Proof.
  unfold json_representable, Document.toString, JSON.stringify. intros ->.
  done.
Qed.

Lemma member_three (t m bs : value) k :
  member (VObj (<["blocks" := bs]> (<["metadata" := m]>
                  (<["title" := t]> (∅ : obj))))) k
  = Ok (if decide (k = "blocks") then bs
        else if decide (k = "metadata") then m
        else if decide (k = "title") then t
        else VUndefined).
Proof.
  unfold member. f_equal.
  destruct (decide (k = "blocks")) as [-> | ?];
    [by rewrite lookup_insert_eq | rewrite lookup_insert_ne by done].
  destruct (decide (k = "metadata")) as [-> | ?];
    [by rewrite lookup_insert_eq | rewrite lookup_insert_ne by done].
  destruct (decide (k = "title")) as [-> | ?];
    [by rewrite lookup_insert_eq | rewrite lookup_insert_ne by done].
  by rewrite lookup_empty.
Qed.

(** The constructor on options whose blocks are stored blocks. *)
Lemma new_stored t m bs :
  JSON.is_undefined m = false ->
  ids_distinct bs -> Forall block_projection bs ->
  Document.new (VObj (<["blocks" := VArr (VObj <$> bs)]>
                        (<["metadata" := m]> (<["title" := t]> (∅ : obj)))))
  = Ok (Document.mkDocument (Document.mkArticle t m bs)).
Proof.
  intros Hm Hd Hp. unfold Document.new. rewrite !member_three.
  cbn [rbind]. rewrite !decide_True by done.
  rewrite !(decide_False (P := "title" = "blocks")) by done.
  rewrite !(decide_False (P := "title" = "metadata")) by done.
  rewrite !(decide_False (P := "metadata" = "blocks")) by done.
  rewrite !decide_True by done.
  unfold Document.with_default. rewrite Hm.
  cbn [JSON.is_undefined truthy isArray andb].
  by rewrite (forEach_addBlock_stored t m bs []).
Qed.

(** [fromJSON] on the object that [toJSON] returns. *)
Lemma fromJSON_toJSON d :
  truthy (Document.metadata (Document.article d)) = true ->
  ids_distinct (Document.blocks (Document.article d)) ->
  Forall block_projection (Document.blocks (Document.article d)) ->
  Document.fromJSON (Document.JsonObject (Document.toJSON d)) = Ok d.
Proof.
  destruct d as [[t m bs]]. simpl. intros Hm Hd Hp.
  unfold Document.fromJSON, Document.toJSON, Document.article_value.
  cbn [Document.article Document.title Document.metadata Document.blocks].
  unfold member at 1. rewrite lookup_singleton_eq. cbn [default rbind].
  unfold id. cbn [truthy negb]. rewrite !member_three. cbn [rbind].
  rewrite !decide_True by done.
  rewrite !(decide_False (P := "title" = "blocks")) by done.
  rewrite !(decide_False (P := "title" = "metadata")) by done.
  rewrite !(decide_False (P := "metadata" = "blocks")) by done.
  rewrite !decide_True by done.
  unfold Document.or_else. rewrite Hm. cbn [truthy].
  apply new_stored; [by destruct m | done | done].
Qed.

(** C3, as amended. For every document that the class can hold whose
    block ids are pairwise distinct, whose metadata is an object and whose
    values are all representable in JSON, [fromJSON(D.toString())]
    succeeds and gives a document equal to [D], with the same [toJSON()];
    every block is constructed again on the way. *)
Theorem fromJSON_toString_roundtrip (d : Document.BlockDocDocument) :
  reachable d ->
  ids_distinct (Document.blocks (Document.article d)) ->
  truthy (Document.metadata (Document.article d)) = true ->
  json_representable d ->
  exists text d',
    Document.toString d = Some text /\
    Document.fromJSON (Document.JsonString text) = Ok d' /\
    Document.toJSON d' = Document.toJSON d /\
    d' = d.
Proof.
  intros Hr Hd Hm Hj. exists (JSON.Text (Document.toJSON d)), d.
  split; [by apply toString_text |]. split; [| done].
  apply (fromJSON_toJSON d Hm Hd). by apply reachable_projections.
Qed.

Lemma fromJSON_toString_roundtrip_witness :
  exists text d',
    Document.toString doc_ab = Some text /\
    Document.fromJSON (Document.JsonString text) = Ok d' /\
    Document.toJSON d' = Document.toJSON doc_ab /\
    d' = doc_ab.
Proof.
  apply (fromJSON_toString_roundtrip doc_ab).
  - apply (reach_new (VObj options_ab)). by vm_compute.
  - simpl. repeat constructor.
  - reflexivity.
  - by vm_compute.
Defined.

(** C3 fails as stated: NaN is written as [null], so a document whose
    metadata holds NaN comes back with [null] in its place. *)
Lemma roundtrip_loses_NaN :
  Document.new (VObj options_nan) = Ok doc_nan /\
  exists text,
    Document.toString doc_nan = Some text /\
    Document.fromJSON (Document.JsonString text) = Ok doc_null /\
    Document.toJSON doc_null <> Document.toJSON doc_nan.
Proof.
  split; [by vm_compute |]. eexists. split; [by vm_compute |].
  split; [by vm_compute |].
  intros Heq.
  apply (f_equal (fun v => art <-r member v "article";;
                           meta <-r member art "metadata";;
                           member meta "score")) in Heq.
  vm_compute in Heq. discriminate.
Qed.

(** The document with two blocks of id b, which [updateBlock] leads to,
    is refused when it is loaded again. *)
Lemma roundtrip_refuses_duplicate_ids :
  (exists r, Document.updateBlock (VStr "a") change_id_to_b doc_ab
             = (Ok r, doc_bb)) /\
  exists text,
    Document.toString doc_bb = Some text /\
    Document.fromJSON (Document.JsonString text)
    = Err (DuplicateIdError (VStr "b")).
Proof.
  split; [eexists; by vm_compute |].
  eexists. split.
  - vm_compute. reflexivity.
  - vm_compute. reflexivity.
Qed.

(** * Further properties of the sanitizer *)

Lemma string_app_assoc (s t u : string) : (s +:+ t) +:+ u = s +:+ (t +:+ u).
Proof.
  induction s as [|c s IH]; [done |]. by rewrite !string_app_cons, IH.
Qed.

Lemma includes_char_app c s t :
  includes_char c (s +:+ t) = includes_char c s || includes_char c t.
Proof.
  induction s as [|a s IH]; [done |].
  rewrite string_app_cons. cbn [includes_char]. by rewrite IH, orb_assoc.
Qed.

Lemma special_cases a :
  Sanitize.is_special a = true ->
  (a = "&" \/ a = "<" \/ a = ">" \/ a = dquote \/ a = squote)%char.
Proof.
  unfold Sanitize.is_special, Sanitize.special_chars.
  rewrite bool_decide_eq_true, !elem_of_cons, elem_of_nil. tauto.
Qed.

Lemma replace_special_no_markup c s :
  c ∈ markup_chars -> includes_char c (Sanitize.replace_special s) = false.
Proof.
  intros Hc. induction s as [|a s IH]; [done |].
  rewrite replace_special_cons, includes_char_app, IH, orb_false_r.
  destruct (Sanitize.is_special a) eqn:Ha.
  - unfold markup_chars in Hc. rewrite !elem_of_cons, elem_of_nil in Hc.
    apply special_cases in Ha.
    destruct Ha as [-> | [-> | [-> | [-> | ->]]]];
      destruct Hc as [-> | [-> | [-> | [-> | []]]]]; by vm_compute.
  - cbn [includes_char]. rewrite orb_false_r. apply bool_decide_eq_false.
    intros ->. apply not_true_iff_false in Ha. apply Ha.
    unfold Sanitize.is_special. apply bool_decide_eq_true.
    unfold markup_chars in Hc. unfold Sanitize.special_chars.
    rewrite !elem_of_cons, elem_of_nil in *. tauto.
Qed.

(** X1 (sanitizeHtml): whatever the argument, the escaped text that is
    returned holds none of the characters <, >, double quote and single
    quote, so it cannot open or close a tag or end an attribute value. *)
Theorem sanitizeHtml_no_markup (html : value) (out : string) :
  Sanitize.sanitizeHtml html = Ok out ->
  Forall (fun c => ~ contains_char c out) markup_chars.
Proof.
  intros Hout. apply Forall_forall. intros c Hc.
  rewrite <- includes_char_contains.
  apply not_true_iff_false. unfold Sanitize.sanitizeHtml in Hout.
  destruct (negb (truthy html)); [by injection Hout as <- |].
  destruct (to_string html) as [s |]; [| done]. injection Hout as <-.
  by apply replace_special_no_markup.
Qed.

Lemma sanitizeHtml_no_markup_witness :
  Forall (fun c => ~ contains_char c "&lt;a href=&quot;x&quot;&gt;")
    markup_chars.
Proof.
  apply (sanitizeHtml_no_markup (VStr ("<a href=" +:+ q +:+ "x" +:+ q +:+ ">"))).
  reflexivity.
Defined.

Lemma entity_prefix_free a b x y :
  Sanitize.is_special a = true -> Sanitize.is_special b = true ->
  Sanitize.lookup_entity Sanitize.entity_map a +:+ x
  = Sanitize.lookup_entity Sanitize.entity_map b +:+ y ->
  a = b /\ x = y.
Proof.
  intros Ha Hb.
  apply special_cases in Ha. apply special_cases in Hb.
  destruct Ha as [-> | [-> | [-> | [-> | ->]]]];
    destruct Hb as [-> | [-> | [-> | [-> | ->]]]];
    vm_compute; intros H; try discriminate H; by injection H.
Qed.

Lemma entity_not_plain_char a b x y :
  Sanitize.is_special a = true -> Sanitize.is_special b = false ->
  Sanitize.lookup_entity Sanitize.entity_map a +:+ x <> String b y.
Proof.
  intros Ha Hb H.
  destruct (special_entity a Ha) as (e & He & _). rewrite He in H.
  rewrite string_app_cons in H. injection H as <- _. done.
Qed.

Lemma replace_special_injective s t :
  Sanitize.replace_special s = Sanitize.replace_special t -> s = t.
Proof.
  revert t. induction s as [|a s IH]; intros [|b t].
  - done.
  - rewrite replace_special_cons. intros H. exfalso.
    destruct (Sanitize.is_special b) eqn:Hb.
    + destruct (special_entity b Hb) as (e & He & _). rewrite He in H.
      by rewrite string_app_cons in H.
    + by rewrite string_app_cons in H.
  - rewrite replace_special_cons. intros H. exfalso.
    destruct (Sanitize.is_special a) eqn:Ha.
    + destruct (special_entity a Ha) as (e & He & _). rewrite He in H.
      by rewrite string_app_cons in H.
    + by rewrite string_app_cons in H.
  - rewrite !replace_special_cons.
    destruct (Sanitize.is_special a) eqn:Ha, (Sanitize.is_special b) eqn:Hb.
    + intros H. apply entity_prefix_free in H as [-> H]; [| done..].
      by rewrite (IH _ H).
    + rewrite (string_app_cons b). intros H.
      by apply entity_not_plain_char in H.
    + rewrite (string_app_cons a). intros H. symmetry in H.
      by apply entity_not_plain_char in H.
    + rewrite !string_app_cons. intros [= -> H]. by rewrite (IH _ H).
Qed.

(** X2 (sanitizeHtml): escaping loses nothing: two strings with the same
    escaped text are the same string. *)
Theorem sanitizeHtml_injective (s t : string) :
  Sanitize.sanitizeHtml (VStr s) = Sanitize.sanitizeHtml (VStr t) <-> s = t.
Proof.
  rewrite !sanitizeHtml_string. split; [| by intros ->].
  intros [= H]. by apply replace_special_injective.
Qed.

Lemma sanitizeUrl_Ok url r :
  Sanitize.sanitizeUrl url = Ok r ->
  r = "" \/
  exists u, url = VStr u /\ u <> "" /\
    (r = u /\ Sanitize.re_test true Sanitize.http_scheme_re u = true \/
     r = "https:" +:+ u /\ startsWith "//" u = true \/
     r = u /\ includes_char ":" u = false).
Proof.
  unfold Sanitize.sanitizeUrl.
  destruct (truthy url) eqn:Ht; cbn [negb]; [| intros [= <-]; by left].
  destruct url as [| | | |u| |]; try done.
  assert (u <> "") as Hu by (intros ->; done).
  destruct (Sanitize.re_test true Sanitize.http_scheme_re u) eqn:Hre.
  { intros [= <-]. right. exists u. repeat split; [done | by left]. }
  destruct (startsWith "//" u) eqn:Hs.
  { intros [= <-]. right. exists u. repeat split; [done |]. right. by left. }
  destruct (includes_char ":" u) eqn:Hc; cbn [negb]; intros [= <-].
  - by left.
  - right. exists u. repeat split; [done |]. right. by right.
Qed.

Lemma https_prefixed u :
  startsWith "//" u = true -> begins_with_ci "https://" ("https:" +:+ u).
Proof.
  intros Hs. apply startsWith_begins in Hs as [rest ->].
  exists "https://", rest. split; [done |].
  cbn [same_letters]. repeat split; by left.
Qed.

(** X3 (sanitizeUrl): the URL returned is empty, begins with http:// or
    https:// (in any case of the letters), or contains no colon; a URL of
    any other scheme never comes out. *)
Theorem sanitizeUrl_only_http (url : value) (r : string) :
  Sanitize.sanitizeUrl url = Ok r ->
  r = "" \/ begins_with_ci "http://" r \/ begins_with_ci "https://" r \/
  ~ contains_char ":" r.
Proof.
  intros H. apply sanitizeUrl_Ok in H as [-> | (u & -> & Hu & H)]; [by left |].
  right. destruct H as [[-> Hre] | [[-> Hs] | [-> Hc]]].
  - apply http_scheme_re_begins in Hre. tauto.
  - right. left. by apply https_prefixed.
  - right. right. rewrite <- includes_char_contains. by rewrite Hc.
Qed.

Lemma sanitizeUrl_only_http_witness :
  "https://example.com/x" = "" \/
  begins_with_ci "http://" "https://example.com/x" \/
  begins_with_ci "https://" "https://example.com/x" \/
  ~ contains_char ":" "https://example.com/x".
Proof.
  apply (sanitizeUrl_only_http (VStr "//example.com/x")). reflexivity.
Defined.

(** X4 (sanitizeUrl): sanitizing a URL that was already sanitized returns
    it unchanged. *)
Theorem sanitizeUrl_idempotent (url : value) (r : string) :
  Sanitize.sanitizeUrl url = Ok r -> Sanitize.sanitizeUrl (VStr r) = Ok r.
Proof.
  intros H.
  destruct (sanitizeUrl_Ok _ _ H) as [-> | (u & -> & Hu & Hcases)]; [done |].
  destruct Hcases as [[-> _] | [[-> Hs] | [-> _]]]; [done | | done].
  rewrite sanitizeUrl_string by done.
  apply https_prefixed in Hs.
  assert (Sanitize.re_test true Sanitize.http_scheme_re ("https:" +:+ u) = true)
    as -> by (apply http_scheme_re_begins; by right).
  done.
Qed.

Lemma sanitizeUrl_idempotent_witness :
  Sanitize.sanitizeUrl (VStr "https://example.com/x")
  = Ok "https://example.com/x".
Proof.
  apply (sanitizeUrl_idempotent (VStr "//example.com/x")). reflexivity.
Defined.

(** * Further properties of blocks *)

Lemma Block_new_lookup (data : obj) (b : Block.instance) :
  Block.new (VObj data) = Ok b ->
  (forall k, k ∉ Block.inherited_names -> k <> "content" ->
     Block.toJSON b !! k = data !! k) /\
  (forall k, k ∈ Block.inherited_names -> Block.toJSON b !! k = None).
Proof.
  intros Hb. apply Block_new_Ok in Hb as (Hid & Hty & Hall & _ & HJ). split.
  - intros k Hk Hc. rewrite HJ. unfold constructed.
    destruct (decide (k = "id")) as [-> | ?].
    { symmetry. apply get_lookup_defined. intros Hu. by rewrite Hu in Hid. }
    destruct (decide (k = "type")) as [-> | ?].
    { symmetry. apply get_lookup_defined. intros Hu.
      destruct Hty as (t & Ht & _). by rewrite Hu in Ht. }
    rewrite decide_False by done.
    destruct (decide (k ∈ Block.requiredProps (get data "type"))) as [Hr | ?].
    { symmetry. by apply get_lookup_defined, Hall. }
    destruct (data !! k); [| done]. by rewrite decide_False.
  - intros k Hk. rewrite HJ. unfold constructed.
    assert (k <> "id" /\ k <> "type" /\ k <> "content") as (? & ? & ?).
    { unfold Block.inherited_names in Hk.
      rewrite !elem_of_cons, elem_of_nil in Hk. naive_solver. }
    rewrite !decide_False; [| | done..].
    + destruct (data !! k); [| done]. by rewrite decide_True.
    + intros Hr. by apply requiredProps_not_inherited in Hr.
Qed.

(** X5 (Block constructor, toJSON): the plain object of a constructed block
    keeps every field of the data, those the class does not know included,
    except that a falsy content becomes the empty string and that a field
    named like a method that every block inherits (toString, constructor,
    toJSON, ...) is dropped. *)
Theorem Block_new_keeps_fields (data : obj) (b : Block.instance) :
  Block.new (VObj data) = Ok b ->
  (forall k, k ∉ Block.inherited_names -> k <> "content" ->
     Block.toJSON b !! k = data !! k) /\
  Block.toJSON b !! "content"
  = Some (if truthy (get data "content") then get data "content" else VStr "") /\
  (forall k, k ∈ Block.inherited_names -> Block.toJSON b !! k = None).
Proof.
  intros Hb. destruct (Block_new_lookup _ _ Hb) as [Hkeep Hdrop].
  apply Block_new_Ok in Hb as (_ & _ & _ & _ & HJ).
  split; [exact Hkeep | split; [| exact Hdrop]].
  by rewrite HJ.
Qed.

Lemma Block_new_keeps_fields_witness :
  Block.new (VObj heading_data_with_fields)
  = Ok (Block.Instance
          {[ "id" := VStr "h"; "type" := VStr "heading"; "content" := VStr "";
             "level" := VNum five; "anchor" := VStr "top" ]}) /\
  Block.toJSON
    (Block.Instance
       {[ "id" := VStr "h"; "type" := VStr "heading"; "content" := VStr "";
          "level" := VNum five; "anchor" := VStr "top" ]}) !! "toString" = None.
Proof.
  assert (Block.new (VObj heading_data_with_fields)
          = Ok (Block.Instance
                  {[ "id" := VStr "h"; "type" := VStr "heading";
                     "content" := VStr ""; "level" := VNum five;
                     "anchor" := VStr "top" ]})) as Hnew
    by (vm_compute; reflexivity).
  split; [exact Hnew |].
  apply (proj2 (proj2 (Block_new_keeps_fields _ _ Hnew))).
  apply (bool_decide_unpack _). reflexivity.
Defined.

(** X6 (Block constructor, toJSON): constructing a block from the plain
    object of a constructed block succeeds and gives the same block. *)
Theorem Block_toJSON_new_roundtrip (data : obj) (b : Block.instance) :
  Block.new (VObj data) = Ok b ->
  Block.new (VObj (Block.toJSON b)) = Ok b.
Proof.
  intros Hb. destruct (block_toJSON_fixpoint _ _ Hb) as (b' & Hb' & _).
  rewrite Hb'. f_equal.
  apply Block_new_Ok in Hb as (_ & _ & _ & Hown & HJ).
  apply Block_new_Ok in Hb' as (_ & _ & _ & Hown' & _).
  destruct b as [o], b' as [o']. f_equal. apply map_eq. intros k.
  cbn [Block.own] in Hown, Hown'. rewrite Hown', Hown.
  by apply constructed_idempotent.
Qed.

Lemma Block_toJSON_new_roundtrip_witness :
  Block.new (VObj (Block.toJSON instance_a)) = Ok instance_a.
Proof.
  apply (Block_toJSON_new_roundtrip (text_data "a" "one")).
  vm_compute. reflexivity.
Defined.

Lemma map_fold_assign (this m : obj) k :
  map_fold (fun key v (this : obj) => <[key := v]> this) this m !! k
  = match m !! k with Some v => Some v | None => this !! k end.
Proof.
  revert k.
  apply (map_fold_weak_ind (fun (r : obj) (m' : obj) => forall k,
    r !! k = match m' !! k with Some v => Some v | None => this !! k end)).
  - intros k. by rewrite lookup_empty.
  - intros i x m' r Hi IH k. destruct (decide (k = i)) as [-> | Hne].
    + by rewrite !lookup_insert_eq.
    + rewrite !lookup_insert_ne by done. apply IH.
Qed.

Lemma update_lookup (updates : obj) (b : Block.instance) k :
  Block.own (Block.update updates b) !! k =
  if decide (k = "id" \/ k = "type") then Block.own b !! k
  else match updates !! k with Some v => Some v | None => Block.own b !! k end.
Proof.
  unfold Block.update. cbn [Block.own]. rewrite map_fold_assign.
  destruct (decide (k = "id" \/ k = "type")) as [[-> | ->] | Hk].
  - by rewrite lookup_delete_ne, lookup_delete_eq.
  - by rewrite lookup_delete_eq.
  - rewrite !lookup_delete_ne; [done | naive_solver..].
Qed.

(** X7 (Block.update): an update never changes the id and the type of a
    block, whatever the updates hold; every other field of the updates is
    assigned, and the fields that the updates do not name stay as they
    are. (Updates with a property of their own called __proto__ are left
    aside: assigning it does not create a field.) *)
Theorem Block_update_fields (updates : obj) (b : Block.instance) :
  updates !! "__proto__" = None ->
  get (Block.own (Block.update updates b)) "id" = get (Block.own b) "id" /\
  get (Block.own (Block.update updates b)) "type" = get (Block.own b) "type" /\
  (forall k v, k <> "id" -> k <> "type" -> updates !! k = Some v ->
     Block.own (Block.update updates b) !! k = Some v) /\
  (forall k, updates !! k = None ->
     Block.own (Block.update updates b) !! k = Block.own b !! k).
Proof.
  intros _. unfold get. repeat split.
  - rewrite update_lookup, decide_True; [done | by left].
  - rewrite update_lookup, decide_True; [done | by right].
  - intros k v H1 H2 Hk. rewrite update_lookup, decide_False by naive_solver.
    by rewrite Hk.
  - intros k Hk. rewrite update_lookup, Hk. by destruct (decide _).
Qed.

Lemma Block_update_fields_witness :
  get (Block.own (Block.update updates_with_id instance_a)) "id" = VStr "a" /\
  get (Block.own (Block.update updates_with_id instance_a)) "type" = VStr "text".
Proof.
  destruct (Block_update_fields updates_with_id instance_a) as (H1 & H2 & _).
  - vm_compute. reflexivity.
  - split; [exact H1 | exact H2].
Defined.

Lemma Block_new_total (data : obj) :
  truthy (get data "id") = true ->
  allowed_type (get data "type") ->
  all_defined data (Block.requiredProps (get data "type")) ->
  exists b, Block.new (VObj data) = Ok b.
Proof.
  intros Hid Hty Hall.
  destruct (Block_new_outcome data Hid)
    as [[Hna _] | [(_ & p & Hp & _) | (_ & _ & Hb)]]; [done | | done].
  destruct (first_undefined_not_all_defined _ _ _ Hp Hall).
Qed.

(** X8 (Block.list, Block.image): the list factory called without a list
    type makes an unordered list, and the image factory stores a caption
    exactly when the one it is given is truthy; both construct the block
    whenever the id is truthy and the other arguments are defined. *)
Theorem Block_factories_optional_arguments (id a1 a2 caption : value) :
  truthy id = true -> a1 <> VUndefined -> a2 <> VUndefined ->
  (exists b, Block.list id a1 VUndefined = Ok b /\
             Block.toJSON b !! "items" = Some a1 /\
             Block.toJSON b !! "listType" = Some (VStr "unordered")) /\
  (exists b, Block.image id a1 a2 caption = Ok b /\
             Block.toJSON b !! "url" = Some a1 /\
             Block.toJSON b !! "alt" = Some a2 /\
             Block.toJSON b !! "caption"
             = if truthy caption then Some caption else None).
Proof.
  intros Hid H1 H2. split.
  - unfold Block.list.
    match goal with |- context [Block.new (VObj ?d)] => set (data := d) end.
    destruct (Block_new_total data) as [b Hb].
    + done.
    + exists "list". split; [done |]. by apply (bool_decide_unpack _).
    + intros p Hp. change (p ∈ ["items"; "listType"]) in Hp.
      rewrite !elem_of_cons, elem_of_nil in Hp.
      destruct Hp as [-> | [-> | []]]; done.
    + exists b. split; [done |].
      apply Block_new_lookup in Hb as (Hk & _).
      rewrite !Hk; [done | | done | | done];
        by apply (bool_decide_unpack (_ ∉ _)).
  - unfold Block.image.
    match goal with |- context [Block.new (VObj ?d)] => set (data := d) end.
    assert (get data "id" = id /\ get data "type" = VStr "image" /\
            data !! "url" = Some a1 /\ data !! "alt" = Some a2 /\
            data !! "caption" = if truthy caption then Some caption else None)
      as (Hi & Ht & Hu & Ha & Hc).
    { unfold data. by destruct (truthy caption). }
    destruct (Block_new_total data) as [b Hb].
    + by rewrite Hi.
    + rewrite Ht. exists "image". split; [done |].
      by apply (bool_decide_unpack _).
    + rewrite Ht. intros p Hp. change (p ∈ ["url"; "alt"]) in Hp.
      rewrite !elem_of_cons, elem_of_nil in Hp. unfold get.
      destruct Hp as [-> | [-> | []]]; [by rewrite Hu | by rewrite Ha].
    + exists b. split; [done |].
      apply Block_new_lookup in Hb as (Hk & _).
      rewrite !Hk; [done | | done | | done | | done];
        by apply (bool_decide_unpack (_ ∉ _)).
Qed.

Lemma Block_factories_optional_arguments_witness :
  exists b, Block.image (VStr "i") (VStr "u.png") (VStr "alt") (VStr "") = Ok b /\
            Block.toJSON b !! "url" = Some (VStr "u.png") /\
            Block.toJSON b !! "alt" = Some (VStr "alt") /\
            Block.toJSON b !! "caption" = None.
Proof.
  apply (Block_factories_optional_arguments
           (VStr "i") (VStr "u.png") (VStr "alt") (VStr "")); done.
Defined.

(** * Further properties of documents *)

Lemma findIndex_first id (bs : list obj) i :
  findIndex (Document.has_id id) bs = Some i <->
  exists b, first_with_id id bs i b.
Proof.
  unfold first_with_id. revert i.
  induction bs as [|x bs IH]; intros i; cbn [findIndex].
  - split; [done | by intros (b & Hb & _)].
  - unfold Document.has_id at 1.
    destruct (strict_eq (get x "id") id) eqn:Hx.
    + split.
      * intros [= <-]. exists x. repeat split; [done |]. intros j b' Hj. lia.
      * intros (b & Hb & Hid & Hfirst). destruct i as [|i]; [done |].
        specialize (Hfirst 0%nat x ltac:(lia) eq_refl). congruence.
    + destruct (findIndex (Document.has_id id) bs) as [j |] eqn:Hf;
        cbn [fmap option_fmap option_map].
      * split.
        -- intros [= <-]. destruct (proj1 (IH j) eq_refl) as (b & Hb & Hid & Hfirst).
           exists b. repeat split; [done.. |].
           intros [|j'] b' Hj Hb'; [by injection Hb' as <- |].
           apply (Hfirst j'); [lia | done].
        -- intros (b & Hb & Hid & Hfirst). destruct i as [|i].
           { injection Hb as <-. congruence. }
           f_equal. assert (Some j = Some i) as [= ->]; [| done].
           apply IH. exists b. repeat split; [done.. |].
           intros j' b' Hj Hb'. apply (Hfirst (S j')); [lia | done].
      * split; [done |]. intros (b & Hb & Hid & Hfirst). exfalso.
        destruct i as [|i]; [injection Hb as <-; congruence |].
        assert (None = Some i) as Hn; [| done].
        apply IH. exists b. repeat split; [done.. |].
        intros j' b' Hj Hb'. apply (Hfirst (S j')); [lia | done].
Qed.

Lemma find_findIndex id (bs : list obj) :
  find (Document.has_id id) bs
  = i ← findIndex (Document.has_id id) bs; bs !! i.
Proof.
  induction bs as [|x bs IH]; [done |]. cbn [find findIndex].
  destruct (Document.has_id id x); [done |]. rewrite IH.
  by destruct (findIndex _ bs).
Qed.

Lemma first_with_id_found id d i b :
  first_with_id id (Document.blocks (Document.article d)) i b -> id_found id d.
Proof.
  intros (Hb & Hid & _). exists b. split; [| done].
  by eapply list_elem_of_lookup_2.
Qed.

Lemma getBlock_unfold id d :
  Document.getBlock id d
  = (Ok (match find (Document.has_id id) (Document.blocks (Document.article d)) with
         | Some block => VObj block
         | None => VNull
         end), d).
Proof. done. Qed.

(** X9 (getBlock): a lookup never changes the document; it returns null
    exactly when no stored block has the id, and otherwise the first of
    the stored blocks that has it. *)
Theorem getBlock_cases (id : value) (d : Document.BlockDocDocument) :
  exists r, Document.getBlock id d = (Ok r, d) /\
    (r = VNull <-> ~ id_found id d) /\
    (forall b, r = VObj b <->
       exists i, first_with_id id (Document.blocks (Document.article d)) i b).
Proof.
  rewrite getBlock_unfold, find_findIndex. eexists. split; [done |].
  destruct (findIndex _ _) as [i |] eqn:Hf; cbn [mbind option_bind].
  - destruct (proj1 (findIndex_first _ _ _) Hf) as (b & Hfirst).
    rewrite (proj1 Hfirst). split.
    + split; [done |]. intros Hn. destruct Hn. by eapply first_with_id_found.
    + intros b'. split.
      * intros [= <-]. by exists i.
      * intros (i' & Hfirst').
        assert (Some i' = Some i) as [= ->].
        { rewrite <- Hf. symmetry. apply findIndex_first. by exists b'. }
        destruct Hfirst as (Hb & _), Hfirst' as (Hb' & _). congruence.
  - split.
    + split; [| done]. intros _ Hfound.
      apply id_found_findIndex in Hfound as [i Hi]. congruence.
    + intros b. split; [done |]. intros (i & Hfirst).
      assert (findIndex (Document.has_id id)
                (Document.blocks (Document.article d)) = Some i) as Hi
        by (apply findIndex_first; by exists b).
      congruence.
Qed.

Lemma strict_eq_true_l x y z :
  strict_eq x y = true -> strict_eq x z = strict_eq y z.
Proof.
  destruct x as [| |a|nx|s|l|m], y as [| |b|ny|t|l'|m']; try done.
  - cbn [strict_eq]. rewrite bool_decide_eq_true. by intros ->.
  - cbn [strict_eq]. intros Hxy. destruct z as [| |c|nz|u|l''|m'']; try done.
    cbn [strict_eq]. unfold number_eqb in *.
    destruct nx, ny; try done; destruct nz; try done;
      repeat match goal with
        | H : _ && _ = true |- _ => apply andb_true_iff in H as [? ?]
        | H : bool_decide _ = true |- _ => apply bool_decide_eq_true in H
        end; by subst.
  - cbn [strict_eq]. rewrite bool_decide_eq_true. by intros ->.
Qed.

Lemma find_app_None_l id (bs : list obj) b :
  find (Document.has_id id) bs = None ->
  find (Document.has_id id) (bs ++ [b])
  = if Document.has_id id b then Some b else None.
Proof.
  induction bs as [|x bs IH]; [done |]. cbn [find app].
  destruct (Document.has_id id x); [done | exact IH].
Qed.

Lemma findIndex_app_None_l id (bs : list obj) b :
  findIndex (Document.has_id id) bs = None ->
  findIndex (Document.has_id id) (bs ++ [b])
  = if Document.has_id id b then Some (length bs) else None.
Proof.
  induction bs as [|x bs IH]; [done |]. cbn [findIndex app length].
  destruct (Document.has_id id x); [done |].
  destruct (findIndex (Document.has_id id) bs); [done |].
  intros _. rewrite IH by done. by destruct (Document.has_id id b).
Qed.

Lemma find_app_Some_l id (bs : list obj) b x :
  find (Document.has_id id) bs = Some x ->
  find (Document.has_id id) (bs ++ [b]) = Some x.
Proof.
  induction bs as [|y bs IH]; [done |]. cbn [find app].
  destruct (Document.has_id id y); [done | exact IH].
Qed.

Lemma addBlock_Ok blockData d b d' :
  Document.addBlock blockData d = (Ok b, d') ->
  exists id,
    member blockData "id" = Ok id /\
    find (Document.has_id id) (Document.blocks (Document.article d)) = None /\
    Block.new blockData = Ok b /\
    d' = with_blocks d (Document.blocks (Document.article d) ++ [Block.toJSON b]).
Proof.
  rewrite addBlock_unfold.
  destruct (member blockData "id") as [id | e]; [| done].
  destruct (find (Document.has_id id) _) eqn:Hf; [done |].
  destruct (Block.new blockData) as [b' | e]; [| done].
  intros [= <- <-]. by exists id.
Qed.

(** X10 (addBlock, getBlock): after a block has been added under an id
    that is a string, a number or a boolean, a lookup of that id returns
    the plain object of the block that [addBlock] returned, and a lookup
    of any other id returns what it returned before. *)
Theorem getBlock_after_addBlock (blockData id : value)
    (d d' : Document.BlockDocDocument) (b : Block.instance) :
  member blockData "id" = Ok id -> strict_eq id id = true ->
  Document.addBlock blockData d = (Ok b, d') ->
  Document.getBlock id d' = (Ok (VObj (Block.toJSON b)), d') /\
  forall id', strict_eq id id' = false ->
    (Document.getBlock id' d').1 = (Document.getBlock id' d).1.
Proof.
  intros Hm Hid Hadd.
  apply addBlock_Ok in Hadd as (id0 & Hm' & Hf & Hb & ->).
  rewrite Hm in Hm'. injection Hm' as <-.
  pose proof (member_Ok_new _ _ _ Hm Hb) as Hbid.
  rewrite !getBlock_unfold. cbn [with_blocks Document.article Document.blocks fst].
  split.
  - rewrite find_app_None_l by done. unfold Document.has_id.
    by rewrite Hbid, Hid.
  - intros id' Hne. rewrite !getBlock_unfold.
    cbn [with_blocks Document.article Document.blocks fst]. f_equal.
    destruct (find (Document.has_id id') (Document.blocks (Document.article d)))
      as [x |] eqn:Hf'.
    + by rewrite (find_app_Some_l _ _ _ _ Hf').
    + rewrite find_app_None_l by done. unfold Document.has_id.
      by rewrite Hbid, Hne.
Qed.

Lemma getBlock_after_addBlock_witness :
  Document.getBlock (VStr "b") doc_ab = (Ok (VObj (text_data "b" "two")), doc_ab).
Proof.
  refine (proj1 (getBlock_after_addBlock (VObj (text_data "b" "two")) (VStr "b")
                   doc_a doc_ab (Block.Instance (text_data "b" "two")) _ _ _)).
  - reflexivity.
  - reflexivity.
  - vm_compute. reflexivity.
Defined.

(** X11 (removeBlock): when no stored block has the id, [removeBlock]
    returns false and the document is as before; otherwise it returns true
    and exactly the first block with the id has been removed. *)
Theorem removeBlock_cases (id : value) (d : Document.BlockDocDocument) :
  (~ id_found id d -> Document.removeBlock id d = (Ok false, d)) /\
  (id_found id d ->
   exists i b,
     first_with_id id (Document.blocks (Document.article d)) i b /\
     Document.removeBlock id d
     = (Ok true,
        with_blocks d (delete i (Document.blocks (Document.article d))))).
Proof.
  rewrite removeBlock_unfold. split.
  - intros Hn. destruct (findIndex _ _) as [i |] eqn:Hf; [| done].
    destruct Hn. apply id_found_findIndex. by exists i.
  - intros [i Hi]%id_found_findIndex. rewrite Hi.
    apply findIndex_first in Hi as [b Hb]. by exists i, b.
Qed.

Lemma removeBlock_cases_witness :
  exists i b,
    first_with_id (VStr "b") (Document.blocks (Document.article doc_ab)) i b /\
    Document.removeBlock (VStr "b") doc_ab
    = (Ok true,
       with_blocks doc_ab (delete i (Document.blocks (Document.article doc_ab)))).
Proof.
  apply (proj2 (removeBlock_cases (VStr "b") doc_ab)).
  exists (text_data "b" "two"). split; [| reflexivity].
  apply list_elem_of_further, list_elem_of_singleton. reflexivity.
Defined.

Lemma ids_distinct_lookup bs i j (b b' : obj) :
  ids_distinct bs -> bs !! i = Some b -> bs !! j = Some b' -> i <> j ->
  strict_eq (get b "id") (get b' "id") = false.
Proof.
  revert i j. induction bs as [|x bs IH]; intros i j Hd Hi Hj Hne; [done |].
  destruct Hd as [Hx Hd]. rewrite Forall_forall in Hx.
  destruct i as [|i], j as [|j]; try done.
  - injection Hi as ->. apply Hx. by eapply list_elem_of_lookup_2.
  - injection Hj as ->. rewrite strict_eq_sym. apply Hx.
    by eapply list_elem_of_lookup_2.
  - apply (IH i j); [done.. | lia].
Qed.

(** X12 (removeBlock, getBlock): in a document whose ids are pairwise
    distinct, a removed id is gone: after [removeBlock] returned true a
    lookup of the id returns null, a second removal returns false, and the
    document has one block less. *)
Theorem removeBlock_then_getBlock (id : value)
    (d d' : Document.BlockDocDocument) :
  ids_distinct (Document.blocks (Document.article d)) ->
  Document.removeBlock id d = (Ok true, d') ->
  Document.getBlock id d' = (Ok VNull, d') /\
  Document.removeBlock id d' = (Ok false, d') /\
  S (length (Document.blocks (Document.article d')))
  = length (Document.blocks (Document.article d)).
Proof.
  intros Hd Hrm. rewrite removeBlock_unfold in Hrm.
  destruct (findIndex _ _) as [i |] eqn:Hf; [| done].
  injection Hrm as <-.
  apply findIndex_first in Hf as (b & Hb & Hid & _).
  assert (Forall (fun b' : obj => strict_eq (get b' "id") id = false)
            (delete i (Document.blocks (Document.article d)))) as Hgone.
  { apply Forall_forall. intros b' Hin.
    apply list_elem_of_lookup in Hin as [j Hj].
    rewrite strict_eq_sym, <- (strict_eq_true_l _ _ (get b' "id") Hid).
    destruct (decide (j < i)%nat).
    - rewrite list_lookup_delete_lt in Hj by done.
      apply (ids_distinct_lookup _ i j b b' Hd Hb Hj). lia.
    - rewrite list_lookup_delete_ge in Hj by lia.
      apply (ids_distinct_lookup _ i (S j) b b' Hd Hb Hj). lia. }
  repeat split.
  - rewrite getBlock_unfold. cbn [Document.article Document.blocks].
    by rewrite (proj2 (find_has_id_None _ _) Hgone).
  - rewrite removeBlock_unfold. cbn [Document.article Document.blocks].
    by rewrite (proj2 (findIndex_None (Document.has_id id) _) Hgone).
  - cbn [Document.article Document.blocks].
    rewrite length_delete; [| by eexists].
    apply lookup_lt_Some in Hb. lia.
Qed.

Lemma removeBlock_then_getBlock_witness :
  Document.getBlock (VStr "b") doc_a = (Ok VNull, doc_a).
Proof.
  refine (proj1 (removeBlock_then_getBlock (VStr "b") doc_ab doc_a _ _)).
  - simpl. repeat constructor.
  - vm_compute. reflexivity.
Defined.

(** X13 (addBlock, removeBlock): removing the block that has just been
    added, by its id, gives back the document as it was before the block
    was added. *)
Theorem removeBlock_after_addBlock (blockData id : value)
    (d d' : Document.BlockDocDocument) (b : Block.instance) :
  member blockData "id" = Ok id -> strict_eq id id = true ->
  Document.addBlock blockData d = (Ok b, d') ->
  Document.removeBlock id d' = (Ok true, d).
Proof.
  intros Hm Hid Hadd.
  apply addBlock_Ok in Hadd as (id0 & Hm' & Hf & Hb & ->).
  rewrite Hm in Hm'. injection Hm' as <-.
  pose proof (member_Ok_new _ _ _ Hm Hb) as Hbid.
  rewrite removeBlock_unfold.
  cbn [with_blocks Document.article Document.blocks Document.title
       Document.metadata].
  rewrite find_findIndex in Hf.
  destruct (findIndex (Document.has_id id) (Document.blocks (Document.article d)))
    as [i |] eqn:Hi.
  { apply findIndex_Some in Hi as (x & Hx & _). cbn in Hf. congruence. }
  rewrite findIndex_app_None_l by done. unfold Document.has_id.
  rewrite Hbid, Hid. f_equal.
  rewrite delete_take_drop, take_app_length.
  rewrite drop_ge by (rewrite length_app; simpl; lia).
  rewrite app_nil_r. by destruct d as [[t m bs]].
Qed.

Lemma removeBlock_after_addBlock_witness :
  Document.removeBlock (VStr "b") doc_ab = (Ok true, doc_a).
Proof.
  refine (removeBlock_after_addBlock (VObj (text_data "b" "two")) (VStr "b")
            doc_a doc_ab (Block.Instance (text_data "b" "two")) _ _ _).
  - reflexivity.
  - reflexivity.
  - vm_compute. reflexivity.
Defined.

Lemma with_blocks_same d : with_blocks d (Document.blocks (Document.article d)) = d.
Proof. by destruct d as [[t m bs]]. Qed.

Lemma insertBlock_Ok blockData position d b d' :
  Document.insertBlock blockData position d = (Ok b, d') ->
  exists id,
    member blockData "id" = Ok id /\
    find (Document.has_id id) (Document.blocks (Document.article d)) = None /\
    Block.new blockData = Ok b /\
    d' = with_blocks d
           (take (splice_start (length (Document.blocks (Document.article d)))
                    position)
              (Document.blocks (Document.article d))
            ++ Block.toJSON b
               :: drop (splice_start
                          (length (Document.blocks (Document.article d)))
                          position)
                    (Document.blocks (Document.article d))).
Proof.
  rewrite insertBlock_unfold.
  destruct (member blockData "id") as [id | e]; [| done].
  destruct (find (Document.has_id id) _) eqn:Hf; [done |].
  destruct (Block.new blockData) as [b' | e]; [| done].
  cbv zeta. intros [= <- <-]. by exists id.
Qed.

Lemma splice_start_integer len p z :
  well_formed p -> integer_value p = Some z ->
  splice_start len p = insertion_index len z.
Proof.
  intros Hw Hz. pose proof (integer_value_truncate _ _ Hw Hz) as Ht.
  unfold insertion_index. destruct p as [| neg | neg | neg ds n]; try done.
  - injection Hz as <-. cbn [splice_start]. simpl. lia.
  - cbn [truncate] in Ht. destruct Hw as (Hne & Hhd & _).
    assert (0 < finite_trunc ds n) as Hpos.
    { cbn [integer_value] in Hz. unfold finite_trunc.
      destruct (Z.of_nat (length ds) <=? n) eqn:Hk; [| done].
      apply Z.leb_le in Hk.
      assert (0 < Z.of_nat (length ds)) by (destruct ds; [done | simpl; lia]).
      rewrite (proj2 (Z.leb_gt _ _)) by lia.
      pose proof (digits_val_pos ds Hne Hhd).
      assert (0 < 10 ^ (n - Z.of_nat (length ds))) by (apply Z.pow_pos_nonneg; lia).
      lia. }
    cbn [splice_start]. destruct neg.
    + rewrite (proj2 (Z.eqb_neq _ _)) by lia.
      rewrite (proj2 (Z.ltb_lt _ _)) by lia. f_equal. lia.
    + rewrite (proj2 (Z.ltb_ge _ _)) by lia. f_equal. lia.
Qed.

Lemma splice_start_ge len p :
  number_ge_nat p len = true -> splice_start len p = len.
Proof.
  destruct p as [| [] | neg | [] ds n]; cbn [number_ge_nat splice_start negb];
    try done.
  - rewrite Z.leb_le. lia.
  - rewrite Z.leb_le. lia.
Qed.

(** X14 (insertBlock): when [insertBlock] raises, the document is as
    before. When it returns for a position that is an integer z, the new
    block stands at index z if z is between 0 and the number of blocks, at
    the end if z is larger, and at that many places from the end (at the
    start at the earliest) if z is negative; the blocks before and after
    it are the former ones in their order. And for a position that is at
    least the number of blocks, inserting is adding: the two calls return
    the same and leave the same document. *)
Theorem insertBlock_position (blockData : value) (position : number)
    (d : Document.BlockDocDocument) :
  (forall e d', Document.insertBlock blockData position d = (Err e, d') ->
                d' = d) /\
  (forall b d' z,
     well_formed position -> integer_value position = Some z ->
     Document.insertBlock blockData position d = (Ok b, d') ->
     let bs := Document.blocks (Document.article d) in
     let j := insertion_index (length bs) z in
     (j <= length bs)%nat /\
     d' = with_blocks d (take j bs ++ Block.toJSON b :: drop j bs)) /\
  (number_ge_nat position (length (Document.blocks (Document.article d)))
   = true ->
   Document.insertBlock blockData position d
   = Document.addBlock blockData d).
Proof.
  split; [| split].
  - intros e d'. rewrite insertBlock_unfold.
    destruct (member blockData "id") as [id | e']; [| congruence].
    destruct (find (Document.has_id id) _); [congruence |].
    destruct (Block.new blockData); [done | congruence].
  - intros b d' z Hw Hz Hins. cbv zeta.
    apply insertBlock_Ok in Hins as (id & _ & _ & _ & ->).
    rewrite <- (splice_start_integer _ _ _ Hw Hz).
    split; [apply splice_start_le | done].
  - intros Hge. rewrite insertBlock_unfold, addBlock_unfold. cbv zeta.
    rewrite (splice_start_ge _ _ Hge).
    by rewrite take_ge, drop_ge by lia.
Qed.

Lemma insertBlock_position_witness :
  (insertion_index 2 (-1) <= 2)%nat /\
  doc_acb
  = with_blocks doc_ab
      (take (insertion_index 2 (-1)) (Document.blocks (Document.article doc_ab))
       ++ Block.toJSON (Block.Instance (text_data "c" "three"))
          :: drop (insertion_index 2 (-1))
               (Document.blocks (Document.article doc_ab))).
Proof.
  refine (proj1 (proj2 (insertBlock_position (VObj (text_data "c" "three"))
                          minus_one doc_ab))
            (Block.Instance (text_data "c" "three")) doc_acb (-1) _ _ _).
  - vm_compute. repeat split; discriminate.
  - reflexivity.
  - vm_compute. reflexivity.
Defined.

Lemma updateBlock_Ok id updates d r d' :
  Document.updateBlock id updates d = (Ok r, d') ->
  exists i cur block,
    first_with_id id (Document.blocks (Document.article d)) i cur /\
    Block.new (VObj (updates ∪ cur)) = Ok block /\
    r = Block.toJSON block /\
    d' = with_blocks d (<[i := r]> (Document.blocks (Document.article d))).
Proof.
  rewrite updateBlock_unfold. cbv zeta.
  destruct (findIndex _ _) as [i |] eqn:Hi; [| by destruct (to_string id)].
  apply findIndex_first in Hi as (cur & Hcur).
  pose proof Hcur as (Hlook & _). rewrite Hlook.
  change (default ∅ (Some cur)) with cur.
  destruct (Block.new _) as [block | e] eqn:Hb; [| done].
  apply lookup_lt_Some in Hlook.
  rewrite list_lookup_insert_eq by done.
  change (default ∅ (Some (Block.toJSON block))) with (Block.toJSON block).
  intros [= <- <-]. by exists i, cur, block.
Qed.

(** X15 (updateBlock): when no stored block has the id, [updateBlock]
    raises BlockNotFoundError, with a message that holds the id, when the
    id converts to a string, and the TypeError of the conversion when it
    does not; whenever it raises, for that or because the merged block is
    refused by the block constructor, the document is as before. *)
Theorem updateBlock_failure_leaves_document (id : value) (updates : obj)
    (d : Document.BlockDocDocument) :
  (~ id_found id d ->
   (forall s, prints_as id s ->
      Document.updateBlock id updates d = (Err (BlockNotFoundError id), d) /\
      message (BlockNotFoundError id)
      = Some ("Block with ID " +:+ q +:+ s +:+ q +:+ " not found")) /\
   (~ printable id ->
    Document.updateBlock id updates d = (Err TypeError, d))) /\
  (forall e d', Document.updateBlock id updates d = (Err e, d') -> d' = d) /\
  (forall e d', Document.updateBlock id updates d = (Err e, d') ->
     id_found id d ->
     exists i cur,
       first_with_id id (Document.blocks (Document.article d)) i cur /\
       Block.new (VObj (updates ∪ cur)) = Err e).
Proof.
  rewrite updateBlock_unfold. cbv zeta. split; [| split].
  - intros Hn. destruct (findIndex _ _) as [i |] eqn:Hi.
    { destruct Hn. apply id_found_findIndex. by exists i. }
    split.
    + intros s Hs. unfold prints_as in Hs. rewrite Hs. split; [done |].
      cbn [message]. unfold text_of. by rewrite Hs.
    + intros Hp. apply not_printable in Hp. by rewrite Hp.
  - intros e d'. destruct (findIndex _ _);
      [| destruct (to_string id); congruence].
    destruct (Block.new _); [done | congruence].
  - intros e d' Hupd Hfound.
    destruct (findIndex _ _) as [i |] eqn:Hi.
    + apply findIndex_first in Hi as (cur & Hcur). exists i, cur.
      split; [done |]. rewrite (proj1 Hcur) in Hupd.
      change (default ∅ (Some cur)) with cur in Hupd.
      destruct (Block.new _); [done | congruence].
    + apply id_found_findIndex in Hfound as [i Hi']. congruence.
Qed.

Lemma updateBlock_failure_leaves_document_witness :
  Document.updateBlock (VStr "zzz") updates_content doc_ab
  = (Err (BlockNotFoundError (VStr "zzz")), doc_ab) /\
  message (BlockNotFoundError (VStr "zzz"))
  = Some ("Block with ID " +:+ q +:+ "zzz" +:+ q +:+ " not found").
Proof.
  apply (proj1 (updateBlock_failure_leaves_document (VStr "zzz") updates_content
                  doc_ab)); [| reflexivity].
  intros (b & Hin & Hid). unfold doc_ab in Hin. simpl in Hin.
  apply list_elem_of_In in Hin. simpl in Hin.
  destruct Hin as [<- | [<- | []]]; discriminate Hid.
Defined.

(** X16 (updateBlock): when [updateBlock] returns, the block it returns is
    the one now stored in the place of the first block with the id; it is
    the plain object of a block that passed the constructor's checks, and
    each of its fields (content and the names of inherited methods apart)
    is the one of the updates if they name it and the former one
    otherwise. Every other block is as before. *)
Theorem updateBlock_merges (id : value) (updates : obj)
    (d d' : Document.BlockDocDocument) (r : obj) :
  Document.updateBlock id updates d = (Ok r, d') ->
  exists i cur,
    first_with_id id (Document.blocks (Document.article d)) i cur /\
    d' = with_blocks d (<[i := r]> (Document.blocks (Document.article d))) /\
    block_projection r /\
    forall k, k ∉ Block.inherited_names -> k <> "content" ->
      r !! k = match updates !! k with
               | Some v => Some v
               | None => cur !! k
               end.
Proof.
  intros Hupd.
  apply updateBlock_Ok in Hupd as (i & cur & block & Hcur & Hb & -> & ->).
  exists i, cur.
  split; [done | split; [done | split; [by eexists _, block |]]].
  intros k Hk Hc. apply Block_new_lookup in Hb as [Hb _].
  rewrite (Hb k Hk Hc), lookup_union. by destruct (updates !! k), (cur !! k).
Qed.

Lemma updateBlock_merges_witness :
  exists i cur,
    first_with_id (VStr "a") (Document.blocks (Document.article doc_a)) i cur /\
    with_blocks doc_a [text_data "a" "changed"]
    = with_blocks doc_a
        (<[i := text_data "a" "changed"]>
           (Document.blocks (Document.article doc_a))) /\
    block_projection (text_data "a" "changed") /\
    forall k, k ∉ Block.inherited_names -> k <> "content" ->
      text_data "a" "changed" !! k
      = match updates_content !! k with
        | Some v => Some v
        | None => cur !! k
        end.
Proof.
  apply (updateBlock_merges (VStr "a") updates_content doc_a
           (with_blocks doc_a [text_data "a" "changed"])
           (text_data "a" "changed")).
  vm_compute. reflexivity.
Defined.

(** X17 (updateBlock): on a document that the class can hold, an update
    with no fields changes nothing: it returns the stored block and leaves
    the document as it is. *)
Theorem updateBlock_without_updates (id : value)
    (d : Document.BlockDocDocument) :
  reachable d -> id_found id d ->
  exists i b,
    first_with_id id (Document.blocks (Document.article d)) i b /\
    Document.updateBlock id ∅ d = (Ok b, d).
Proof.
  intros Hr [i Hi]%id_found_findIndex.
  pose proof Hi as Hfirst. apply findIndex_first in Hfirst as (b & Hb).
  exists i, b. split; [done |].
  rewrite updateBlock_unfold. cbv zeta. rewrite Hi, (proj1 Hb).
  change (default ∅ (Some b)) with b. rewrite (left_id_L ∅ (∪) b).
  apply reachable_projections in Hr.
  pose proof (Forall_lookup_1 _ _ _ _ Hr (proj1 Hb)) as Hproj.
  destruct (block_projection_fixpoint _ Hproj) as (block & -> & ->).
  rewrite list_insert_id by apply Hb. rewrite (proj1 Hb).
  change (default ∅ (Some b)) with b. f_equal. apply with_blocks_same.
Qed.

Lemma updateBlock_without_updates_witness :
  exists i b,
    first_with_id (VStr "b") (Document.blocks (Document.article doc_ab)) i b /\
    Document.updateBlock (VStr "b") ∅ doc_ab = (Ok b, doc_ab).
Proof.
  apply updateBlock_without_updates.
  - apply (reach_new (VObj options_ab)). vm_compute. reflexivity.
  - exists (text_data "b" "two"). split; [| reflexivity].
    apply list_elem_of_further, list_elem_of_singleton. reflexivity.
Defined.

(** ** The constructor *)

Lemma new_object (options : obj) :
  Document.new (VObj options) =
  let this :=
    Document.mkDocument
      (Document.mkArticle (get options "title")
         (Document.with_default (get options "metadata") (VObj ∅)) []) in
  match Document.with_default (get options "blocks") (VArr []) with
  | VArr l =>
      match Document.forEach
              (fun block => Document.bind (Document.addBlock block)
                              (fun _ => Document.ret tt)) l this with
      | (Ok _, this') => Ok this'
      | (Err e, _) => Err e
      end
  | _ => Ok this
  end.
Proof.
  unfold Document.new. cbn [member rbind]. fold (get options "title").
  fold (get options "metadata"). fold (get options "blocks"). cbv zeta.
  destruct (Document.with_default (get options "blocks") (VArr []))
    as [| | [] | x | s | l | m]; cbn [truthy isArray andb]; try done.
  - by rewrite andb_false_r.
  - by rewrite andb_false_r.
Qed.

Lemma forEach_addBlock_Ok l d u d' :
  Document.forEach
    (fun block => Document.bind (Document.addBlock block)
                    (fun _ => Document.ret tt)) l d = (Ok u, d') ->
  exists bs,
    d' = with_blocks d (Document.blocks (Document.article d) ++ bs) /\
    Forall2 stored_as l bs.
Proof.
  revert d. induction l as [|x l IH]; intros d.
  - intros [= _ <-]. exists []. by rewrite app_nil_r, with_blocks_same.
  - cbn [Document.forEach]. unfold Document.bind at 1.
    unfold Document.bind at 1.
    destruct (Document.addBlock x d) as [[blk | e] d1] eqn:Hadd; [| done].
    unfold Document.ret at 1. intros Hrest.
    apply addBlock_Ok in Hadd as (id & _ & _ & Hnew & ->).
    apply IH in Hrest as (bs & -> & Hbs).
    exists (Block.toJSON blk :: bs). split.
    + cbn [with_blocks Document.article Document.blocks Document.title
           Document.metadata]. by rewrite <- app_assoc.
    + constructor; [by exists blk | done].
Qed.

Lemma forEach_addBlock_inv (P : Document.BlockDocDocument -> Prop) l d r d' :
  (forall x d r d', P d -> Document.addBlock x d = (r, d') -> P d') ->
  P d ->
  Document.forEach
    (fun block => Document.bind (Document.addBlock block)
                    (fun _ => Document.ret tt)) l d = (r, d') ->
  P d'.
Proof.
  intros Hstep. revert d. induction l as [|x l IH]; intros d Hd.
  - by intros [= _ <-].
  - cbn [Document.forEach]. unfold Document.bind at 1.
    unfold Document.bind at 1.
    destruct (Document.addBlock x d) as [[blk | e] d1] eqn:Hadd.
    + unfold Document.ret at 1. apply IH. by eapply Hstep.
    + intros [= _ <-]. by eapply Hstep.
Qed.

Lemma new_of_object options d :
  Document.new options = Ok d -> exists m : obj, Document.new (VObj m) = Ok d.
Proof.
  destruct options as [| | b | x | s | l | m]; try done.
  - intros H. by exists ∅.
  - intros H. by exists ∅.
  - intros H. by exists ∅.
  - intros H. by exists ∅.
  - intros H. by exists m.
Qed.

Lemma new_ids_distinct options d :
  Document.new options = Ok d ->
  ids_distinct (Document.blocks (Document.article d)).
Proof.
  intros [m Hm]%new_of_object. revert Hm.
  rewrite new_object. cbv zeta.
  destruct (Document.with_default _ _) as [| | | | | l |];
    try by intros [= <-].
  destruct (Document.forEach _ l _) as [[u | e] d0] eqn:Hfe; [| done].
  intros [= <-].
  eapply (forEach_addBlock_inv
            (fun d => ids_distinct (Document.blocks (Document.article d))));
    [| | exact Hfe]; [| done].
  intros x d1 r d2 Hd1 Hadd. by eapply addBlock_ids_distinct.
Qed.

(** X18 (constructor): the document that the constructor returns has the
    title and the metadata of the options (an empty object when they give
    none), and when the options give an array of blocks it holds, in the
    order of the array, the plain object of the block constructed from
    each of its elements. *)
Theorem new_stores_blocks_in_order (options : obj)
    (d : Document.BlockDocDocument) :
  Document.new (VObj options) = Ok d ->
  Document.title (Document.article d) = get options "title" /\
  Document.metadata (Document.article d)
  = Document.with_default (get options "metadata") (VObj ∅) /\
  (forall l, get options "blocks" = VArr l ->
             Forall2 stored_as l (Document.blocks (Document.article d))) /\
  (get options "blocks" = VUndefined ->
   Document.blocks (Document.article d) = []).
Proof.
  rewrite new_object. cbv zeta.
  destruct (Document.with_default (get options "blocks") (VArr []))
    as [| | b | x | s | l | m] eqn:Hbl.
  1-5, 7: intros [= <-]; split; [done |]; split; [done |]; split; [| done];
    intros l' Hl'; by rewrite Hl' in Hbl.
  destruct (Document.forEach _ l _) as [[u | e] d0] eqn:Hfe; [| done].
  intros [= <-]. apply forEach_addBlock_Ok in Hfe as (bs & -> & Hbs).
  split; [done |]. split; [done |]. split.
  - intros l' Hl'. rewrite Hl' in Hbl. by injection Hbl as <-.
  - intros Hu. rewrite Hu in Hbl. injection Hbl as <-.
    by apply Forall2_nil_inv_l in Hbs as ->.
Qed.

Lemma new_stores_blocks_in_order_witness :
  Document.title (Document.article doc_ab) = get options_ab "title" /\
  Document.metadata (Document.article doc_ab)
  = Document.with_default (get options_ab "metadata") (VObj ∅) /\
  (forall l, get options_ab "blocks" = VArr l ->
             Forall2 stored_as l (Document.blocks (Document.article doc_ab))) /\
  (get options_ab "blocks" = VUndefined ->
   Document.blocks (Document.article doc_ab) = []).
Proof.
  apply new_stores_blocks_in_order. vm_compute. reflexivity.
Defined.

Lemma built_reachable d : built d -> reachable d.
Proof.
  induction 1 as [options d Hnew | d x r d' _ IH Hop | d x p r d' _ IH Hop
                  | d id r d' _ IH Hop | d id p r d' _ IH Hop].
  - by eapply reach_new.
  - by eapply reach_addBlock.
  - by eapply reach_insertBlock.
  - by eapply reach_removeBlock.
  - by eapply reach_moveBlock.
Qed.

(** X19 (constructor, addBlock, insertBlock, removeBlock, moveBlock): in
    every document that the constructor builds and that these four
    methods lead to, whether they return or raise, no two stored blocks
    have the same id, and every stored block is the plain object of a
    block that passed the checks of the block constructor. *)
Theorem built_ids_distinct (d : Document.BlockDocDocument) :
  built d ->
  ids_distinct (Document.blocks (Document.article d)) /\
  Forall block_projection (Document.blocks (Document.article d)).
Proof.
  intros Hd. split; [| by apply reachable_projections, built_reachable].
  induction Hd as [options d Hnew | d x r d' _ IH Hop | d x p r d' _ IH Hop
                   | d id r d' _ IH Hop | d id p r d' _ IH Hop].
  - by eapply new_ids_distinct.
  - by eapply addBlock_ids_distinct.
  - by eapply insertBlock_ids_distinct.
  - by eapply removeBlock_ids_distinct.
  - by eapply moveBlock_ids_distinct.
Qed.

Lemma built_ids_distinct_witness :
  ids_distinct (Document.blocks (Document.article doc_acb)) /\
  Forall block_projection (Document.blocks (Document.article doc_acb)).
Proof.
  apply built_ids_distinct.
  apply (built_insertBlock doc_ab (VObj (text_data "c" "three")) minus_one
           (Ok (Block.Instance (text_data "c" "three")))).
  - apply (built_new (VObj options_ab)). vm_compute. reflexivity.
  - vm_compute. reflexivity.
Defined.

(** ** Loading a document *)

Lemma Block_new_error data e :
  Block.new data = Err e -> construction_error e.
Proof.
  destruct data as [| | b | x | s | l | m]; try by intros [= <-].
  rewrite Block_new_object.
  destruct (negb (truthy (get m "id"))); [by intros [= <-] |].
  destruct (negb (Block.includes _ _)).
  { destruct (to_string (get m "type")) as [T | e'] eqn:HT; cbn [rbind];
      intros [= <-]; [done |].
    apply to_string_error in HT as ->. done. }
  destruct (Block.check_required _ _ _ _) as [this | e'] eqn:Hc; [done |].
  cbn [rbind]. intros [= <-].
  by apply check_required_Err in Hc as (prop & -> & _).
Qed.

Lemma addBlock_error x d e d' :
  Document.addBlock x d = (Err e, d') -> construction_error e.
Proof.
  rewrite addBlock_unfold.
  destruct (member x "id") as [id | e'] eqn:Hm.
  - destruct (find _ _); [by intros [= <- _] |].
    destruct (Block.new x) as [b | e'] eqn:Hb; [done |].
    intros [= <- _]. by eapply Block_new_error.
  - intros [= <- _]. destruct x; simpl in Hm; try done; by injection Hm as <-.
Qed.

Lemma forEach_addBlock_error l d e d' :
  Document.forEach
    (fun block => Document.bind (Document.addBlock block)
                    (fun _ => Document.ret tt)) l d = (Err e, d') ->
  construction_error e.
Proof.
  revert d. induction l as [|x l IH]; intros d; [done |].
  cbn [Document.forEach]. unfold Document.bind at 1.
  unfold Document.bind at 1.
  destruct (Document.addBlock x d) as [[blk | e'] d1] eqn:Hadd.
  - unfold Document.ret at 1. apply IH.
  - intros [= <- _]. by eapply addBlock_error.
Qed.

Lemma new_error options e :
  Document.new options = Err e -> construction_error e.
Proof.
  destruct options as [| | b | x | s | l | m]; try by intros [= <-].
  rewrite new_object. cbv zeta.
  destruct (Document.with_default _ _) as [| | | | | l |]; try done.
  destruct (Document.forEach _ l _) as [[u | e'] d0] eqn:Hfe; [done |].
  intros [= <-]. by eapply forEach_addBlock_error.
Qed.

Lemma member_truthy v k : truthy v = true -> exists w, member v k = Ok w.
Proof. destruct v; try done; by eexists. Qed.

(** X20 (fromJSON): for data that are an object, [fromJSON] raises the
    error of the missing article exactly when the article property is
    falsy; every other error it raises is one that the construction of
    the document raises (a block that the block constructor refuses, or a
    second block with an id already stored). A string argument is parsed
    first and then treated in the same way. *)
Theorem fromJSON_errors (data : obj) :
  (Document.fromJSON (Document.JsonObject (VObj data)) = Err MissingArticleError
   <-> truthy (get data "article") = false) /\
  (forall e, Document.fromJSON (Document.JsonObject (VObj data)) = Err e ->
             e = MissingArticleError \/ construction_error e) /\
  (forall t, Document.fromJSON (Document.JsonString t)
             = Document.fromJSON (Document.JsonObject (JSON.parse t))) /\
  message MissingArticleError
  = Some "Invalid BlockDoc document: missing article property".
Proof.
  assert (forall e, truthy (get data "article") = true ->
            Document.fromJSON (Document.JsonObject (VObj data)) = Err e ->
            construction_error e) as Hnew.
  { intros e Ht. unfold Document.fromJSON. cbn [member rbind].
    fold (get data "article"). rewrite Ht. cbn [negb].
    destruct (member_truthy _ "title" Ht) as [t ->].
    destruct (member_truthy _ "metadata" Ht) as [m ->].
    destruct (member_truthy _ "blocks" Ht) as [bs ->].
    cbn [rbind]. apply new_error. }
  repeat split.
  - intros Herr. destruct (truthy (get data "article")) eqn:Ht; [| done].
    by apply Hnew in Herr.
  - intros Ht. unfold Document.fromJSON. cbn [member rbind].
    fold (get data "article"). by rewrite Ht.
  - intros e Herr. destruct (truthy (get data "article")) eqn:Ht.
    + right. by apply Hnew.
    + left. revert Herr. unfold Document.fromJSON. cbn [member rbind].
      fold (get data "article"). rewrite Ht. by intros [= <-].
Qed.

(** X21 (toJSON, fromJSON): for a document that the class can hold, with
    pairwise distinct ids that are strings, numbers or booleans and with
    truthy metadata, [fromJSON] applied to the object that [toJSON]
    returns gives a document equal to it. *)
Theorem fromJSON_toJSON_roundtrip (d : Document.BlockDocDocument) :
  reachable d ->
  ids_distinct (Document.blocks (Document.article d)) ->
  primitive_ids (Document.blocks (Document.article d)) ->
  truthy (Document.metadata (Document.article d)) = true ->
  Document.fromJSON (Document.JsonObject (Document.toJSON d)) = Ok d.
Proof.
  intros Hr Hd _ Hm. apply fromJSON_toJSON; [done.. |].
  by apply reachable_projections.
Qed.

Lemma fromJSON_toJSON_roundtrip_witness :
  Document.fromJSON (Document.JsonObject (Document.toJSON doc_ab)) = Ok doc_ab.
Proof.
  apply fromJSON_toJSON_roundtrip.
  - apply (reach_new (VObj options_ab)). vm_compute. reflexivity.
  - simpl. repeat constructor.
  - unfold primitive_ids. simpl. repeat constructor.
  - reflexivity.
Defined.

(** ** Moving a block *)

Lemma in_bounds_integer p z len :
  well_formed p -> integer_value p = Some z ->
  number_negative p || number_ge_nat p len = false <->
  0 <= z < Z.of_nat len.
Proof.
  intros Hw Hz. pose proof (out_of_bounds_integer p z len Hw Hz) as Hout.
  unfold out_of_bounds in Hout. rewrite orb_false_iff.
  destruct (number_negative p), (number_ge_nat p len); split; try lia;
    tauto.
Qed.

Lemma moveBlock_Ok id p d d' :
  Document.moveBlock id p d = (Ok true, d') ->
  exists i b,
    first_with_id id (Document.blocks (Document.article d)) i b /\
    number_negative p
    || number_ge_nat p (length (Document.blocks (Document.article d))) = false /\
    d' = with_blocks d
           (take (splice_start
                    (length (delete i (Document.blocks (Document.article d)))) p)
              (delete i (Document.blocks (Document.article d)))
            ++ b :: drop (splice_start
                            (length (delete i (Document.blocks
                                                 (Document.article d)))) p)
                      (delete i (Document.blocks (Document.article d)))).
Proof.
  rewrite moveBlock_unfold. cbv zeta.
  destruct (findIndex _ _) as [i |] eqn:Hi; [| done].
  apply findIndex_first in Hi as (b & Hb).
  destruct (number_negative p || number_ge_nat p _) eqn:Hp; [done |].
  rewrite (proj1 Hb). change (default ∅ (Some b)) with b.
  intros [= <-]. by exists i, b.
Qed.

(** X22 (moveBlock): after a successful move to an integer position z, the
    moved block stands at index z, and the other blocks are the former
    ones in their order. *)
Theorem moveBlock_lands_at_position (id : value) (p : number) (z : Z)
    (d d' : Document.BlockDocDocument) :
  well_formed p -> integer_value p = Some z ->
  Document.moveBlock id p d = (Ok true, d') ->
  exists i b,
    first_with_id id (Document.blocks (Document.article d)) i b /\
    0 <= z < Z.of_nat (length (Document.blocks (Document.article d))) /\
    Document.blocks (Document.article d') !! Z.to_nat z = Some b /\
    delete (Z.to_nat z) (Document.blocks (Document.article d'))
    = delete i (Document.blocks (Document.article d)).
Proof.
  intros Hw Hz Hmv. apply moveBlock_Ok in Hmv as (i & b & Hb & Hin & ->).
  apply (in_bounds_integer p z _ Hw Hz) in Hin.
  exists i, b. split; [done |]. split; [done |].
  cbn [with_blocks Document.article Document.blocks].
  pose proof (proj1 Hb) as Hlook.
  pose proof (lookup_lt_Some _ _ _ Hlook) as Hi.
  assert (length (delete i (Document.blocks (Document.article d)))
          = pred (length (Document.blocks (Document.article d)))) as Hlen.
  { rewrite length_delete by (by eexists). lia. }
  rewrite (splice_start_integer _ _ _ Hw Hz), Hlen. unfold insertion_index.
  rewrite (proj2 (Z.ltb_ge _ _)) by lia.
  rewrite Z.min_l by lia.
  assert (length (take (Z.to_nat z)
                    (delete i (Document.blocks (Document.article d))))
          = Z.to_nat z) as Htake.
  { rewrite length_take, Hlen. lia. }
  split.
  - rewrite <- Htake at 1. by rewrite list_lookup_middle.
  - rewrite <- Htake at 1. by rewrite delete_middle, take_drop.
Qed.

Lemma moveBlock_lands_at_position_witness :
  exists i b,
    first_with_id (VStr "b") (Document.blocks (Document.article doc_abc)) i b /\
    0 <= 2 < Z.of_nat (length (Document.blocks (Document.article doc_abc))) /\
    Document.blocks (Document.article doc_acb) !! Z.to_nat 2 = Some b /\
    delete (Z.to_nat 2) (Document.blocks (Document.article doc_acb))
    = delete i (Document.blocks (Document.article doc_abc)).
Proof.
  apply (moveBlock_lands_at_position (VStr "b") two 2 doc_abc doc_acb).
  - vm_compute. repeat split; discriminate.
  - reflexivity.
  - vm_compute. reflexivity.
Defined.

(** X23 (moveBlock): moving a block to the position at which it stands
    returns true and leaves the document as it is. *)
Theorem moveBlock_to_own_position (id : value) (p : number) (i : nat) (b : obj)
    (d : Document.BlockDocDocument) :
  well_formed p -> integer_value p = Some (Z.of_nat i) ->
  first_with_id id (Document.blocks (Document.article d)) i b ->
  Document.moveBlock id p d = (Ok true, d).
Proof.
  intros Hw Hz Hb. rewrite moveBlock_unfold. cbv zeta.
  rewrite (proj2 (findIndex_first _ _ _) (ex_intro _ b Hb)).
  pose proof (proj1 Hb) as Hlook.
  pose proof (lookup_lt_Some _ _ _ Hlook) as Hi.
  rewrite (proj2 (in_bounds_integer p _ _ Hw Hz)) by lia.
  rewrite (proj1 Hb). change (default ∅ (Some b)) with b.
  rewrite (splice_start_integer _ _ _ Hw Hz). unfold insertion_index.
  rewrite (proj2 (Z.ltb_ge _ _)) by lia.
  rewrite length_delete by (by eexists).
  rewrite Z.min_l by lia. rewrite Nat2Z.id.
  rewrite delete_take_drop.
  rewrite take_app_le by (rewrite length_take; lia).
  rewrite take_take, Nat.min_id.
  rewrite drop_app_length' by (rewrite length_take; lia).
  rewrite (take_drop_middle _ _ _ (proj1 Hb)).
  f_equal. apply with_blocks_same.
Qed.

Lemma moveBlock_to_own_position_witness :
  Document.moveBlock (VStr "b") one doc_ab = (Ok true, doc_ab).
Proof.
  apply (moveBlock_to_own_position (VStr "b") one 1 (text_data "b" "two")).
  - vm_compute. repeat split; discriminate.
  - reflexivity.
  - unfold first_with_id. split; [reflexivity |]. split; [reflexivity |].
    intros j b' Hj Hb'. assert (j = 0%nat) as -> by lia.
    injection Hb' as <-. reflexivity.
Defined.
(** * Further properties of the renderers *)

Lemma switch_cons {A} v l (a : A) cases dflt :
  switch v ((l, a) :: cases) dflt
  = if strict_eq v (VStr l) then a else switch v cases dflt.
Proof. unfold switch. cbn [find fst snd]. by destruct (strict_eq v (VStr l)). Qed.

Lemma strict_eq_str v s : strict_eq v (VStr s) = true <-> v = VStr s.
Proof.
  destruct v; cbn [strict_eq]; try (split; [done | discriminate]).
  rewrite bool_decide_eq_true. split; [by intros -> | by intros [= ->]].
Qed.

(** The case analysis of a [switch] over the labels of its cases. *)
Ltac case_switch ty :=
  rewrite ?switch_cons;
  repeat match goal with
    | |- context [strict_eq ty (VStr ?l)] =>
        let H := fresh "Hty" in
        destruct (strict_eq ty (VStr l)) eqn:H;
        [apply strict_eq_str in H |]
    end.

Lemma unprintable_truthy v e : to_string v = Err e -> truthy v = true.
Proof. destruct v as [| | [] | | | |]; done. Qed.

(** The case analysis of a value that is converted to a string: it is
    falsy, or truthy and converts, or does not convert. *)
Ltac case_printable v :=
  let s := fresh "s" in
  let Hv := fresh "Hv" in
  let Ht := fresh "Ht" in
  destruct (printable_dec v) as [[s Hv] | Hv];
  [ destruct (truthy v) eqn:Ht
  | pose proof (unprintable_truthy v _ Hv) as Ht ].

Ltac compute_conversions :=
  repeat first
    [ progress cbn [rbind]
    | match goal with
      | H : to_string ?v = _ |- context [to_string ?v] => rewrite H
      | H : truthy ?v = _ |- context [truthy ?v] => rewrite H
      end ].

Lemma map_index_Ok {A B} (f : A -> nat -> result B) k l outs :
  map_index f k l = Ok outs ->
  length outs = length l /\
  forall i x, l !! i = Some x ->
    exists y, outs !! i = Some y /\ f x (k + i)%nat = Ok y.
Proof.
  revert k outs. induction l as [|x l IH]; intros k outs; cbn [map_index].
  - intros [= <-]. split; [done |]. by intros i x ?.
  - destruct (f x k) as [y |] eqn:Hx; cbn [rbind]; [| done].
    destruct (map_index f (S k) l) as [ys |] eqn:Hl; cbn [rbind]; [| done].
    intros [= <-]. destruct (IH _ _ Hl) as [Hlen Hlook].
    split; [cbn [length]; by rewrite Hlen |].
    intros [|i] x' Hi.
    + injection Hi as <-. exists y. by rewrite Nat.add_0_r.
    + cbn [lookup list_lookup] in *. rewrite <- Nat.add_succ_comm.
      by apply Hlook.
Qed.

Lemma map_index_Err {A B} (f : A -> nat -> result B) k l e :
  map_index f k l = Err e -> exists x i, x ∈ l /\ f x i = Err e.
Proof.
  revert k. induction l as [|x l IH]; intros k; [done |]. cbn [map_index].
  destruct (f x k) as [y | e'] eqn:Hx; cbn [rbind].
  - destruct (map_index f (S k) l) eqn:Hl; cbn [rbind]; [done |].
    intros [= <-]. destruct (IH _ Hl) as (x' & i & Hin & Hx').
    exists x', i. split; [by right | done].
  - intros [= <-]. exists x, k. split; [by left | done].
Qed.

Lemma map_index_fails {A B} (f : A -> nat -> result B) k l x :
  x ∈ l -> (forall i, exists e, f x i = Err e) ->
  exists e, map_index f k l = Err e.
Proof.
  revert k. induction l as [|y l IH]; intros k; [by intros ?%elem_of_nil |].
  intros Hin Hx. cbn [map_index].
  destruct (f y k) as [z | e'] eqn:Hy; cbn [rbind]; [| by eexists].
  apply elem_of_cons in Hin as [-> | Hin].
  - destruct (Hx k). congruence.
  - destruct (IH (S k) Hin Hx) as [e' ->]. by eexists.
Qed.

Lemma renderListBlockToMarkdown_Err (block : obj) :
  Markdown.renderListBlockToMarkdown (VObj block) = Err TypeError <->
  Exists (fun v => ~ printable v) (array_elements (get block "items")).
Proof.
  unfold Markdown.renderListBlockToMarkdown. cbn [member rbind].
  fold (get block "items") (get block "listType").
  destruct (get block "items") as [| | b | x | s | l | m];
    try (split; [done | by intros ?%Exists_nil]).
  cbn [array_elements]. rewrite Exists_exists.
  match goal with
  | |- context [map_index ?f 0%nat l] =>
      set (line := f); destruct (map_index line 0%nat l) as [ls | e] eqn:Hm;
      cbn [rbind]
  end.
  - split; [done |]. intros (item & Hin & Hn). apply not_printable in Hn.
    destruct (map_index_fails line 0%nat l item Hin) as [e He];
      [| congruence].
    intros i. unfold line. rewrite Hn. by eexists.
  - apply map_index_Err in Hm as (item & i & Hin & Hitem).
    unfold line in Hitem.
    destruct (to_string item) as [s |] eqn:Hs; [done |].
    cbn [rbind] in Hitem. injection Hitem as <-.
    apply to_string_error in Hs as Heq. subst.
    split; [| done]. intros _. exists item. split; [done |].
    by apply not_printable.
Qed.

Lemma renderQuoteBlockToMarkdown_Err (block : obj) :
  Markdown.renderQuoteBlockToMarkdown (VObj block) = Err TypeError <->
  content_not_string block \/ ~ printable (get block "attribution").
Proof.
  unfold Markdown.renderQuoteBlockToMarkdown, content_not_string.
  cbn [member rbind]. fold (get block "content") (get block "attribution").
  rewrite not_printable.
  destruct (get block "content") as [| | b | x | c | l | m];
    try (split; [intros _; left; by intros [c Hc] | done]).
  cbv zeta. case_printable (get block "attribution"); compute_conversions.
  - split; [done |]. intros [Hn | Hn]; [| done]. destruct Hn. by eexists.
  - split; [done |]. intros [Hn | Hn]; [| done]. destruct Hn. by eexists.
  - split; [by right | done].
Qed.

Lemma md_converted_type (block : obj) t :
  get block "type" = VStr t ->
  md_converted block
  = if bool_decide (t = "text") || bool_decide (t = "divider") then []
    else if bool_decide (t = "heading")
    then [get block "level"; get block "content"]
    else if bool_decide (t = "image")
    then [get block "alt"; get block "url"; get block "caption"]
    else if bool_decide (t = "code")
    then [get block "language"; get block "content"]
    else if bool_decide (t = "list")
    then array_elements (get block "items")
    else if bool_decide (t = "quote") then [get block "attribution"]
    else if bool_decide (t = "embed")
    then [get block "embedType"; get block "url"; get block "caption"]
    else [VStr t].
Proof. intros Ht. unfold md_converted. by rewrite Ht. Qed.

Ltac unprintable_list :=
  rewrite ?Exists_cons, ?Exists_nil, ?not_printable.

Lemma renderBlockToMarkdown_Err (block : obj) :
  Markdown.renderBlockToMarkdown (VObj block) = Err TypeError <->
  get block "type" = VStr "quote" /\ content_not_string block \/
  Exists (fun v => ~ printable v) (md_converted block).
Proof.
  unfold Markdown.renderBlockToMarkdown. cbn [member rbind].
  fold (get block "type").
  case_switch (get block "type").
  - assert (md_converted block = []) as ->
      by (by rewrite (md_converted_type block "text")).
    unfold Markdown.renderTextBlockToMarkdown. cbn [member].
    unprintable_list. intuition congruence.
  - assert (md_converted block = [get block "level"; get block "content"]) as ->
      by (by rewrite (md_converted_type block "heading")).
    unfold Markdown.renderHeadingBlockToMarkdown, string_value,
      Level.validLevel, Level.parseInt.
    cbn [member rbind]. fold (get block "level") (get block "content").
    unprintable_list.
    case_printable (get block "level"); case_printable (get block "content");
      compute_conversions; intuition congruence.
  - assert (md_converted block = [get block "alt"; get block "url"; get block "caption"]) as ->
      by (by rewrite (md_converted_type block "image")).
    unfold Markdown.renderImageBlockToMarkdown, string_value, or_text.
    cbn [member rbind].
    fold (get block "alt") (get block "url") (get block "caption").
    unprintable_list.
    case_printable (get block "alt"); case_printable (get block "url");
      case_printable (get block "caption");
      compute_conversions; intuition congruence.
  - assert (md_converted block = [get block "language"; get block "content"]) as ->
      by (by rewrite (md_converted_type block "code")).
    unfold Markdown.renderCodeBlockToMarkdown, string_value, or_text.
    cbn [member rbind]. fold (get block "language") (get block "content").
    unprintable_list.
    case_printable (get block "language");
      case_printable (get block "content");
      compute_conversions; intuition congruence.
  - assert (md_converted block = array_elements (get block "items")) as ->
      by (by rewrite (md_converted_type block "list")).
    rewrite <- renderListBlockToMarkdown_Err. unfold string_value.
    destruct (Markdown.renderListBlockToMarkdown (VObj block)) as [s | e] eqn:Hl;
      cbn [rbind]; [intuition congruence |].
    assert (e = TypeError) as ->.
    { revert Hl. unfold Markdown.renderListBlockToMarkdown.
      raises (fun e => e = TypeError) type_error_step. }
    intuition congruence.
  - assert (md_converted block = [get block "attribution"]) as ->
      by (by rewrite (md_converted_type block "quote")).
    unprintable_list. rewrite <- not_printable.
    pose proof (renderQuoteBlockToMarkdown_Err block) as Hq.
    unfold string_value.
    destruct (Markdown.renderQuoteBlockToMarkdown (VObj block)) as [s | e] eqn:Hl;
      cbn [rbind]; [intuition congruence |].
    assert (e = TypeError) as ->.
    { revert Hl. unfold Markdown.renderQuoteBlockToMarkdown.
      raises (fun e => e = TypeError) type_error_step. }
    intuition congruence.
  - assert (md_converted block = [get block "embedType"; get block "url"; get block "caption"]) as ->
      by (by rewrite (md_converted_type block "embed")).
    unfold Markdown.renderEmbedBlockToMarkdown, string_value, or_text.
    cbn [member rbind].
    fold (get block "embedType") (get block "url") (get block "caption").
    unprintable_list.
    case_printable (get block "embedType"); case_printable (get block "url");
      case_printable (get block "caption");
      compute_conversions; intuition congruence.
  - assert (md_converted block = []) as ->
      by (by rewrite (md_converted_type block "divider")).
    unprintable_list. intuition congruence.
  - assert (md_converted block = [get block "type"]) as ->.
    { unfold md_converted.
      destruct (get block "type") as [| | | | t | |]; try done.
      cbn [strict_eq] in *.
      repeat match goal with
             | H : bool_decide (_ = _) = false |- _ => rewrite H; clear H
             end.
      done. }
    unprintable_list.
    assert (get block "type" <> VStr "quote") as Hnq.
    { intros Hq. rewrite Hq in *. discriminate. }
    destruct (printable_dec (get block "type")) as [[T HT] | HT];
      rewrite HT; cbn [rbind]; unfold switch; cbn [find];
      intuition congruence.
Qed.

(** X24 (renderBlockToMarkdown): rendering a block to Markdown raises
    nothing but the host's TypeError, and it raises exactly when the block
    is a quote whose content is not a string or one of the values that
    the renderer of the block converts to a string does not convert.
    A text block and a divider never raise. *)
Theorem renderBlockToMarkdown_raises (block : obj) :
  (forall e, Markdown.renderBlockToMarkdown (VObj block) = Err e ->
             e = TypeError) /\
  (Markdown.renderBlockToMarkdown (VObj block) = Err TypeError <->
   get block "type" = VStr "quote" /\ content_not_string block \/
   Exists (fun v => ~ printable v) (md_converted block)) /\
  ((exists line, Markdown.renderBlockToMarkdown (VObj block) = Ok line) <->
   ~ (get block "type" = VStr "quote" /\ content_not_string block) /\
   Forall printable (md_converted block)).
Proof.
  split; [intros e; apply renderBlockToMarkdown_error |].
  split; [apply renderBlockToMarkdown_Err |].
  pose proof (renderBlockToMarkdown_Err block) as Herr.
  assert (Forall printable (md_converted block) <->
          ~ Exists (fun v => ~ printable v) (md_converted block)) as ->.
  { rewrite Forall_forall, Exists_exists. split.
    - intros Hall (v & Hin & Hn). by apply Hn, Hall.
    - intros Hn v Hin. destruct (printable_dec v) as [Hv | Hv]; [done |].
      destruct Hn. exists v. split; [done |]. by apply not_printable. }
  destruct (Markdown.renderBlockToMarkdown (VObj block)) as [line | e] eqn:Hr.
  - split; [| by eexists]. intros _.
    split; intros H;
      [assert (Ok line = Err TypeError) by (apply Herr; by left)
      | assert (Ok line = Err TypeError) by (apply Herr; by right)]; done.
  - apply renderBlockToMarkdown_error in Hr as Heq. subst e.
    split; [by intros [line Hline] |]. intros [Hn1 Hn2].
    destruct (proj1 Herr eq_refl); tauto.
Qed.

(** X25 (renderListBlockToMarkdown): a list block whose items convert to
    strings renders as one line for each item, in order; the line of the
    item at index i is its number i + 1, a full stop and a space followed
    by the item when the list type is "ordered", and a hyphen and a space
    followed by the item for any other list type. An item that does not
    convert makes the renderer raise TypeError, and items that are not an
    array render as a placeholder. *)
Theorem renderListBlockToMarkdown_lines (block : obj) :
  (forall l, get block "items" = VArr l -> Forall printable l ->
     exists lines,
       Markdown.renderListBlockToMarkdown (VObj block) = Ok (join nl lines) /\
       length lines = length l /\
       forall i item s, l !! i = Some item -> prints_as item s ->
         lines !! i
         = Some (if strict_eq (get block "listType") (VStr "ordered")
                 then pretty (S i) +:+ ". " +:+ s
                 else "- " +:+ s)) /\
  (forall l, get block "items" = VArr l ->
     Exists (fun item => ~ printable item) l ->
     Markdown.renderListBlockToMarkdown (VObj block) = Err TypeError) /\
  (isArray (get block "items") = false ->
   Markdown.renderListBlockToMarkdown (VObj block) = Ok "[Invalid list items]").
Proof.
  split; [| split].
  - intros l Hl Hall.
    unfold Markdown.renderListBlockToMarkdown. cbn [member rbind].
    fold (get block "items") (get block "listType"). rewrite Hl.
    match goal with
    | |- context [map_index ?f 0%nat l] =>
        set (line := f); destruct (map_index line 0%nat l) as [ls | e] eqn:Hm;
        cbn [rbind]
    end.
    + exists ls. split; [done |].
      apply map_index_Ok in Hm as [Hlen Hlook]. split; [done |].
      intros i item s Hi Hs. destruct (Hlook i item Hi) as (y & -> & Hy).
      unfold line in Hy. unfold prints_as in Hs. rewrite Hs in Hy.
      cbn [rbind] in Hy. by injection Hy as <-.
    + apply map_index_Err in Hm as (item & i & Hin & Hitem).
      rewrite Forall_forall in Hall. destruct (Hall item Hin) as [s Hs].
      unfold line in Hitem. by rewrite Hs in Hitem.
  - intros l Hl Hex. apply renderListBlockToMarkdown_Err. by rewrite Hl.
  - unfold Markdown.renderListBlockToMarkdown. cbn [member rbind].
    fold (get block "items"). by destruct (get block "items").
Qed.

Lemma renderListBlockToMarkdown_lines_witness :
  exists lines,
    Markdown.renderListBlockToMarkdown (VObj list_data_ab)
    = Ok (join nl lines) /\
    length lines = 2%nat /\
    forall i item s, [VStr "a"; VStr "b"] !! i = Some item ->
      prints_as item s ->
      lines !! i
      = Some (if strict_eq (get list_data_ab "listType") (VStr "ordered")
              then pretty (S i) +:+ ". " +:+ s
              else "- " +:+ s).
Proof.
  apply (proj1 (renderListBlockToMarkdown_lines list_data_ab)
           [VStr "a"; VStr "b"]); [reflexivity |].
  repeat constructor; by eexists.
Defined.

(** ** Lines *)

Lemma split_on_nonempty c s : split_on c s <> [].
Proof.
  destruct s as [|a s]; [done |]. cbn [split_on].
  destruct (decide (a = c)); [done |]. by destruct (split_on c s).
Qed.

Lemma split_on_app_sep c a b :
  split_on c (a +:+ String c b) = split_on c a ++ split_on c b.
Proof.
  induction a as [|x a IH].
  - change ("" +:+ String c b) with (String c b). cbn [split_on].
    by rewrite decide_True.
  - rewrite string_app_cons. cbn [split_on].
    destruct (decide (x = c)); [by rewrite IH |].
    rewrite IH. pose proof (split_on_nonempty c a).
    by destruct (split_on c a).
Qed.

Lemma split_on_no_sep c s : includes_char c s = false -> split_on c s = [s].
Proof.
  induction s as [|a s IH]; [done |]. cbn [includes_char split_on].
  intros [Ha Hs]%orb_false_iff. apply bool_decide_eq_false in Ha.
  rewrite decide_False by done. by rewrite IH.
Qed.

Lemma split_on_pieces c s :
  Forall (fun w => includes_char c w = false) (split_on c s).
Proof.
  induction s as [|a s IH]; [by repeat constructor |]. cbn [split_on].
  destruct (decide (a = c)); [by constructor |].
  pose proof (split_on_nonempty c s).
  destruct (split_on c s) as [|w ws]; [done |].
  apply Forall_cons in IH as [Hw Hws]. constructor; [| done].
  cbn [includes_char]. rewrite Hw, orb_false_r. by apply bool_decide_eq_false.
Qed.

Lemma split_on_join c ls :
  ls <> [] -> Forall (fun w => includes_char c w = false) ls ->
  split_on c (join (String c "") ls) = ls.
Proof.
  induction ls as [|x ls IH]; [done |]. intros _ [Hx Hls]%Forall_cons.
  destruct ls as [|y ls]; [by apply split_on_no_sep |].
  change (join (String c "") (x :: y :: ls))
    with (x +:+ String c (join (String c "") (y :: ls))).
  rewrite split_on_app_sep, (split_on_no_sep _ _ Hx), IH; done.
Qed.

(** X26 (renderQuoteBlockToMarkdown): a quote whose content is a string
    renders with every line of the content, in order, prefixed by "> ";
    an attribution, when there is one and it converts to a string,
    follows after a line that holds ">" alone, prefixed by ">", a space,
    the control character U+0014 and a space. An attribution that does
    not convert makes the renderer raise TypeError. *)
Theorem renderQuoteBlockToMarkdown_lines (block : obj) (c : string) :
  get block "content" = VStr c ->
  (truthy (get block "attribution") = false ->
   exists out,
     Markdown.renderQuoteBlockToMarkdown (VObj block) = Ok out /\
     split_on newline out
     = (fun line => "> " +:+ line) <$> split_on newline c) /\
  (forall A,
     truthy (get block "attribution") = true ->
     prints_as (get block "attribution") A ->
     exists out,
       Markdown.renderQuoteBlockToMarkdown (VObj block) = Ok out /\
       split_on newline out
       = ((fun line => "> " +:+ line) <$> split_on newline c)
         ++ ">" :: split_on newline ("> " +:+ String dc4 " " +:+ A)) /\
  (~ printable (get block "attribution") ->
   Markdown.renderQuoteBlockToMarkdown (VObj block) = Err TypeError).
Proof.
  intros Hc.
  assert (split_on newline
            (join nl (map (fun line => "> " +:+ line) (split_on newline c)))
          = (fun line => "> " +:+ line) <$> split_on newline c) as Hlines.
  { apply split_on_join.
    - pose proof (split_on_nonempty newline c). by destruct (split_on newline c).
    - apply Forall_fmap.
      eapply Forall_impl; [apply split_on_pieces |]. by intros w Hw. }
  split; [| split].
  - intros Ht. unfold Markdown.renderQuoteBlockToMarkdown. cbn [member rbind].
    fold (get block "content") (get block "attribution"). rewrite Hc, Ht.
    by eexists.
  - intros A Ht HA. unfold Markdown.renderQuoteBlockToMarkdown.
    cbn [member rbind].
    fold (get block "content") (get block "attribution"). rewrite Hc, Ht.
    unfold prints_as in HA. rewrite HA. cbn [rbind].
    eexists. split; [done |]. unfold nl in *.
    repeat change (String newline "" +:+ ?s) with (String newline s).
    by rewrite !split_on_app_sep, Hlines.
  - intros Hn. apply renderQuoteBlockToMarkdown_Err. by right.
Qed.

Lemma renderQuoteBlockToMarkdown_lines_witness :
  exists out,
    Markdown.renderQuoteBlockToMarkdown (VObj quote_data_attributed) = Ok out /\
    split_on newline out
    = ((fun line => "> " +:+ line) <$> split_on newline ("one" +:+ nl +:+ "two"))
      ++ ">" :: split_on newline ("> " +:+ String dc4 " " +:+ "Ann").
Proof.
  apply (proj1 (proj2 (renderQuoteBlockToMarkdown_lines quote_data_attributed
                         ("one" +:+ nl +:+ "two") eq_refl)) "Ann");
    reflexivity.
Defined.

Example renderQuoteBlockToMarkdown_attributed :
  Markdown.renderQuoteBlockToMarkdown (VObj quote_data_attributed)
  = Ok ("> one" +:+ nl +:+ "> two" +:+ nl +:+ ">" +:+ nl +:+
        "> " +:+ String dc4 " Ann").
Proof. by vm_compute. Qed.

(** ** HTML *)

Lemma sanitizeHtml_Err v e :
  Sanitize.sanitizeHtml v = Err e -> e = TypeError /\ ~ printable v.
Proof.
  intros H. apply sanitizeHtml_error in H as He. subst e. split; [done |].
  intros Hp. destruct (sanitizeHtml_printable v Hp). congruence.
Qed.

(** X27 (renderCodeBlock): the rendering of a code block raises nothing
    but TypeError, and only when the language or the content does not
    convert to a string; an error of the highlighter is never passed on.
    When every call of the highlighter throws, the code element holds
    the escaped content. *)
Theorem renderCodeBlock_highlighter_errors `{Collaborators} (block : obj) :
  (forall e, Html.renderCodeBlock (VObj block) = Err e ->
     e = TypeError /\
     (~ printable (get block "language") \/
      ~ printable (get block "content"))) /\
  (printable (get block "language") -> printable (get block "content") ->
   exists html, Html.renderCodeBlock (VObj block) = Ok html) /\
  ((forall content language, hljs_highlight content language = None) ->
   (forall content, hljs_highlightAuto content = None) ->
   forall cls C,
     language_class (get block "language") cls ->
     Sanitize.sanitizeHtml (get block "content") = Ok C ->
     Html.renderCodeBlock (VObj block)
     = Ok (nl +:+
           "    <pre class=" +:+ q +:+ "blockdoc-pre" +:+ q +:+ ">" +:+ nl +:+
           "      <code class=" +:+ q +:+ "blockdoc-code " +:+ cls +:+
           q +:+ ">" +:+ C +:+
           "</code>" +:+ nl +:+
           "    </pre>" +:+ nl +:+
           "  ")).
Proof.
  unfold Html.renderCodeBlock. cbn [member rbind].
  fold (get block "language") (get block "content"). cbv zeta.
  split; [| split].
  - intros e.
    match goal with
    | |- context [match ?h with Ok code => Ok code | Err _ => _ end] =>
        destruct h as [code | e0]
    end; cbn [rbind].
    + case_printable (get block "language"); compute_conversions;
        try done.
      intros [= <-]. split; [done |]. left. by apply not_printable.
    + destruct (Sanitize.sanitizeHtml (get block "content")) as [C | e1] eqn:HC;
        cbn [rbind].
      * case_printable (get block "language"); compute_conversions;
          try done.
        intros [= <-]. split; [done |]. left. by apply not_printable.
      * apply sanitizeHtml_Err in HC as [-> HC]. intros [= <-]. auto.
  - intros [L HL] HC. apply sanitizeHtml_printable in HC as [C HC].
    match goal with
    | |- context [match ?h with Ok code => Ok code | Err _ => _ end] =>
        destruct h as [code | e0]
    end; rewrite ?HC, ?HL; cbn [rbind];
      destruct (truthy (get block "language")); by eexists.
  - intros Hh Ha cls C Hcls HC. unfold language_class in Hcls.
    rewrite Hh, Ha. cbn [external].
    match goal with
    | |- context [match ?h with Ok code => Ok code | Err _ => _ end] =>
        assert (exists e, h = Err e) as [e0 ->]
    end.
    { destruct (truthy (get block "language")); cbn [rbind]; [| by eexists].
      destruct (external _) as [[] |]; cbn [rbind]; by eexists. }
    rewrite HC. cbn [rbind].
    destruct (truthy (get block "language")); [| by subst cls].
    destruct Hcls as (L & HL & ->). unfold prints_as in HL. by rewrite HL.
Qed.

Lemma renderCodeBlock_highlighter_errors_witness :
  @Html.renderCodeBlock failing_highlighter (VObj code_data_markup)
  = Ok (nl +:+
        "    <pre class=" +:+ q +:+ "blockdoc-pre" +:+ q +:+ ">" +:+ nl +:+
        "      <code class=" +:+ q +:+ "blockdoc-code " +:+ "language-html" +:+
        q +:+ ">" +:+ "&lt;b&gt;" +:+
        "</code>" +:+ nl +:+
        "    </pre>" +:+ nl +:+
        "  ").
Proof.
  apply (proj2 (proj2 (@renderCodeBlock_highlighter_errors failing_highlighter
                         code_data_markup))); try reflexivity.
  exists "html". split; reflexivity.
Defined.

Lemma external_Err {A} (o : option A) e :
  external o = Err e <-> e = ExternalError /\ o = None.
Proof.
  destruct o; cbn [external]; split; try done.
  - by intros [_ ?].
  - by intros [= <-].
  - by intros [-> _].
Qed.

Lemma renderListBlock_Err `{Collaborators} (block : obj) :
  Html.renderListBlock (VObj block) = Err ExternalError <->
  exists l item, get block "items" = VArr l /\ item ∈ l /\
                 marked_parse item = None.
Proof.
  unfold Html.renderListBlock. cbn [member rbind].
  fold (get block "items") (get block "listType").
  destruct (get block "items") as [| | b | x | s | l | m];
    try (split; [done | by intros (? & ? & ? & _)]).
  cbv zeta.
  match goal with
  | |- context [map_result ?f l] =>
      set (li := f); destruct (map_result li l) as [lis | e'] eqn:Hm;
      cbn [rbind]
  end.
  - split.
    + destruct (to_string (get block "listType")) as [s | e] eqn:Hs;
        cbn [rbind]; [done |].
      apply to_string_error in Hs. by subst e.
    + intros (l' & item & [= <-] & Hin & Hp).
      destruct (map_result_fails li l item ExternalError Hin) as [e' He'].
      * unfold li. by rewrite Hp.
      * rewrite He' in Hm. done.
  - apply map_result_Err in Hm as (item & Hin & Hitem).
    unfold li in Hitem.
    destruct (marked_parse item) as [p |] eqn:Hp; [done |].
    cbn [external rbind] in Hitem. injection Hitem as <-.
    split; [| done]. intros _. by exists l, item.
Qed.

(** A value that converts is escaped, read as a level and printed
    without an error. *)
Ltac printable_step :=
  let Hx := fresh "Hx" in
  intros Hx;
  first
    [ by apply external_error in Hx
    | exfalso;
      match goal with
      | Hp : printable ?v |- _ =>
          match type of Hx with
          | to_string v = Err _ => destruct Hp as [? Hp]; congruence
          | Sanitize.sanitizeHtml v = Err _ =>
              destruct (sanitizeHtml_printable v Hp); congruence
          | Level.validLevel v = Err _ =>
              let s := fresh "s" in
              destruct Hp as [s Hp]; rewrite (validLevel_text v s Hp) in Hx;
              discriminate Hx
          end
      end ].

Ltac unfold_html_renderers :=
  unfold Html.renderTextBlock, Html.renderHeadingBlock, Html.renderImageBlock,
    Html.renderCodeBlock, Html.renderListBlock, Html.renderQuoteBlock,
    Html.renderEmbedBlock.

(** A block whose fields convert to strings raises nothing but the error
    of a collaborator. *)
Lemma renderBlock_printable `{Collaborators} (block : obj) e :
  Forall (fun k => printable (get block k)) html_fields ->
  Html.renderBlock (VObj block) = Err e -> e = ExternalError.
Proof.
  unfold html_fields. intros Hall.
  repeat match type of Hall with
         | Forall _ (_ :: _) =>
             let Hk := fresh "Hk" in apply Forall_cons in Hall as [Hk Hall]
         end.
  clear Hall. unfold get in *. unfold Html.renderBlock.
  cbn [member rbind].
  apply (rbind_error _ _ _ (fun e => e = ExternalError));
    [intros e'; printable_step |]. clear e. intros typeText e.
  apply (rbind_error _ _ _ (fun e => e = ExternalError));
    [intros e'; printable_step |]. clear e. intros idText e.
  cbv zeta.
  apply (rbind_error _ _ _ (fun e => e = ExternalError)); [| done].
  clear e. intros e.
  match goal with
  | |- switch ?v ?cs ?d = _ -> _ =>
      destruct (switch_cases v cs d) as [-> | Hin];
        [| revert Hin; generalize (switch v cs d); intros r Hin]
  end.
  { done. }
  cbn [fmap list_fmap snd] in Hin. rewrite !elem_of_cons, elem_of_nil in Hin.
  unfold Html.renderTextBlock, Html.renderHeadingBlock, Html.renderImageBlock,
    Html.renderCodeBlock, Html.renderListBlock, Html.renderQuoteBlock,
    Html.renderEmbedBlock in Hin.
  cbn [member rbind] in Hin.
  repeat (destruct Hin as [-> | Hin]; [| try done]);
    raises (fun e => e = ExternalError) printable_step.
Qed.

Lemma fields_printable_dec (block : obj) (ks : list string) :
  Forall (fun k => printable (get block k)) ks \/
  Exists (fun k => ~ printable (get block k)) ks.
Proof.
  induction ks as [|k ks [IH | IH]].
  - by left.
  - destruct (printable_dec (get block k)) as [Hk | Hk].
    + left. by constructor.
    + right. left. by apply not_printable.
  - right. by right.
Qed.

Lemma renderBlock_content `{Collaborators} (block : obj) T I :
  prints_as (get block "type") T -> prints_as (get block "id") I ->
  exists openWrapper,
    Html.renderBlock (VObj block) =
    (content <-r switch (get block "type")
                   [("text", Html.renderTextBlock (VObj block));
                    ("heading", Html.renderHeadingBlock (VObj block));
                    ("image", Html.renderImageBlock (VObj block));
                    ("code", Html.renderCodeBlock (VObj block));
                    ("list", Html.renderListBlock (VObj block));
                    ("quote", Html.renderQuoteBlock (VObj block));
                    ("embed", Html.renderEmbedBlock (VObj block));
                    ("divider", Ok Html.renderDividerBlock)]
                   (Ok ("<p>Unknown block type: " +:+ T +:+ "</p>"));;
     Ok (openWrapper +:+ content +:+ "</div>")).
Proof.
  intros HT HI. unfold Html.renderBlock. cbn [member rbind].
  fold (get block "type") (get block "id").
  unfold prints_as in HT, HI. rewrite HT, HI. cbn [rbind]. by eexists.
Qed.

Lemma rbind_Err_Ok {A B} (r : result A) (f : A -> B) e :
  (x <-r r;; Ok (f x)) = Err e <-> r = Err e.
Proof. destruct r; cbn [rbind]; split; congruence. Qed.

Lemma renderBlock_Err `{Collaborators} (block : obj) :
  Html.renderBlock (VObj block) = Err ExternalError <->
  printable (get block "type") /\ printable (get block "id") /\
  ((get block "type" = VStr "text" \/ get block "type" = VStr "quote") /\
   marked_parse (get block "content") = None \/
   get block "type" = VStr "list" /\
   exists l item, get block "items" = VArr l /\ item ∈ l /\
                  marked_parse item = None).
Proof.
  destruct (printable_dec (get block "type")) as [[T HT] | HT].
  2: { split.
       - unfold Html.renderBlock. cbn [member rbind].
         fold (get block "type"). by rewrite HT.
       - intros ([T HT'] & _). congruence. }
  destruct (printable_dec (get block "id")) as [[I HI] | HI].
  2: { split.
       - unfold Html.renderBlock. cbn [member rbind].
         fold (get block "type") (get block "id"). by rewrite HT, HI.
       - intros (_ & [I HI'] & _). congruence. }
  destruct (renderBlock_content block T I HT HI) as [w ->].
  rewrite rbind_Err_Ok.
  assert (printable (get block "type") /\ printable (get block "id")) as Hp
    by (split; by eexists).
  assert (forall (r : result string),
            (forall e, r = Err e -> e = TypeError) ->
            get block "type" <> VStr "text" ->
            get block "type" <> VStr "quote" ->
            get block "type" <> VStr "list" ->
            r = Err ExternalError <->
            printable (get block "type") /\ printable (get block "id") /\
            ((get block "type" = VStr "text" \/ get block "type" = VStr "quote") /\
             marked_parse (get block "content") = None \/
             get block "type" = VStr "list" /\
             exists l item, get block "items" = VArr l /\ item ∈ l /\
                            marked_parse item = None)) as Hother.
  { intros r Hr H1 H2 H3. split.
    - intros He. by apply Hr in He.
    - intros (_ & _ & [[[? | ?] _] | [? _]]); done. }
  case_switch (get block "type").
  - unfold Html.renderTextBlock. cbn [member rbind].
    fold (get block "content"). rewrite external_Err.
    split; [intros [_ Hm]; split; [tauto |]; split; [tauto |]; left; tauto |].
    intros (_ & _ & [[_ Hm] | [Hl _]]); [done | congruence].
  - apply Hother; [| congruence..]. unfold Html.renderHeadingBlock.
    intros e. raises (fun e => e = TypeError) type_error_step.
  - apply Hother; [| congruence..]. unfold Html.renderImageBlock.
    intros e. raises (fun e => e = TypeError) type_error_step.
  - apply Hother; [| congruence..]. unfold Html.renderCodeBlock.
    intros e. raises (fun e => e = TypeError) type_error_step.
  - rewrite renderListBlock_Err. split.
    + intros Hit. split; [tauto |]. split; [tauto |]. by right.
    + intros (_ & _ & [[[? | ?] _] | [_ Hit]]); [congruence.. | done].
  - unfold Html.renderQuoteBlock. cbn [member rbind].
    fold (get block "content") (get block "attribution").
    destruct (marked_parse (get block "content")) eqn:Hm; cbn [external rbind].
    + split.
      * cbv zeta. intros He. exfalso.
        assert (ExternalError = TypeError) as Heq; [| discriminate Heq].
        revert He. raises (fun e => e = TypeError) type_error_step.
      * intros (_ & _ & [[_ ?] | [? _]]); congruence.
    + split; [| done]. intros _. split; [tauto |]. split; [tauto |].
      left. split; [by right | done].
  - apply Hother; [| congruence..]. unfold Html.renderEmbedBlock.
    intros e. raises (fun e => e = TypeError) type_error_step.
  - apply Hother; [by intros e [=] | congruence..].
  - unfold switch. cbn [find]. split; [done |].
    intros (_ & _ & [[[Hq | Hq] _] | [Hq _]]); rewrite Hq in *;
      match goal with
      | H : strict_eq (VStr ?l) (VStr ?l) = false |- _ => discriminate H
      end.
Qed.

(** X28 (renderBlock): rendering a block to HTML raises nothing but
    TypeError and the error of the Markdown converter. It raises the
    latter exactly when the type and the id convert to strings and the
    converter throws on the content of a text or quote block or on an
    item of a list block; it raises TypeError only when one of the fields
    that the renderer prints does not convert to a string. A block whose
    fields convert and whose type is none of text, quote and list always
    renders. *)
Theorem renderBlock_raises `{Collaborators} (block : obj) :
  (forall e, Html.renderBlock (VObj block) = Err e -> html_error e) /\
  (Html.renderBlock (VObj block) = Err ExternalError <->
   printable (get block "type") /\ printable (get block "id") /\
   ((get block "type" = VStr "text" \/ get block "type" = VStr "quote") /\
    marked_parse (get block "content") = None \/
    get block "type" = VStr "list" /\
    exists l item, get block "items" = VArr l /\ item ∈ l /\
                   marked_parse item = None)) /\
  (Html.renderBlock (VObj block) = Err TypeError ->
   exists k, k ∈ html_fields /\ ~ printable (get block k)) /\
  (Forall (fun k => printable (get block k)) html_fields ->
   get block "type" ∉ [VStr "text"; VStr "quote"; VStr "list"] ->
   exists html, Html.renderBlock (VObj block) = Ok html).
Proof.
  split; [intros e; apply renderBlock_error |].
  split; [apply renderBlock_Err |]. split.
  - intros Hr. destruct (fields_printable_dec block html_fields) as [Hall | Hex].
    + by apply (renderBlock_printable block _ Hall) in Hr.
    + by apply Exists_exists in Hex.
  - intros Hall Hty.
    destruct (Html.renderBlock (VObj block)) as [s | e] eqn:Hr; [by eexists |].
    apply (renderBlock_printable block _ Hall) in Hr as He. subst e.
    apply renderBlock_Err in Hr as (_ & _ & [[[Hq | Hq] _] | [Hq _]]);
      destruct Hty; rewrite Hq, !elem_of_cons; tauto.
Qed.

Lemma renderBlock_raises_witness :
  exists html,
    @Html.renderBlock failing_highlighter (VObj code_data_markup) = Ok html.
Proof.
  apply (proj2 (proj2 (proj2 (@renderBlock_raises failing_highlighter
                                code_data_markup)))).
  - unfold html_fields. repeat constructor; by eexists.
  - change (get code_data_markup "type") with (VStr "code").
    intros Hin. apply list_elem_of_In in Hin. simpl in Hin.
    destruct Hin as [Hq | [Hq | [Hq | []]]]; discriminate Hq.
Defined.

(** X29 (extractYouTubeId, renderEmbedBlock): when the URL of an embed
    block does not parse, or its host is none of youtu.be, www.youtube.com
    and youtube.com, no video id is extracted; a block whose embed type is
    "youtube" then renders as the notice of an invalid URL, inside the
    figure with the escaped caption when there is a caption. A caption
    that does not convert to a string makes the renderer raise
    TypeError. *)
Theorem renderEmbedBlock_youtube_without_id `{Collaborators} (block : obj) :
  get block "embedType" = VStr "youtube" ->
  (forall u, URL_parse (get block "url") = Some u ->
             hostname u ∉ youtube_hosts) ->
  Html.extractYouTubeId (get block "url") = None /\
  (truthy (get block "caption") = false ->
   Html.renderEmbedBlock (VObj block) = Ok "<p>Invalid YouTube URL</p>") /\
  (forall C,
     truthy (get block "caption") = true ->
     Sanitize.sanitizeHtml (get block "caption") = Ok C ->
     Html.renderEmbedBlock (VObj block)
     = Ok ("<figure class=" +:+ q +:+ "blockdoc-figure" +:+ q +:+ ">" +:+
           ("<p>Invalid YouTube URL</p>" +:+
            "<figcaption class=" +:+ q +:+ "blockdoc-caption" +:+ q +:+
            ">" +:+ C +:+ "</figcaption>") +:+
           "</figure>")) /\
  (~ printable (get block "caption") ->
   Html.renderEmbedBlock (VObj block) = Err TypeError).
Proof.
  intros Het Hhost.
  assert (Html.extractYouTubeId (get block "url") = None) as Hid.
  { unfold Html.extractYouTubeId.
    destruct (URL_parse (get block "url")) as [u |] eqn:Hu; [| done].
    specialize (Hhost u eq_refl). unfold youtube_hosts in Hhost.
    rewrite !elem_of_cons, elem_of_nil in Hhost.
    rewrite !bool_decide_eq_false_2 by tauto. done. }
  split; [done |].
  unfold Html.renderEmbedBlock. cbn [member rbind].
  fold (get block "url") (get block "caption") (get block "embedType").
  rewrite Het, Hid. cbn [strict_eq]. rewrite bool_decide_eq_true_2 by done.
  cbn [rbind]. split; [| split].
  - by intros ->.
  - intros C -> ->. done.
  - intros Hn. rewrite (sanitizeHtml_not_printable _ Hn).
    apply not_printable in Hn. by rewrite (unprintable_truthy _ _ Hn).
Qed.

Lemma renderEmbedBlock_youtube_without_id_witness :
  @Html.extractYouTubeId simple_collaborators (get embed_data_youtube "url")
  = None /\
  @Html.renderEmbedBlock simple_collaborators (VObj embed_data_youtube)
  = Ok "<p>Invalid YouTube URL</p>".
Proof.
  destruct (@renderEmbedBlock_youtube_without_id simple_collaborators
              embed_data_youtube) as (Hid & Hno & _).
  - reflexivity.
  - intros u Hu. discriminate Hu.
  - split; [exact Hid | by apply Hno].
Defined.

(** ** The rendering methods of a document *)

Lemma article_value_blocks a :
  exists m : obj,
    Document.article_value a = VObj m /\
    get m "blocks" = VArr (VObj <$> Document.blocks a) /\
    get m "title" = Document.title a /\
    get m "metadata" = Document.metadata a.
Proof.
  unfold Document.article_value. eexists. split; [done |].
  unfold get. rewrite lookup_insert_eq.
  rewrite !lookup_insert_ne by done. by rewrite !lookup_insert_eq.
Qed.

(** X30 (Document.renderToMarkdown, Document.renderToHTML): the rendering
    methods of a document never raise the error of an invalid article
    structure: rendering to Markdown raises nothing but the host's
    TypeError, and rendering to HTML nothing but that and the error of
    the Markdown converter, the latter only when the converter throws on
    a stored text, quote or list block. Rendering to Markdown succeeds
    when the title and the printed fields of the metadata convert to
    strings and every stored block renders on its own to a line that
    converts; rendering to HTML succeeds when the title converts and
    every stored block renders on its own. *)
Theorem Document_render_errors `{Collaborators}
    (d : Document.BlockDocDocument) :
  (forall e, Document_renderToMarkdown d = Err e -> e = TypeError) /\
  (forall e, Document_renderToHTML d = Err e -> html_error e) /\
  (Document_renderToHTML d = Err ExternalError ->
   exists b, b ∈ Document.blocks (Document.article d) /\
             get b "type" ∈ [VStr "text"; VStr "quote"; VStr "list"] /\
             Html.renderBlock (VObj b) = Err ExternalError) /\
  (printable (Document.title (Document.article d)) ->
   metadata_printable (Document.metadata (Document.article d)) ->
   (forall b, b ∈ Document.blocks (Document.article d) ->
              exists s, md_renders (VObj b) s) ->
   exists out, Document_renderToMarkdown d = Ok out) /\
  (printable (Document.title (Document.article d)) ->
   (forall b, b ∈ Document.blocks (Document.article d) ->
              exists s, Html.renderBlock (VObj b) = Ok s) ->
   exists out, Document_renderToHTML d = Ok out).
Proof.
  unfold Document_renderToMarkdown, Document_renderToHTML.
  destruct (article_value_blocks (Document.article d))
    as (m & -> & Hb & Htitle & Hmeta).
  split; [intros e; by apply (renderToMarkdown_error m _ e Hb) |].
  split; [intros e; by apply (renderToHTML_error m _ e Hb) |].
  split; [| split].
  - destruct (renderToHTML_accepted m _ Hb) as [front ->].
    destruct (Sanitize.sanitizeHtml (get m "title")) as [t | e] eqn:Ht;
      cbn [rbind]; [| intros [= ->]; by apply sanitizeHtml_error in Ht].
    destruct (map_result Html.renderBlock _) as [body | e'] eqn:Hbody;
      cbn [rbind]; [done |].
    intros [= ->]. apply map_result_Err in Hbody as (b & Hin & Hr).
    apply list_elem_of_fmap in Hin as (x & -> & Hx).
    exists x. split; [done |]. split; [| done].
    apply renderBlock_Err in Hr as (_ & _ & Hcases).
    rewrite !elem_of_cons.
    destruct Hcases as [[[-> | ->] _] | [-> _]]; tauto.
  - rewrite <- Htitle, <- Hmeta. intros [title Ht] Hm Hblocks.
    destruct (metadata_lines_printable (get m "metadata") Hm) as [meta Hlines].
    destruct (md_renders_all (VObj <$> Document.blocks (Document.article d)))
      as [outs Houts].
    { intros b (x & -> & Hx)%list_elem_of_fmap. by apply Hblocks. }
    destruct (block_lines_outs _ outs Houts) as (body & Hbody & Hjoin).
    rewrite (renderToMarkdown_accepted m _ Hb), Ht, Hlines, Hbody.
    cbn [rbind]. unfold array_join. rewrite app_assoc.
    rewrite (map_result_app element_string
               ([VStr ("# " +:+ title); VStr ""] ++ (VStr <$> meta)) body
               (["# " +:+ title; ""] ++ meta)
               (concat ((fun s => [s; ""]) <$> outs)));
      [by eexists
      | by apply (map_result_strings (["# " +:+ title; ""] ++ meta))
      | done].
  - rewrite <- Htitle. intros Ht Hblocks.
    apply sanitizeHtml_printable in Ht as [t Ht].
    destruct (renderToHTML_accepted m _ Hb) as [front ->]. rewrite Ht.
    cbn [rbind].
    destruct (map_result_total Html.renderBlock
                (VObj <$> Document.blocks (Document.article d)))
      as [outs ->]; [| by eexists].
    intros b (x & -> & Hx)%list_elem_of_fmap. by apply Hblocks.
Qed.

(** A quote whose content is a number makes the rendering to Markdown
    raise. *)
Example Document_renderToMarkdown_quote_number :
  @Document_renderToMarkdown simple_collaborators doc_quote_number
  = Err TypeError.
Proof. by vm_compute. Qed.
